(** * codex-roles-cli: safety boundary, patch guard, verification loop

    A shallow embedding of the TypeScript sources
      - retrieve.ts   (repository context provider and safety boundary),
      - patch.ts      (patch application guard),
      - schema.ts     (payload validators),
      - session.ts    (session persistence),
      - orchestrator.ts (command verification loop),
    followed by the properties established about them.

    Conventions.
    - A JavaScript string is modelled by [string]: a sequence of code units
      below 256 (ASCII and Latin-1).  File contents, where the distinction
      between bytes and UTF-16 code units matters, are [list N].
    - A function that may throw returns [result]; [Throw] carries the
      message of the [Error].
    - Promises are awaited one at a time in the sources, so asynchronous
      functions are modelled by their sequential meaning.
    - [path] is Node's POSIX path module; it is modelled at the level of
      path segments (module [NodePath]). *)

From Stdlib Require Import ZArith NArith Ascii String List Bool Lia DecimalString.
From stdpp Require Import base option list gmap strings.

Import ListNotations.
Local Open Scope stdpp_scope.

(** ** Results of fallible code *)

Inductive result (A : Type) : Type :=
| Ok (value : A)
| Throw (message : string).

Arguments Ok {A} value.
Arguments Throw {A} message.

Definition bind {A B : Type} (r : result A) (k : A -> result B) : result B :=
  match r with
  | Ok a => k a
  | Throw m => Throw m
  end.

Notation "'let!' x ':=' r 'in' k" := (bind r (fun x => k))
  (at level 10, x name, r at level 100, k at level 200).

Definition isOk {A : Type} (r : result A) : bool :=
  match r with Ok _ => true | Throw _ => false end.

Definition isThrow {A : Type} (r : result A) : bool := negb (isOk r).

(** ** JavaScript string primitives *)

Module Js.

Definition code (c : ascii) : nat := nat_of_ascii c.

(** [String.prototype.toLowerCase] on code units below 256: the letters
    A-Z and the Latin-1 capitals (U+00C0-U+00DE except U+00D7) move up by
    32, every other unit is unchanged. *)
Definition lowerChar (c : ascii) : ascii :=
  let n := code c in
  if ((65 <=? n) && (n <=? 90)) || ((192 <=? n) && (n <=? 222) && negb (n =? 215))
  then ascii_of_nat (n + 32) else c.

Fixpoint toLowerCase (s : string) : string :=
  match s with
  | EmptyString => EmptyString
  | String c s' => String (lowerChar c) (toLowerCase s')
  end.

(** [s.startsWith(p)] *)
Fixpoint startsWith (s p : string) {struct p} : bool :=
  match p with
  | EmptyString => true
  | String a p' =>
      match s with
      | EmptyString => false
      | String b s' => if ascii_dec a b then startsWith s' p' else false
      end
  end.

(** [s.slice(n)] for [0 <= n]. *)
Fixpoint drop (n : nat) (s : string) : string :=
  match n, s with
  | O, _ => s
  | S n', String _ s' => drop n' s'
  | S _, EmptyString => EmptyString
  end.

(** [s.slice(0, n)] for [0 <= n]. *)
Fixpoint take (n : nat) (s : string) : string :=
  match n, s with
  | S n', String c s' => String c (take n' s')
  | _, _ => EmptyString
  end.

(** [s.endsWith(p)] *)
Definition endsWith (s p : string) : bool :=
  (String.length p <=? String.length s)
  && bool_decide (drop (String.length s - String.length p) s = p).

(** [s.includes(sub)] *)
Fixpoint includes (s sub : string) : bool :=
  if startsWith s sub then true
  else match s with
       | EmptyString => false
       | String _ s' => includes s' sub
       end.

(** [s.replace(pat, "")] with a string pattern: the first occurrence of
    [pat] is deleted, the rest is kept. *)
Fixpoint removeFirst (pat s : string) : string :=
  if startsWith s pat then drop (String.length pat) s
  else match s with
       | EmptyString => EmptyString
       | String c s' => String c (removeFirst pat s')
       end.

(** [s.split(sep)] for a separator of one code unit.  The empty string
    splits into one empty piece. *)
Fixpoint split (sep : ascii) (s : string) : list string :=
  match s with
  | EmptyString => [EmptyString]
  | String c s' =>
      if ascii_dec c sep then EmptyString :: split sep s'
      else match split sep s' with
           | piece :: rest => String c piece :: rest
           | [] => [String c EmptyString]
           end
  end.

(** [pieces.join(sep)] *)
Fixpoint join (sep : string) (pieces : list string) : string :=
  match pieces with
  | [] => EmptyString
  | [p] => p
  | p :: rest => p +:+ sep +:+ join sep rest
  end.

(** ["  ".repeat(n)] *)
Fixpoint repeat (s : string) (n : nat) : string :=
  match n with
  | O => EmptyString
  | S n' => s +:+ repeat s n'
  end.

(** White space below 256, as [trim] sees it. *)
Definition isWhiteSpace (c : ascii) : bool :=
  let n := code c in
  ((9 <=? n) && (n <=? 13)) || (n =? 32) || (n =? 160).

Fixpoint trimStart (s : string) : string :=
  match s with
  | EmptyString => EmptyString
  | String c s' => if isWhiteSpace c then trimStart s' else s
  end.

Fixpoint trimEnd (s : string) : string :=
  match s with
  | EmptyString => EmptyString
  | String c s' =>
      match trimEnd s' with
      | EmptyString => if isWhiteSpace c then EmptyString else String c EmptyString
      | t => String c t
      end
  end.

(** [s.trim()] *)
Definition trim (s : string) : string := trimEnd (trimStart s).

(** A number that is an integer, in a template literal. *)
Definition showInt (z : Z) : string := NilEmpty.string_of_int (Z.to_int z).

(** [xs.includes(x)] and [set.has(x)] on strings. *)
Definition member (x : string) (xs : list string) : bool :=
  existsb (fun y => bool_decide (y = x)) xs.

End Js.

(** ** Node's POSIX [path] module, at segment level *)

Module NodePath.

Definition sep : ascii := "/"%char.

(** One step of [normalizeString]: the segments kept so far are held in
    reverse.  Empty segments and ["."] are dropped; [".."] removes the
    last kept segment, unless there is none or it is itself [".."], in
    which case it is kept only when [allowAboveRoot]. *)
Definition normStep (allowAboveRoot : bool) (kept : list string) (seg : string)
  : list string :=
  if bool_decide (seg = "") || bool_decide (seg = ".") then kept
  else if bool_decide (seg = "..") then
    match kept with
    | top :: below =>
        if bool_decide (top = "..")
        then (if allowAboveRoot then seg :: kept else kept)
        else below
    | [] => if allowAboveRoot then [seg] else []
    end
  else seg :: kept.

Definition normalizeSegments (allowAboveRoot : bool) (segs : list string) : list string :=
  rev (fold_left (normStep allowAboveRoot) segs []).

Definition normalizeString (p : string) (allowAboveRoot : bool) : string :=
  Js.join "/" (normalizeSegments allowAboveRoot (Js.split sep p)).

Definition isAbsolute (p : string) : bool := Js.startsWith p "/".

(** [path.normalize] *)
Definition normalize (p : string) : string :=
  if bool_decide (p = "") then "."
  else
    let trailing := Js.endsWith p "/" in
    let body := normalizeString p (negb (isAbsolute p)) in
    if bool_decide (body = "") then
      (if isAbsolute p then "/" else if trailing then "./" else ".")
    else
      let body' := if trailing then body +:+ "/" else body in
      if isAbsolute p then "/" +:+ body' else body'.

(** [path.join(...args)] *)
Definition join (args : list string) : string :=
  match filter (fun a => a <> "") args with
  | [] => "."
  | parts => normalize (Js.join "/" parts)
  end.

(** The right-to-left scan of [path.resolve]: arguments are prepended
    until an absolute one has been taken. *)
Fixpoint resolveScan (fromRight : list string) (acc : string) : string * bool :=
  match fromRight with
  | [] => (acc, false)
  | p :: more =>
      if bool_decide (p = "") then resolveScan more acc
      else
        let acc' := p +:+ "/" +:+ acc in
        if isAbsolute p then (acc', true) else resolveScan more acc'
  end.

(** [path.resolve(...args)], with the process working directory [cwd]
    consulted last. *)
Definition resolve (cwd : string) (args : list string) : string :=
  let '(joined, absolute) := resolveScan (rev args ++ [cwd]) "" in
  let body := normalizeString joined (negb absolute) in
  if absolute then "/" +:+ body
  else if bool_decide (body = "") then "." else body.

(** [path.basename(p)]: trailing separators are ignored, the part after
    the last remaining separator is returned. *)
Definition basename (p : string) : string :=
  List.last (filter (fun s => s <> "") (Js.split sep p)) "".

(** The suffix of [s] that starts at its last dot, if it has a dot. *)
Fixpoint lastDotSuffix (s : string) : option string :=
  match s with
  | EmptyString => None
  | String c s' =>
      match lastDotSuffix s' with
      | Some t => Some t
      | None => if ascii_dec c "."%char then Some s else None
      end
  end.

(** [path.extname(p)]: from the last dot of the base name to its end;
    empty when there is no dot, when the only dot is the first character,
    or when the base name is [".."]. *)
Definition extname (p : string) : string :=
  match basename p with
  | EmptyString => ""
  | String _ tail as base =>
      match lastDotSuffix tail with
      | Some ext => if bool_decide (base = "..") then "" else ext
      | None => ""
      end
  end.

End NodePath.

(** ** retrieve.ts: repository context provider and safety boundary *)

Module Retrieve.

Definition DEFAULT_IGNORES : list string :=
  ["node_modules"; ".git"; "dist"; "build"; ".next"; "DerivedData";
   "derived data"; "vendor"].

Definition SENSITIVE_EXTENSIONS : list string :=
  [".env"; ".key"; ".pem"; ".crt"; ".p12"; ".pfx"; ".cer"].

Definition SENSITIVE_FILENAMES : list string :=
  [".env"; ".env.local"; ".env.production"; ".env.development"].

Definition isSensitivePath (resolvedPath : string) : bool :=
  let base := Js.toLowerCase (NodePath.basename resolvedPath) in
  if Js.member base SENSITIVE_FILENAMES then true
  else
    let ext := NodePath.extname base in
    if Js.member ext SENSITIVE_EXTENSIONS then true
    else Js.includes base "secret" || Js.includes base "certificate"
         || Js.includes base "private".

Definition containsIgnoredSegment (resolvedPath : string) : bool :=
  let segments := map Js.toLowerCase (Js.split NodePath.sep resolvedPath) in
  existsb (fun ignore => Js.member (Js.toLowerCase ignore) segments) DEFAULT_IGNORES.

Definition shouldIgnore (name : string) : bool :=
  existsb (fun ignore => bool_decide (Js.toLowerCase ignore = Js.toLowerCase name))
          DEFAULT_IGNORES.

(** [resolveSafePath]; [cwd] is the working directory of the process,
    which [path.resolve] consults when [root] is relative. *)
Definition resolveSafePath (cwd root inputPath : string) : result string :=
  let resolved := NodePath.resolve cwd [root; inputPath] in
  if negb (Js.startsWith resolved root) then
    Throw ("Refusing to access path outside repo: " +:+ inputPath)
  else if isSensitivePath resolved then
    Throw ("Refusing to access sensitive path: " +:+ inputPath)
  else if containsIgnoredSegment resolved then
    Throw ("Refusing to access ignored path: " +:+ inputPath)
  else Ok resolved.

(** *** Directory listing *)

(** A snapshot of a directory tree as [fs.readdir] with [withFileTypes]
    shows it: every entry has a name and is a directory, a regular file,
    or something else (a link, a socket, ...).  Every directory of the
    snapshot can be read. *)
#[warnings="-register-all"]
Inductive node : Type :=
| File
| Dir (entries : list (string * node))
| Other.

(** A line pushed to [lines]: the directory line of [walk] or the line of
    a regular file. *)
Inductive line : Type :=
| DirLine (level : nat) (rel : list string)
| FileLine (level : nat) (name : string).

Definition newline : string := String (ascii_of_nat 10) EmptyString.

(** [path.relative(root, current) || "."] for a directory reached from the
    root through the entry names [rel]. *)
Definition relative (rel : list string) : string :=
  match rel with
  | [] => "."
  | _ => Js.join "/" rel
  end.

Definition render (l : line) : string :=
  match l with
  | DirLine level rel => Js.repeat "  " level +:+ relative rel +:+ "/"
  | FileLine level name => Js.repeat "  " level +:+ name
  end.

(** The inner function [walk] of [buildRepoMap], returning the lines it
    pushes.  [current] is the directory reached from the root through the
    entry names [rel]; its entries are what [readdir] returns for it.  The
    function is only called on the root and on entries that are
    directories. *)
Fixpoint walk (depth : Z) (rel : list string) (currentDepth : nat)
         (current : node) {struct current} : list line :=
  if (Z.of_nat currentDepth >? depth)%Z then []
  else
    match current with
    | Dir entries =>
        DirLine currentDepth rel ::
        (fix each (es : list (string * node)) : list line :=
           match es with
           | [] => []
           | (name, child) :: es' =>
               match child with
               | Dir _ =>
                   (if shouldIgnore name then []
                    else walk depth (rel ++ [name]) (S currentDepth) child)
                   ++ each es'
               | File => FileLine (S currentDepth) name :: each es'
               | Other => each es'
               end
           end) entries
    | File | Other => []
    end.

(** [buildRepoMap(root, depth)]; [readdir] rejects a root that is not a
    directory, unless the depth test returns first. *)
Definition buildRepoMap (root : node) (depth : Z) : result string :=
  match root with
  | Dir _ => Ok (Js.join newline (map render (walk depth [] 0 root)))
  | File | Other =>
      if (0 >? depth)%Z then Ok ""
      else Throw "ENOTDIR: not a directory, scandir"
  end.

(** *** Reading files *)

(** Decoding of a file read with the encoding ["utf8"]: well-formed
    sequences yield their code point, every maximal ill-formed part yields
    U+FFFD.  [pending] is a sequence that has started: the bits read so
    far, the number of continuation bytes still expected and the range
    allowed for the next one. *)
Record pending : Type := Pending { bits : N; need : nat; lower : N; upper : N }.

Inductive lead : Type :=
| Emit (codePoint : N)
| Begin (p : pending)
| Bad.

Definition leadByte (v : N) : lead :=
  (if v <=? 0x7F then Emit v
   else if (0xC2 <=? v) && (v <=? 0xDF) then Begin (Pending (N.land v 0x1F) 1 0x80 0xBF)
   else if (0xE0 <=? v) && (v <=? 0xEF) then
     Begin (Pending (N.land v 0xF) 2 (if v =? 0xE0 then 0xA0 else 0x80)
                    (if v =? 0xED then 0x9F else 0xBF))
   else if (0xF0 <=? v) && (v <=? 0xF4) then
     Begin (Pending (N.land v 0x7) 3 (if v =? 0xF0 then 0x90 else 0x80)
                    (if v =? 0xF4 then 0x8F else 0xBF))
   else Bad)%N.

Definition REPLACEMENT : N := 0xFFFD%N.

Fixpoint utf8Decode (bytes : list Byte.byte) (st : option pending) : list N :=
  match bytes with
  | [] => match st with Some _ => [REPLACEMENT] | None => [] end
  | b :: rest =>
      let v := Byte.to_N b in
      let fresh :=
        match leadByte v with
        | Emit c => c :: utf8Decode rest None
        | Begin p => utf8Decode rest (Some p)
        | Bad => REPLACEMENT :: utf8Decode rest None
        end in
      match st with
      | None => fresh
      | Some p =>
          if ((lower p <=? v) && (v <=? upper p))%N then
            let bits' := N.lor (N.shiftl (bits p) 6) (N.land v 0x3F) in
            match need p with
            | S (S k) => utf8Decode rest (Some (Pending bits' (S k) 0x80 0xBF))
            | _ => bits' :: utf8Decode rest None
            end
          else REPLACEMENT :: fresh
      end
  end.

(** The UTF-16 code units of a code point. *)
Definition codeUnits (c : N) : list N :=
  (if c <? 0x10000 then [c]
   else [0xD800 + N.shiftr (c - 0x10000) 10; 0xDC00 + N.land (c - 0x10000) 0x3FF])%N.

(** [buffer.toString("utf8")]: the string, as its code units. *)
Definition decodeUtf8 (bytes : list Byte.byte) : list N :=
  flat_map codeUnits (utf8Decode bytes None).

(** The files of the disk by absolute path; a path that is absent cannot
    be read. *)
Definition disk : Type := string -> option (list Byte.byte).

Definition readFile (fs : disk) (filePath : string) : result (list N) :=
  match fs filePath with
  | Some bytes => Ok (decodeUtf8 bytes)
  | None => Throw ("ENOENT: no such file or directory, open '" +:+ filePath +:+ "'")
  end.

(** [readFileCapped]; [data.length] counts code units. *)
Definition readFileCapped (fs : disk) (filePath : string) (limit : N)
  : result (list N) :=
  let! data := readFile fs filePath in
  if (N.of_nat (length data) <=? limit)%N then Ok data
  else Ok (firstn (N.to_nat limit) data).

(** [results[file] = value] on a plain object with a string value: an own
    property is written, except under the name [__proto__], whose setter
    ignores a value that is not an object. *)
Definition setProperty (results : gmap string (list N)) (key : string) (value : list N)
  : gmap string (list N) :=
  if bool_decide (key = "__proto__") then results else <[key := value]> results.

(** The loop of [readFilesSafe], from the [results] built so far. *)
Fixpoint readFilesLoop (fs : disk) (cwd root : string) (files : list string)
         (results : gmap string (list N)) : result (gmap string (list N)) :=
  match files with
  | [] => Ok results
  | file :: more =>
      let! resolved := resolveSafePath cwd root file in
      let! content := readFileCapped fs resolved 60000%N in
      readFilesLoop fs cwd root more (setProperty results file content)
  end.

Definition readFilesSafe (fs : disk) (cwd root : string) (files : list string)
  : result (gmap string (list N)) :=
  readFilesLoop fs cwd root files ∅.

(** *** Searching *)

(** The arguments [searchRepo] passes to [rg]. *)
Definition searchArgs (token : string) : list string :=
  ["-n"; "--no-heading"; "--color"; "never";
   "--glob"; "!**/.env*"; "--glob"; "!**/*.key"; "--glob"; "!**/*.pem";
   "--glob"; "!**/*.crt"; "--glob"; "!**/*.p12"; "--glob"; "!**/*.pfx";
   "--glob"; "!**/*.cer"]
  ++ flat_map (fun ignore => ["--glob"; "!**/" +:+ ignore +:+ "/**"]) DEFAULT_IGNORES
  ++ [token; "."].

(** [searchRepo]; [rg] is the run of the search tool with the given
    arguments in the given directory: its standard output, or the rejection
    of [execFile] (the tool is missing, exits with a code other than 0, or
    writes more than the buffer holds). *)
Definition searchRepo (rg : list string -> string -> result string) (root token : string)
  : result string :=
  let! stdout := rg (searchArgs token) root in
  Ok (Js.take (N.to_nat 20000) stdout).

(** *** File names in the output of a command *)

(** The classes [\w], [[\w./-]] and [\d] of the pattern of
    [extractFilePaths], and the units behind which [^] holds under the
    flag [m]. *)
Definition isWordChar (c : ascii) : bool :=
  let n := Js.code c in
  ((48 <=? n) && (n <=? 57)) || ((65 <=? n) && (n <=? 90))
  || ((97 <=? n) && (n <=? 122)) || (n =? 95).

Definition isPathChar (c : ascii) : bool :=
  let n := Js.code c in
  isWordChar c || (n =? 46) || (n =? 47) || (n =? 45).

Definition isDigit (c : ascii) : bool :=
  let n := Js.code c in (48 <=? n) && (n <=? 57).

Definition isLineBreak (c : ascii) : bool :=
  let n := Js.code c in (n =? 10) || (n =? 13).

(** The longest run of units of a class at the start of [s]. *)
Fixpoint span (f : ascii -> bool) (s : string) : nat :=
  match s with
  | EmptyString => 0
  | String c s' => if f c then S (span f s') else 0
  end.

(** [(?::\d+)?] at the start of [s]: the number of units it takes, all the
    digits behind a colon, or none when no digit follows. *)
Definition lineSuffix (s : string) : nat :=
  match s with
  | EmptyString => 0
  | String c s' =>
      if ascii_dec c ":" then
        match span isDigit s' with
        | O => 0
        | S d => S (S d)
        end
      else 0
  end.

(** [\.[\w]+(?::\d+)?] behind the first [k] units of [rest]: where the
    match ends. *)
Definition afterRun (k : nat) (rest : string) : option nat :=
  match Js.drop k rest with
  | EmptyString => None
  | String c t =>
      if ascii_dec c "." then
        match span isWordChar t with
        | O => None
        | S m => Some (k + 1 + S m + lineSuffix (Js.drop (S m) t))
        end
      else None
  end.

(** The backtracking of [[\w./-]+]: the run of [k] units is tried first,
    then one unit less at a time, down to one unit. *)
Fixpoint backtrack (k : nat) (rest : string) : option nat :=
  match k with
  | O => None
  | S k' =>
      match afterRun k rest with
      | Some e => Some e
      | None => backtrack k' rest
      end
  end.

(** [([\w./-]+\.[\w]+)(?::\d+)?] at the start of [rest]. *)
Definition body (rest : string) : option nat :=
  backtrack (span isPathChar rest) rest.

(** The whole pattern at a position: [^] is tried first, then [\s]. *)
Definition matchAt (lineStart : bool) (rest : string) : option nat :=
  match (if lineStart then body rest else None) with
  | Some e => Some e
  | None =>
      match rest with
      | EmptyString => None
      | String c t => if Js.isWhiteSpace c then option_map S (body t) else None
      end
  end.

(** [output.match(pattern)] under the flag [g]: the matches from left to
    right, each search starting where the match before ended; [skip] units
    of the last match are still to be passed. *)
Fixpoint scan (lineStart : bool) (skip : nat) (s : string) : list string :=
  match s with
  | EmptyString => []
  | String c s' =>
      match skip with
      | S k => scan (isLineBreak c) k s'
      | O =>
          match matchAt lineStart s with
          | Some e => Js.take e s :: scan (isLineBreak c) (e - 1) s'
          | None => scan (isLineBreak c) 0 s'
          end
      end
  end.

(** [Array.from(new Set(xs))]: the first occurrence of each string, in
    order. *)
Fixpoint unique (xs seen : list string) : list string :=
  match xs with
  | [] => []
  | x :: more =>
      if Js.member x seen then unique more seen else x :: unique more (x :: seen)
  end.

Definition extractFilePaths (output : string) : list string :=
  let matches := scan true 0 output in
  let cleaned :=
    List.filter (fun m => negb (bool_decide (m = ""))) (map Js.trim matches) in
  unique cleaned [].

(** *** Prompts *)

(** The places where [readPrompt] looks for a prompt; [moduleDir] is the
    directory of the module. *)
Definition candidatePaths (moduleDir cwd name : string) : list string :=
  [NodePath.resolve cwd [moduleDir; "prompts"; name];
   NodePath.resolve cwd [cwd; "src"; "prompts"; name];
   NodePath.resolve cwd [cwd; "dist"; "prompts"; name];
   NodePath.resolve cwd [cwd; "tools"; "codex-roles-cli"; "src"; "prompts"; name]].

(** The loop of [readPrompt]: a candidate that cannot be read is passed
    over. *)
Fixpoint firstReadable (fs : disk) (candidates : list string) : option (list N) :=
  match candidates with
  | [] => None
  | promptPath :: more =>
      match readFile fs promptPath with
      | Ok data => Some data
      | Throw _ => firstReadable fs more
      end
  end.

Definition readPrompt (fs : disk) (moduleDir cwd name : string) : result (list N) :=
  match firstReadable fs (candidatePaths moduleDir cwd name) with
  | Some data => Ok data
  | None => Throw ("Prompt not found: " +:+ name)
  end.

End Retrieve.

(** ** patch.ts: patch application guard *)

Module Patch.

Record PatchOptions : Type := {
  root : string;
  allowDelete : option bool;
  allowedExtensions : option (list string)
}.

(** *** The files a diff names *)

Definition isLineTerminator (c : ascii) : bool :=
  (Js.code c =? 10) || (Js.code c =? 13).

(** The maximal runs of [s] without a line terminator. *)
Fixpoint lines (s : string) : list string :=
  match s with
  | EmptyString => [EmptyString]
  | String c s' =>
      if isLineTerminator c then EmptyString :: lines s'
      else match lines s' with
           | l :: rest => String c l :: rest
           | [] => [String c EmptyString]
           end
  end.

(** [s] has the shape [X b/Y] with [Y] not empty; [X] is what precedes. *)
Fixpoint hasTarget (s : string) : bool :=
  (Js.startsWith s " b/" && negb (bool_decide (Js.drop 3 s = "")))
  || match s with
     | EmptyString => false
     | String _ s' => hasTarget s'
     end.

Definition HEADER : string := "diff --git a/".

(** A line matches [^diff --git a\/(.+?) b\/(.+)$]: it is
    [diff --git a/X b/Y] with [X] and [Y] not empty. *)
Definition isHeader (l : string) : bool :=
  Js.startsWith l HEADER
  && match Js.drop (String.length HEADER) l with
     | EmptyString => false
     | String _ afterFirst => hasTarget afterFirst
     end.

(** [diff.match(/^diff --git a\/(.+?) b\/(.+)$/gm) ?? []].  With the flag
    [m] the anchors match at the ends of lines and the dot matches no line
    terminator, so the matches are the lines that have the shape, whole
    and in order. *)
Definition headerMatches (diff : string) : list string :=
  List.filter isHeader (lines diff).

(** [parts[2]?.replace("b/", "") ?? ""] *)
Definition fileOfHeader (l : string) : string :=
  match nth_error (Js.split " " l) 2 with
  | Some part => Js.removeFirst "b/" part
  | None => ""
  end.

Definition extractFilesFromDiff (diff : string) : list string :=
  List.filter (fun f => negb (bool_decide (f = "")))
              (map fileOfHeader (headerMatches diff)).

(** *** The external process *)

(** What [spawn] is called with, and the text written to the standard
    input of the child. *)
Record spawnCall : Type := {
  command : string;
  args : list string;
  cwd : string;
  stdin : string
}.

(** How a child process ends: it cannot be started, or it closes with an
    exit code ([None] when a signal ended it). *)
Inductive ending : Type :=
| Errored (message : string)
| Closed (exitCode : option Z).

(** A run of a child process: the text of each chunk that arrives from its
    standard error, as [chunk.toString()] gives it, and its ending. *)
Record processRun : Type := { stderrChunks : list string; ended : ending }.

(** The handler of ["data"]: the text kept is capped at 10000 units. *)
Definition collectStderr (chunks : list string) : string :=
  fold_left (fun acc chunk =>
               let acc' := acc +:+ chunk in
               if (10000 <? N.of_nat (String.length acc'))%N
               then Js.take (N.to_nat 10000) acc' else acc')
            chunks "".

(** [applyViaStdin]: the spawn it performs and how its promise settles. *)
Definition applyViaStdin (git : spawnCall -> processRun) (diff root : string)
  : result unit * list spawnCall :=
  let call := {| command := "git"; args := ["apply"; "--whitespace=nowarn"; "-"];
                 cwd := root; stdin := diff |} in
  let run := git call in
  let settled :=
    match ended run with
    | Errored m => Throw m
    | Closed (Some 0%Z) => Ok tt
    | Closed code =>
        let shown := match code with Some c => Js.showInt c | None => "unknown" end in
        let text := Js.trim (collectStderr (stderrChunks run)) in
        let message := if bool_decide (text = "")
                       then "git apply exited with code " +:+ shown +:+ "."
                       else text in
        Throw ("Failed to apply patch. " +:+ message)
    end in
  (settled, [call]).

(** *** The guard *)

(** The loop of [applyPatch] over the files of the diff. *)
Fixpoint checkFiles (allowedExtensions : option (list string)) (files : list string)
  : result unit :=
  match files with
  | [] => Ok tt
  | file :: more =>
      if Retrieve.isSensitivePath file then
        Throw ("Refusing to patch sensitive path: " +:+ file)
      else if Retrieve.containsIgnoredSegment file then
        Throw ("Refusing to patch ignored path: " +:+ file)
      else
        match allowedExtensions with
        | Some exts =>
            if negb (existsb (fun ext => Js.endsWith file ext) exts) then
              Throw ("Refusing to patch non-allowed file: " +:+ file)
            else checkFiles allowedExtensions more
        | None => checkFiles allowedExtensions more
        end
  end.

(** [applyPatch]: how the promise settles, and the processes spawned on
    the way, in order. *)
Definition applyPatch (git : spawnCall -> processRun) (diff : string)
           (options : PatchOptions) : result unit * list spawnCall :=
  let allowDelete := default false (allowDelete options) in
  let files := extractFilesFromDiff diff in
  if (length files =? 0)%nat then (Throw "No files found in diff output.", [])
  else
    match checkFiles (allowedExtensions options) files with
    | Throw m => (Throw m, [])
    | Ok _ =>
        if negb allowDelete && Js.includes diff "deleted file mode" then
          (Throw "Refusing to delete files without an explicit request.", [])
        else applyViaStdin git diff (root options)
    end.

End Patch.

(** ** schema.ts: payloads of the reasoning backend *)

Module Schema.

(** A JSON number, kept as the decimal literal [mantissa * 10^exponent];
    the validators only look at its type. *)
Record number : Type := { mantissa : Z; exponent : Z }.

(** A value produced by [JSON.parse].  The fields of an object are its own
    properties; a name is looked up from the front. *)
#[warnings="-register-all"]
Inductive json : Type :=
| JNull
| JBool (b : bool)
| JNumber (n : number)
| JString (s : string)
| JArray (items : list json)
| JObject (fields : list (string * json)).

Definition TASK_TYPES : list string :=
  ["code.change"; "code.analysis"; "docs.write"; "docs.analysis"; "research";
   "misc.text"].

Record Classification : Type := {
  taskType : string;
  confidence : number;
  notes : string
}.

Record Plan : Type := {
  goal : string;
  steps : list string;
  read : option (list string);
  search : option (list string);
  edit : option (list string);
  commands : option (list string);
  acceptance : list string
}.

Fixpoint lookupField (name : string) (fields : list (string * json)) : option json :=
  match fields with
  | [] => None
  | (k, v) :: more => if bool_decide (k = name) then Some v else lookupField name more
  end.

(** [record.name] on a value that is an object and not [null]: [None] is
    [undefined].  An array has none of the properties read here. *)
Definition getProperty (value : json) (name : string) : option json :=
  match value with
  | JObject fields => lookupField name fields
  | _ => None
  end.

(** [typeof value !== "object" || value === null] *)
Definition notAnObject (value : json) : bool :=
  match value with
  | JObject _ | JArray _ => false
  | _ => true
  end.

Definition isTaskType (value : option json) : bool :=
  match value with
  | Some (JString s) => Js.member s TASK_TYPES
  | _ => false
  end.

Definition validateClassification (value : json) : result Classification :=
  if notAnObject value then Throw "Classification must be an object."
  else
    match getProperty value "taskType" with
    | Some (JString t) =>
        if negb (isTaskType (Some (JString t))) then
          Throw "Classification.taskType is invalid."
        else
          match getProperty value "confidence" with
          | Some (JNumber c) =>
              match getProperty value "notes" with
              | Some (JString n) =>
                  Ok {| taskType := t; confidence := c; notes := n |}
              | _ => Throw "Classification.notes must be a string."
              end
          | _ => Throw "Classification.confidence must be a number."
          end
    | _ => Throw "Classification.taskType is invalid."
    end.

(** [Array.isArray(value) && value.every((item) => typeof item === "string")],
    with the strings when the test holds. *)
Fixpoint stringItems (items : list json) : option (list string) :=
  match items with
  | [] => Some []
  | JString s :: more =>
      match stringItems more with
      | Some rest => Some (s :: rest)
      | None => None
      end
  | _ :: _ => None
  end.

Definition stringArray (value : option json) : option (list string) :=
  match value with
  | Some (JArray items) => stringItems items
  | _ => None
  end.

Definition isStringArray (value : option json) : bool :=
  match stringArray value with Some _ => true | None => false end.

(** A field that may be absent: [value !== undefined && !isStringArray(value)]
    throws [message]; otherwise the field is kept, absent or a string
    array. *)
Definition optionalStrings (value : option json) (message : string)
  : result (option (list string)) :=
  match value with
  | None => Ok None
  | Some _ =>
      match stringArray value with
      | Some l => Ok (Some l)
      | None => Throw message
      end
  end.

(** A field that may be absent and is a string when present. *)
Definition optionalString (value : option json) (message : string)
  : result (option string) :=
  match value with
  | None => Ok None
  | Some (JString s) => Ok (Some s)
  | Some _ => Throw message
  end.

Definition requiredStrings (value : option json) (message : string)
  : result (list string) :=
  match stringArray value with
  | Some l => Ok l
  | None => Throw message
  end.

Definition validatePlan (value : json) : result Plan :=
  if notAnObject value then Throw "Plan must be an object."
  else
    match getProperty value "goal" with
    | Some (JString g) =>
        let! steps := requiredStrings (getProperty value "steps")
                        "Plan.steps must be a string array." in
        let! acceptance := requiredStrings (getProperty value "acceptance")
                             "Plan.acceptance must be a string array." in
        let! read := optionalStrings (getProperty value "read")
                       "Plan.read must be a string array when provided." in
        let! search := optionalStrings (getProperty value "search")
                         "Plan.search must be a string array when provided." in
        let! edit := optionalStrings (getProperty value "edit")
                       "Plan.edit must be a string array when provided." in
        let! commands := optionalStrings (getProperty value "commands")
                           "Plan.commands must be a string array when provided." in
        Ok {| goal := g; steps := steps; read := read; search := search; edit := edit;
              commands := commands; acceptance := acceptance |}
    | _ => Throw "Plan.goal must be a string."
    end.

Record CodeReview : Type := {
  blocking : list string;
  nonBlocking : list string;
  codeNotes : option string
}.

Record TextReview : Type := {
  issues : list string;
  improvements : option (list string);
  textNotes : option string
}.

Definition validateCodeReview (value : json) : result CodeReview :=
  if notAnObject value then Throw "Review must be an object."
  else
    let! blocking := requiredStrings (getProperty value "blocking")
                       "Review.blocking must be a string array." in
    let! nonBlocking := requiredStrings (getProperty value "nonBlocking")
                          "Review.nonBlocking must be a string array." in
    let! notes := optionalString (getProperty value "notes")
                    "Review.notes must be a string when provided." in
    Ok {| blocking := blocking; nonBlocking := nonBlocking; codeNotes := notes |}.

Definition validateTextReview (value : json) : result TextReview :=
  if notAnObject value then Throw "Review must be an object."
  else
    let! issues := requiredStrings (getProperty value "issues")
                     "Review.issues must be a string array." in
    let! improvements := optionalStrings (getProperty value "improvements")
                           "Review.improvements must be a string array when provided." in
    let! notes := optionalString (getProperty value "notes")
                    "Review.notes must be a string when provided." in
    Ok {| issues := issues; improvements := improvements; textNotes := notes |}.

(** [parseJson]; [JSON_parse] is [JSON.parse], whose error, when it throws,
    has the message given. *)
Definition parseJson (JSON_parse : string -> result json) (raw label : string)
  : result json :=
  match JSON_parse raw with
  | Ok value => Ok value
  | Throw message => Throw (label +:+ " must be valid JSON. " +:+ message)
  end.

End Schema.

(** ** classify.ts *)

Module Classify.

Section Classify.
(** [readPrompt] of retrieve.ts and [callCodex] of codex.ts, as the task
    sees them: the text they resolve to or the error they throw. *)
Variable readPrompt : string -> result string.
Variable callCodex : string -> string -> result string.
Variable JSON_parse : string -> result Schema.json.

(** [classifyTask]; the input of the backend is the object that holds the
    task. *)
Definition classifyTask (task : string) : result Schema.Classification :=
  let! prompt := readPrompt "classify.txt" in
  let! raw := callCodex prompt task in
  let! parsed := Schema.parseJson JSON_parse raw "Classifier output" in
  Schema.validateClassification parsed.

End Classify.

End Classify.

(** ** session.ts: the persisted session *)

Module Session.

Record SessionEntry : Type := {
  at_ : string;
  type_ : string;
  content : Schema.json
}.

Record SessionRecord : Type := {
  id : string;
  createdAt : string;
  updatedAt : string;
  summary : string;
  history : list SessionEntry
}.

(** The class [[^a-zA-Z0-9_-]] of the pattern in [getSessionPath],
    complemented: the code units that are kept. *)
Definition isSafeChar (c : ascii) : bool :=
  let n := Js.code c in
  ((97 <=? n) && (n <=? 122)) || ((65 <=? n) && (n <=? 90))
  || ((48 <=? n) && (n <=? 57)) || (n =? 95) || (n =? 45).

(** [sessionId.replace(/[^a-zA-Z0-9_-]/g, "_")] *)
Fixpoint sanitize (sessionId : string) : string :=
  match sessionId with
  | EmptyString => EmptyString
  | String c s' => String (if isSafeChar c then c else "_"%char) (sanitize s')
  end.

Definition getSessionPath (root sessionId : string) : string :=
  let safeId := sanitize sessionId in
  NodePath.join [root; ".codex-roles"; safeId +:+ ".json"].

(** What [loadSession] resolves to: the value parsed from the file, cast
    to [SessionRecord] without a test, or a record made on the spot. *)
Inductive loaded : Type :=
| FromFile (value : Schema.json)
| Fresh (record : SessionRecord).

Definition tryCatch {A : Type} (body : result A) (handler : result A) : result A :=
  match body with
  | Ok a => Ok a
  | Throw _ => handler
  end.

Section Load.
(** [JSON.parse], on the code units of the text read. *)
Variable JSON_parse : list N -> result Schema.json.
(** The files on disk. *)
Variable fs : Retrieve.disk.
(** [new Date().toISOString()] at the time of the call. *)
Variable now : string.

Definition loadSession (root sessionId : string) : result loaded :=
  let sessionPath := getSessionPath root sessionId in
  tryCatch
    (let! raw := Retrieve.readFile fs sessionPath in
     let! value := JSON_parse raw in
     Ok (FromFile value))
    (Ok (Fresh {| id := sessionId; createdAt := now; updatedAt := now;
                  summary := ""; history := [] |})).
End Load.

End Session.

(** ** orchestrator.ts: the command verification loop *)

Module Orchestrator.

Record CommandResult : Type := {
  stdout : string;
  stderr : string;
  exitCode : Z
}.

(** The input of the fixer prompt. *)
Record FixRequest : Type := {
  task : string;
  plan : Schema.Plan;
  diff : string;
  command : string;
  output : string;
  errors : string;
  context : gmap string (list N)
}.

(** What the loop does that can be observed from outside, in order. *)
Inductive event : Type :=
| AttemptStarted (attempt : nat)
| CommandRun (command : string)
| FixRequested (command : string)
| Spawned (call : Patch.spawnCall).

Section Verify.
(** The world outside the process: the working tree, the reasoning
    backend, the tools the commands run. *)
Variable World : Type.
(** [runCommand(command, cwd)] of retrieve.ts, which runs a shell. *)
Variable runCommand : string -> string -> World -> result CommandResult * World.
(** [extractFilePaths], whose result only selects the files shown to the
    backend. *)
Variable extractFilePaths : string -> list string.
(** The files of the working tree. *)
Variable diskOf : World -> Retrieve.disk.
(** [readPrompt] and [callCodex]. *)
Variable readPrompt : string -> World -> result string.
Variable callCodex : string -> FixRequest -> World -> result string * World.
(** The process [git apply] started in a world, and the world it leaves. *)
Variable spawnGit : World -> Patch.spawnCall -> Patch.processRun.
Variable afterSpawn : World -> Patch.spawnCall -> World.
(** [process.cwd()] *)
Variable cwd : string.

Record state : Type := { world : World; trace : list event }.

(** Computations that read and change the world, log events and may
    throw. *)
Definition M (A : Type) : Type := state -> result A * state.

Definition ret {A : Type} (a : A) : M A := fun s => (Ok a, s).

Definition bindM {A B : Type} (m : M A) (k : A -> M B) : M B :=
  fun s => match m s with
           | (Ok a, s') => k a s'
           | (Throw e, s') => (Throw e, s')
           end.

Definition throw {A : Type} (message : string) : M A := fun s => (Throw message, s).

Definition emit (e : event) : M unit :=
  fun s => (Ok tt, {| world := world s; trace := trace s ++ [e] |}).

Definition inWorld {A : Type} (f : World -> result A * World) : M A :=
  fun s => let '(r, w) := f (world s) in (r, {| world := w; trace := trace s |}).

Definition look {A : Type} (f : World -> result A) : M A :=
  fun s => (f (world s), s).

Notation "x <~ m ;; k" := (bindM m (fun x => k))
  (at level 100, m at next level, right associativity).

(** [await applyPatch(fixRaw, { root })] *)
Definition applyPatchM (diff root : string) : M unit :=
  fun s =>
    let '(r, calls) :=
      Patch.applyPatch (spawnGit (world s)) diff
        {| Patch.root := root; Patch.allowDelete := None;
           Patch.allowedExtensions := None |} in
    (r, {| world := fold_left afterSpawn calls (world s);
           trace := trace s ++ map Spawned calls |}).

(** The body of [if (result.exitCode !== 0)], up to the [break]. *)
Definition fixFailure (root task : string) (plan : Schema.Plan) (diff command : string)
           (result : CommandResult) : M unit :=
  let files :=
    extractFilePaths (stdout result +:+ Retrieve.newline +:+ stderr result) in
  let safeFiles :=
    List.filter (fun file => isOk (Retrieve.resolveSafePath cwd root file)) files in
  context <~ (if (0 <? length safeFiles)%nat
              then look (fun w => Retrieve.readFilesSafe (diskOf w) cwd root safeFiles)
              else ret ∅) ;;
  fixerPrompt <~ look (readPrompt "fixer.code.txt") ;;
  _ <~ emit (FixRequested command) ;;
  fixRaw <~ inWorld (callCodex fixerPrompt
                       {| task := task; plan := plan; diff := diff;
                          command := command; output := stdout result;
                          errors := stderr result; context := context |}) ;;
  applyPatchM fixRaw root.

Definition run (command root : string) : M CommandResult :=
  _ <~ emit (CommandRun command) ;;
  inWorld (runCommand command root).

(** [for (const command of commands)] inside the loop; the value is
    [failed]. *)
Fixpoint attemptCommands (root task : string) (plan : Schema.Plan) (diff : string)
         (commands : list string) : M bool :=
  match commands with
  | [] => ret false
  | command :: more =>
      result <~ run command root ;;
      if negb (exitCode result =? 0)%Z then
        _ <~ fixFailure root task plan diff command result ;;
        ret true
      else attemptCommands root task plan diff more
  end.

Fixpoint runAll (commands : list string) (root : string) : M bool :=
  match commands with
  | [] => ret true
  | command :: more =>
      result <~ run command root ;;
      if negb (exitCode result =? 0)%Z then ret false
      else runAll more root
  end.

(** [while (attempt < 3)]: [remaining] is [3 - attempt], the number of
    turns the test still lets through. *)
Fixpoint attempts (remaining attempt : nat) (root task : string) (plan : Schema.Plan)
         (diff : string) (commands : list string) : M unit :=
  match remaining with
  | O => throw "Verification failed after three attempts."
  | S remaining' =>
      let attempt := S attempt in
      _ <~ emit (AttemptStarted attempt) ;;
      failed <~ attemptCommands root task plan diff commands ;;
      if negb failed then ret tt
      else
        rerunSucceeded <~ runAll commands root ;;
        if rerunSucceeded then ret tt
        else attempts remaining' attempt root task plan diff commands
  end.

Definition verifyCommands (root task : string) (plan : Schema.Plan) (diff : string)
  : M unit :=
  let commands := default [] (Schema.commands plan) in
  if (length commands =? 0)%nat then ret tt
  else attempts (3 - 0) 0 root task plan diff commands.

(** Counting in a trace. *)
Definition isAttempt (e : event) : bool :=
  match e with AttemptStarted _ => true | _ => false end.
Definition isFix (e : event) : bool :=
  match e with FixRequested _ => true | _ => false end.
Definition isSpawn (e : event) : bool :=
  match e with Spawned _ => true | _ => false end.
Definition countAttempts (t : list event) : nat := length (List.filter isAttempt t).
Definition countFixes (t : list event) : nat := length (List.filter isFix t).

End Verify.

Arguments world {World} s.
Arguments trace {World} s.

(** *** Retrieval *)

Section Context.

Variable rg : list string -> string -> result string.
Variable fs : Retrieve.disk.
Variable cwd : string.

(** [searchResults[token] = value] on a plain object with a string value;
    the setter of [__proto__] ignores it. *)
Definition setResult (searchResults : gmap string string) (token value : string)
  : gmap string string :=
  if bool_decide (token = "__proto__") then searchResults
  else <[token := value]> searchResults.

(** The loop over [plan.search]. *)
Fixpoint searchLoop (root : string) (tokens : list string)
         (searchResults : gmap string string) : result (gmap string string) :=
  match tokens with
  | [] => Ok searchResults
  | token :: more =>
      let! found := Retrieve.searchRepo rg root token in
      searchLoop root more (setResult searchResults token found)
  end.

(** [Object.assign(files, source)]: the properties of [source] are written
    over those of [files]. *)
Definition assign (files source : gmap string (list N)) : gmap string (list N) :=
  source ∪ files.

(** The reading of [plan.read], when it is there and not empty. *)
Definition readRequested (root : string) (plan : Schema.Plan)
           (files : gmap string (list N)) : result (gmap string (list N)) :=
  match Schema.read plan with
  | Some (file :: more) =>
      let! source := Retrieve.readFilesSafe fs cwd root (file :: more) in
      Ok (assign files source)
  | _ => Ok files
  end.

Definition retrieveContext (root : string) (plan : Schema.Plan) (taskType : string)
  : result (gmap string string * gmap string (list N)) :=
  if Js.startsWith taskType "code" then
    let! searchResults := searchLoop root (default [] (Schema.search plan)) ∅ in
    let! files := readRequested root plan ∅ in
    Ok (searchResults, files)
  else
    let! files := readRequested root plan ∅ in
    Ok (∅, files).

End Context.

End Orchestrator.

(** ** codex.ts: the options of the backend thread *)

Module Codex.

(** An options object: a property is absent, or present with a value that
    may be [undefined]. *)
Record CodexThreadOptions : Type := {
  workingDirectory : option (option string);
  skipGitRepoCheck : option (option bool)
}.

(** One property of [{ ...a, ...b }]. *)
Definition spread {A : Type} (a b : option A) : option A :=
  match b with
  | Some v => Some v
  | None => a
  end.

(** [configureCodex(options)], from the options configured so far to the
    new ones. *)
Definition configureCodex (configured options : CodexThreadOptions) : CodexThreadOptions :=
  {| workingDirectory := spread (workingDirectory configured) (workingDirectory options);
     skipGitRepoCheck := spread (skipGitRepoCheck configured) (skipGitRepoCheck options) |}.

Definition initial : CodexThreadOptions :=
  {| workingDirectory := None; skipGitRepoCheck := None |}.

Definition truthyString (v : option (option string)) : bool :=
  match v with
  | Some (Some s) => negb (bool_decide (s = ""))
  | _ => false
  end.

Definition truthyBool (v : option (option bool)) : bool :=
  match v with
  | Some (Some b) => b
  | _ => false
  end.

(** [getThreadOptions()]; [None] is [undefined]. *)
Definition getThreadOptions (configured : CodexThreadOptions) : option CodexThreadOptions :=
  if negb (truthyString (workingDirectory configured))
     && negb (truthyBool (skipGitRepoCheck configured))
  then None else Some configured.

End Codex.

(** ** index.ts: the command line *)

Module Cli.

(** What [parseArgs] returns; the fields that an error return leaves out
    are [None]. *)
Record ParsedArgs : Type := {
  task : string;
  root : string;
  skipGitRepoCheck : bool;
  verbose : option bool;
  sessionId : option string;
  error : option string
}.

(** The variables of the loop of [parseArgs]. *)
Record vars : Type := {
  rootVar : string;
  skipVar : bool;
  verboseVar : bool;
  sessionVar : string;
  taskParts : list string
}.

(** The loop of [parseArgs] from the argument at hand; an argument taken
    as a value is skipped.  A value that is missing or empty is an
    error. *)
Fixpoint parseFrom (args : list string) (v : vars) : ParsedArgs :=
  match args with
  | [] =>
      {| task := Js.trim (Js.join " " (taskParts v)); root := rootVar v;
         skipGitRepoCheck := skipVar v; verbose := Some (verboseVar v);
         sessionId := Some (sessionVar v); error := None |}
  | arg :: rest =>
      if bool_decide (arg = "--cwd") then
        match rest with
        | value :: rest' =>
            if bool_decide (value = "") then
              {| task := ""; root := rootVar v; skipGitRepoCheck := skipVar v;
                 verbose := None; sessionId := None;
                 error := Some "Missing value for --cwd." |}
            else
              parseFrom rest' {| rootVar := value; skipVar := skipVar v;
                                 verboseVar := verboseVar v; sessionVar := sessionVar v;
                                 taskParts := taskParts v |}
        | [] =>
            {| task := ""; root := rootVar v; skipGitRepoCheck := skipVar v;
               verbose := None; sessionId := None;
               error := Some "Missing value for --cwd." |}
        end
      else if bool_decide (arg = "--skip-git-repo-check") then
        parseFrom rest {| rootVar := rootVar v; skipVar := true;
                          verboseVar := verboseVar v; sessionVar := sessionVar v;
                          taskParts := taskParts v |}
      else if bool_decide (arg = "--session") then
        match rest with
        | value :: rest' =>
            if bool_decide (value = "") then
              {| task := ""; root := rootVar v; skipGitRepoCheck := skipVar v;
                 verbose := Some (verboseVar v); sessionId := Some (sessionVar v);
                 error := Some "Missing value for --session." |}
            else
              parseFrom rest' {| rootVar := rootVar v; skipVar := skipVar v;
                                 verboseVar := verboseVar v; sessionVar := value;
                                 taskParts := taskParts v |}
        | [] =>
            {| task := ""; root := rootVar v; skipGitRepoCheck := skipVar v;
               verbose := Some (verboseVar v); sessionId := Some (sessionVar v);
               error := Some "Missing value for --session." |}
        end
      else if bool_decide (arg = "--verbose") then
        parseFrom rest {| rootVar := rootVar v; skipVar := skipVar v;
                          verboseVar := true; sessionVar := sessionVar v;
                          taskParts := taskParts v |}
      else
        parseFrom rest {| rootVar := rootVar v; skipVar := skipVar v;
                          verboseVar := verboseVar v; sessionVar := sessionVar v;
                          taskParts := taskParts v ++ [arg] |}
  end.

(** [parseArgs(args)]; [cwd] is [process.cwd()]. *)
Definition parseArgs (cwd : string) (args : list string) : ParsedArgs :=
  parseFrom args {| rootVar := cwd; skipVar := false; verboseVar := false;
                    sessionVar := "default"; taskParts := [] |}.

(** What the script does with the arguments: it prints an error or the
    usage and exits with 1, or it runs the task. *)
Inductive action : Type :=
| Exit1 (message : string)
| Usage
| Run (task root : string) (skipGitRepoCheck : bool) (verbose : option bool)
      (sessionId : option string).

Definition start (cwd : string) (args : list string) : action :=
  let parsed := parseArgs cwd args in
  match error parsed with
  | Some message => Exit1 message
  | None =>
      if bool_decide (task parsed = "") then Usage
      else Run (task parsed) (root parsed) (skipGitRepoCheck parsed) (verbose parsed)
               (sessionId parsed)
  end.

(** The options the script configures before it runs the task. *)
Definition configured (root : string) (skipGitRepoCheck : bool) : Codex.CodexThreadOptions :=
  Codex.configureCodex Codex.initial
    {| Codex.workingDirectory := Some (Some root);
       Codex.skipGitRepoCheck := Some (Some skipGitRepoCheck) |}.

End Cli.

(** ** Notions the properties are stated with *)

Module Stated.

(** *** Containment in the root *)

(** The segments of an absolute path, and the path of a list of
    segments. *)
Definition segments (p : string) : list string :=
  filter (fun s => s <> "") (Js.split NodePath.sep p).

Definition ofSegments (segs : list string) : string := "/" +:+ Js.join "/" segs.

Fixpoint prefixes {A : Type} (l : list A) : list (list A) :=
  [] :: match l with
        | [] => []
        | x :: l' => map (cons x) (prefixes l')
        end.

(** The ancestor chain of an absolute path: the path, its directory, the
    directory of that, up to ["/"]. *)
Definition ancestors (p : string) : list string :=
  map ofSegments (prefixes (segments p)).

Definition inAncestorChain (root p : string) : bool := Js.member root (ancestors p).

(** *** The structural checks of the patch guard *)

Definition allowDeleteOf (options : Patch.PatchOptions) : bool :=
  default false (Patch.allowDelete options).

(** The extracted file list is not empty. *)
Definition filesPresent (diff : string) : bool :=
  negb (bool_decide (Patch.extractFilesFromDiff diff = [])).

(** The extension allowlist, when there is one, has a suffix of the file. *)
Definition extensionAllowed (allowed : option (list string)) (file : string) : bool :=
  match allowed with
  | Some exts => existsb (fun ext => Js.endsWith file ext) exts
  | None => true
  end.

(** The three tests made per file. *)
Definition fileAccepted (allowed : option (list string)) (file : string) : bool :=
  negb (Retrieve.isSensitivePath file)
  && negb (Retrieve.containsIgnoredSegment file)
  && extensionAllowed allowed file.

Definition hasDeletionMarker (diff : string) : bool := Js.includes diff "deleted file mode".

(** The deletion policy. *)
Definition deletionPermitted (diff : string) (options : Patch.PatchOptions) : bool :=
  allowDeleteOf options || negb (hasDeletionMarker diff).

(** Every structural check passes. *)
Definition checksPass (diff : string) (options : Patch.PatchOptions) : bool :=
  filesPresent diff
  && forallb (fileAccepted (Patch.allowedExtensions options)) (Patch.extractFilesFromDiff diff)
  && deletionPermitted diff options.

(** The one process the guard starts. *)
Definition gitApply (diff : string) (options : Patch.PatchOptions) : Patch.spawnCall :=
  {| Patch.command := "git"; Patch.args := ["apply"; "--whitespace=nowarn"; "-"];
     Patch.cwd := Patch.root options; Patch.stdin := diff |}.

(** *** Header lines of a diff *)

(** Every code unit of [s] satisfies [p]. *)
Fixpoint all (p : ascii -> bool) (s : string) : bool :=
  match s with
  | EmptyString => true
  | String c s' => p c && all p s'
  end.








(** *** Payload shapes *)

Definition isNumber (value : option Schema.json) : bool :=
  match value with Some (Schema.JNumber _) => true | _ => false end.

Definition isString (value : option Schema.json) : bool :=
  match value with Some (Schema.JString _) => true | _ => false end.

(** The record [loadSession] makes when the file cannot be used. *)
Definition freshRecord (sessionId now : string) : Session.SessionRecord :=
  {| Session.id := sessionId; Session.createdAt := now; Session.updatedAt := now;
     Session.summary := ""; Session.history := [] |}.

(** *** Names of path segments *)

Definition notSlash (c : ascii) : bool := negb (bool_decide (c = "/"%char)).

(** A name that [normalizeString] keeps as it is: not empty, without a
    separator, and neither [.] nor [..]. *)
Definition plainName (s : string) : Prop :=
  all notSlash s = true /\ s <> "" /\ s <> "." /\ s <> "..".

(** The session id is made of the code units that [getSessionPath] keeps. *)
Definition safeId (s : string) : bool := all Session.isSafeChar s.

(** *** Directory listings *)

(** The lines [walk] pushes for one entry of the directory reached through
    [rel] at depth [currentDepth]. *)
Definition entryLines (depth : Z) (rel : list string) (currentDepth : nat)
           (entry : string * Retrieve.node) : list Retrieve.line :=
  match entry with
  | (name, Retrieve.Dir sub) =>
      if Retrieve.shouldIgnore name then []
      else Retrieve.walk depth (rel ++ [name]) (S currentDepth) (Retrieve.Dir sub)
  | (name, Retrieve.File) => [Retrieve.FileLine (S currentDepth) name]
  | (name, Retrieve.Other) => []
  end.

(** The names of the regular files among the entries of a directory. *)
Definition fileNames (entries : list (string * Retrieve.node)) : list string :=
  flat_map (fun entry => match entry with
                         | (name, Retrieve.File) => [name]
                         | _ => []
                         end) entries.

(** The listing of a root at depth 0: the root line, then one line for each
    regular file directly in the root. *)
Definition rootListing (entries : list (string * Retrieve.node)) : string :=
  Js.join Retrieve.newline ("./" :: map (fun name => "  " +:+ name) (fileNames entries)).

(** The directory that the chain [rel] of entry names leads to from the
    directory [n] has the entries [entries]; every name of the chain is
    the name of an entry that is a directory. *)
Fixpoint entriesAt (n : Retrieve.node) (rel : list string)
         (entries : list (string * Retrieve.node)) : Prop :=
  match rel with
  | [] => n = Retrieve.Dir entries
  | name :: rel' =>
      exists (es : list (string * Retrieve.node)) (child : Retrieve.node),
        n = Retrieve.Dir es /\ In (name, child) es /\ entriesAt child rel' entries
  end.

(** No name of the chain matches the ignore set. *)
Definition kept (rel : list string) : Prop :=
  Forall (fun name => Retrieve.shouldIgnore name = false) rel.

(** Induction on directory trees, with the hypothesis for every entry of a
    directory. *)
Fixpoint node_nested_ind (P : Retrieve.node -> Prop)
         (HFile : P Retrieve.File) (HOther : P Retrieve.Other)
         (HDir : forall entries, Forall (fun entry => P (snd entry)) entries ->
                                 P (Retrieve.Dir entries))
         (n : Retrieve.node) {struct n} : P n :=
  match n with
  | Retrieve.File => HFile
  | Retrieve.Other => HOther
  | Retrieve.Dir entries =>
      HDir entries
        ((fix each (es : list (string * Retrieve.node))
            : Forall (fun entry => P (snd entry)) es :=
            match es with
            | [] => @List.Forall_nil _ _
            | (name, child) :: es' =>
                @List.Forall_cons _ (fun entry => P (snd entry)) (name, child) es'
                  (node_nested_ind P HFile HOther HDir child) (each es')
            end) entries)
  end.

(** *** File contents *)

(** Every byte is below 128. *)
Definition asciiOnly (bytes : list Byte.byte) : bool :=
  forallb (fun b => (Byte.to_N b <=? 0x7F)%N) bytes.

(** The number of code units of a text. *)
Definition units (text : list N) : N := N.of_nat (length text).

(** The requested path passes the safety boundary and names a file of the
    disk. *)
Definition readable (fs : Retrieve.disk) (cwd root file : string) : Prop :=
  exists (resolved : string) (bytes : list Byte.byte),
    Retrieve.resolveSafePath cwd root file = Ok resolved /\ fs resolved = Some bytes.

(** *** Runs of the verification loop *)

Section Runs.
Variable World : Type.
Variable runCommand :
  string -> string -> World -> result Orchestrator.CommandResult * World.
Variable extractFilePaths : string -> list string.
Variable diskOf : World -> Retrieve.disk.
Variable readPrompt : string -> World -> result string.
Variable callCodex : string -> Orchestrator.FixRequest -> World -> result string * World.
Variable spawnGit : World -> Patch.spawnCall -> Patch.processRun.
Variable afterSpawn : World -> Patch.spawnCall -> World.
Variable cwd : string.

(** In every world the command runs to its end and exits with a code other
    than 0. *)
Definition alwaysFails (command root : string) : Prop :=
  forall w : World,
    exists (r : Orchestrator.CommandResult) (w' : World),
      runCommand command root w = (Ok r, w') /\ Orchestrator.exitCode r <> 0%Z.

(** Run one after the other from the world [w], the commands all exit
    with 0. *)
Fixpoint runsClean (commands : list string) (root : string) (w : World) : Prop :=
  match commands with
  | [] => True
  | command :: more =>
      exists (r : Orchestrator.CommandResult) (w' : World),
        runCommand command root w = (Ok r, w')
        /\ Orchestrator.exitCode r = 0%Z
        /\ runsClean more root w'
  end.

(** The fix step for the result [r] of the failed command [c], run in the
    world [w]: how it ends and the world it leaves. *)
Definition fixIn (root task : string) (plan : Schema.Plan) (diff c : string)
           (r : Orchestrator.CommandResult) (w : World) : result unit * World :=
  let out :=
    Orchestrator.fixFailure World extractFilePaths diskOf readPrompt callCodex spawnGit
      afterSpawn cwd root task plan diff c r
      {| Orchestrator.world := w; Orchestrator.trace := [] |} in
  (fst out, Orchestrator.world (snd out)).

(** The fix steps of [k] attempts that start in the world [w], when the
    first command [c] fails each time it is run: after each failing run of
    [c] the fix step completes (the context is read, the prompt is found,
    the backend answers and its patch is applied), and the next attempt
    starts in the world that the run of [c] after the fix leaves. *)
Fixpoint fixStepsComplete (k : nat) (root task : string) (plan : Schema.Plan)
         (diff c : string) (w : World) : Prop :=
  match k with
  | O => True
  | S k' =>
      forall (r : Orchestrator.CommandResult) (w1 : World),
        runCommand c root w = (Ok r, w1) ->
        exists w2 : World,
          fixIn root task plan diff c r w1 = (Ok tt, w2)
          /\ forall (r' : Orchestrator.CommandResult) (w3 : World),
               runCommand c root w2 = (Ok r', w3) ->
               fixStepsComplete k' root task plan diff c w3
  end.

(** Run one after the other from the world [w], the commands all exit
    with 0 and leave the world [w']. *)
Fixpoint cleanTo (commands : list string) (root : string) (w w' : World) : Prop :=
  match commands with
  | [] => w' = w
  | command :: more =>
      exists (r : Orchestrator.CommandResult) (w1 : World),
        runCommand command root w = (Ok r, w1)
        /\ Orchestrator.exitCode r = 0%Z
        /\ cleanTo more root w1 w'
  end.

End Runs.

(** The events [extra] are what a computation added to the trace. *)
Definition added {World : Type} (s s' : Orchestrator.state World)
           (extra : list Orchestrator.event) : Prop :=
  Orchestrator.trace s' = Orchestrator.trace s ++ extra.

(** *** Text received from a process *)

(** The texts of the chunks, each as [chunk.toString()] gives it, one after
    the other. *)
Definition chunkTexts (chunks : list string) : string := fold_right String.append "" chunks.

(** *** Payloads as JSON values *)

Definition stringsToJson (l : list string) : Schema.json :=
  Schema.JArray (map Schema.JString l).

(** The field [name] when it is present. *)
Definition optionalField {A : Type} (name : string) (toJson : A -> Schema.json)
           (value : option A) : list (string * Schema.json) :=
  match value with
  | Some v => [(name, toJson v)]
  | None => []
  end.

(** The object that holds the fields of a plan, the optional ones only when
    they are present. *)
Definition planToJson (p : Schema.Plan) : Schema.json :=
  Schema.JObject
    ([("goal", Schema.JString (Schema.goal p));
      ("steps", stringsToJson (Schema.steps p))]
     ++ optionalField "read" stringsToJson (Schema.read p)
     ++ optionalField "search" stringsToJson (Schema.search p)
     ++ optionalField "edit" stringsToJson (Schema.edit p)
     ++ optionalField "commands" stringsToJson (Schema.commands p)
     ++ [("acceptance", stringsToJson (Schema.acceptance p))]).

Definition codeReviewToJson (r : Schema.CodeReview) : Schema.json :=
  Schema.JObject
    ([("blocking", stringsToJson (Schema.blocking r));
      ("nonBlocking", stringsToJson (Schema.nonBlocking r))]
     ++ optionalField "notes" Schema.JString (Schema.codeNotes r)).

Definition textReviewToJson (r : Schema.TextReview) : Schema.json :=
  Schema.JObject
    ([("issues", stringsToJson (Schema.issues r))]
     ++ optionalField "improvements" stringsToJson (Schema.improvements r)
     ++ optionalField "notes" Schema.JString (Schema.textNotes r)).

(** What an optional field of string arrays looks like in a value. *)
Definition optionalArrayIn (value : Schema.json) (name : string)
           (field : option (list string)) : Prop :=
  Schema.getProperty value name = option_map stringsToJson field.

(** *** Command lines *)

(** An argument that is none of the four flags. *)
Definition isWord (arg : string) : Prop :=
  arg <> "--cwd" /\ arg <> "--skip-git-repo-check" /\ arg <> "--session"
  /\ arg <> "--verbose".

(** A unit that [trim] keeps. *)
Definition notWhite (c : ascii) : bool := negb (Js.isWhiteSpace c).

(** What may follow a file name in a match of [extractFilePaths]: nothing,
    or a colon and digits. *)
Definition lineNumber (suffix : string) : Prop :=
  suffix = ""
  \/ exists digits, suffix = ":" +:+ digits /\ digits <> ""
                    /\ all Retrieve.isDigit digits = true.

(** A run of path units, a dot, a run of word units, and possibly a line
    number. *)
Definition fileReference (f : string) : Prop :=
  exists stem ext suffix,
    f = stem +:+ "." +:+ ext +:+ suffix
    /\ stem <> "" /\ all Retrieve.isPathChar stem = true
    /\ ext <> "" /\ all Retrieve.isWordChar ext = true
    /\ lineNumber suffix.

End Stated.

(** ** Concrete inputs *)

Module Sample.

(** A diff that deletes [old.txt]. *)
Definition deletingDiff : string :=
  Js.join Retrieve.newline
    ["diff --git a/old.txt b/old.txt"; "deleted file mode 100644";
     "index e69de29..0000000"; "--- a/old.txt"; "+++ /dev/null"].

Definition gitSucceeds : Patch.spawnCall -> Patch.processRun :=
  fun _ => {| Patch.stderrChunks := []; Patch.ended := Patch.Closed (Some 0%Z) |}.

(** [git apply] rejects the patch: it writes its complaint in two chunks
    and exits with 1. *)
Definition gitRejects : Patch.spawnCall -> Patch.processRun :=
  fun _ => {| Patch.stderrChunks := ["error: patch"; " failed" +:+ Retrieve.newline];
              Patch.ended := Patch.Closed (Some 1%Z) |}.

Definition optionsFor (allowDelete : option bool) : Patch.PatchOptions :=
  {| Patch.root := "/repo"; Patch.allowDelete := allowDelete;
     Patch.allowedExtensions := None |}.

(** Classifier payloads: one well formed, one with a task type outside the
    closed set. *)
Definition payload (taskType : string) : Schema.json :=
  Schema.JObject
    [("taskType", Schema.JString taskType);
     ("confidence", Schema.JNumber {| Schema.mantissa := 9; Schema.exponent := -1 |});
     ("notes", Schema.JString "touches one file")].

(** A disk with no file, and a parser that rejects every text. *)
Definition emptyDisk : Retrieve.disk := fun _ => None.

Definition rejectAll : list N -> result Schema.json :=
  fun _ => Throw "Unexpected end of JSON input".

(** A disk whose session file for [a_b] holds the text [7], and a parser
    that reads that text. *)
Definition diskWithSession : Retrieve.disk :=
  fun p => if bool_decide (p = "/repo/.codex-roles/a_b.json") then Some [Byte.x37] else None.

Definition parseSeven : list N -> result Schema.json :=
  fun raw => if bool_decide (raw = [55%N])
             then Ok (Schema.JNumber {| Schema.mantissa := 7; Schema.exponent := 0 |})
             else Throw "Unexpected token".

(** A root directory that holds one regular file. *)
Definition rootWithReadme : Retrieve.node :=
  Retrieve.Dir [("README.md", Retrieve.File)].

(** A root with a source directory two levels deep, an ignored directory
    and a file. *)
Definition smallTree : Retrieve.node :=
  Retrieve.Dir
    [("src", Retrieve.Dir [("a.ts", Retrieve.File);
                           ("deep", Retrieve.Dir [("b.ts", Retrieve.File)])]);
     ("Node_Modules", Retrieve.Dir [("x.js", Retrieve.File)]);
     ("README.md", Retrieve.File)].

(** A file of 60001 bytes: 59998 letters [a], then the three bytes of the
    euro sign. *)
Definition euroBytes : list Byte.byte :=
  List.repeat Byte.x61 (N.to_nat 59998) ++ [Byte.xe2; Byte.x82; Byte.xac].

(** A file of 60001 letters [a]. *)
Definition asciiBytes : list Byte.byte := List.repeat Byte.x61 (N.to_nat 60001).

(** A disk with one file. *)
Definition diskWith (filePath : string) (bytes : list Byte.byte) : Retrieve.disk :=
  fun p => if bool_decide (p = filePath) then Some bytes else None.

(** A world without state: every command prints [FAIL x.ts] on its
    standard error and exits with [exitCode]; the repository holds the file
    [x.ts]; the prompt is there; the backend answers [answer]; [git apply]
    succeeds. *)
Definition runExits (exitCode : Z)
  : string -> string -> unit -> result Orchestrator.CommandResult * unit :=
  fun _ _ w => (Ok {| Orchestrator.stdout := ""; Orchestrator.stderr := "FAIL x.ts";
                      Orchestrator.exitCode := exitCode |}, w).

Definition sourceFiles : unit -> Retrieve.disk :=
  fun _ => diskWith "/repo/x.ts" [Byte.x78].

Definition promptFound : string -> unit -> result string := fun _ _ => Ok "Fix the failure.".

Definition backendAnswers (answer : string)
  : string -> Orchestrator.FixRequest -> unit -> result string * unit :=
  fun _ _ w => (Ok answer, w).

Definition gitInWorld : unit -> Patch.spawnCall -> Patch.processRun := fun _ => gitSucceeds.

Definition sameWorld : unit -> Patch.spawnCall -> unit := fun w _ => w.

(** A plan whose only command is [npm test]. *)
Definition testPlan : Schema.Plan :=
  {| Schema.goal := "make the tests pass"; Schema.steps := ["edit"];
     Schema.read := None; Schema.search := None; Schema.edit := None;
     Schema.commands := Some ["npm test"]; Schema.acceptance := ["tests pass"] |}.

(** [verifyCommands] in that world, from the empty trace. *)
Definition verifyIn (exitCode : Z) (answer : string)
  : result unit * Orchestrator.state unit :=
  Orchestrator.verifyCommands unit (runExits exitCode) Retrieve.extractFilePaths sourceFiles
    promptFound
    (backendAnswers answer) gitInWorld sameWorld "/" "/repo" "fix the tests" testPlan
    "diff --git a/x.ts b/x.ts"
    {| Orchestrator.world := tt; Orchestrator.trace := [] |}.

End Sample.
Example resolve_ex1 : NodePath.resolve "/home/u" ["/repo"; "src/../a.ts"] = "/repo/a.ts".
Proof. vm_compute. reflexivity. Qed.

Example resolve_ex2 : NodePath.resolve "/home/u" ["repo"; "./x//y/"] = "/home/u/repo/x/y".
Proof. vm_compute. reflexivity. Qed.

Example resolve_ex3 : NodePath.resolve "/home/u" ["/repo"; "/etc/passwd"] = "/etc/passwd".
Proof. vm_compute. reflexivity. Qed.

Example resolve_ex4 : NodePath.resolve "/home/u" ["/repo"; "../../.."] = "/".
Proof. vm_compute. reflexivity. Qed.

Example join_ex1 : NodePath.join ["/r/"; ".codex-roles"; "a.json"] = "/r/.codex-roles/a.json".
Proof. vm_compute. reflexivity. Qed.

Example join_ex2 : NodePath.join [""; ".codex-roles"; "a.json"] = ".codex-roles/a.json".
Proof. vm_compute. reflexivity. Qed.

Example join_ex3 : NodePath.join ["../x"; ".."; ".."; "y"] = "../../y".
Proof. vm_compute. reflexivity. Qed.

Example ext_ex : map NodePath.extname ["a.b.c"; ".env"; ".."; "..."; "x."; "/p/q.PEM/"; "k"]
                 = [".c"; ""; ""; "."; "."; ".PEM"; ""].
Proof. vm_compute. reflexivity. Qed.

Example base_ex : map NodePath.basename ["/a/b.txt"; "a//b//"; "/"; ""; "x"] = ["b.txt"; "b"; ""; ""; "x"].
Proof. vm_compute. reflexivity. Qed.

Example split_ex : Js.split " " "diff --git a/x  b/x" = ["diff"; "--git"; "a/x"; ""; "b/x"].
Proof. vm_compute. reflexivity. Qed.

Example lower_ex : Js.toLowerCase "DerivedData/.ENV" = "deriveddata/.env".
Proof. vm_compute. reflexivity. Qed.

Example repoMap_ex :
  Retrieve.buildRepoMap
    (Retrieve.Dir [("src", Retrieve.Dir [("a.ts", Retrieve.File);
                                         ("deep", Retrieve.Dir [("b.ts", Retrieve.File)])]);
                   ("Node_Modules", Retrieve.Dir [("x.js", Retrieve.File)]);
                   ("README.md", Retrieve.File)]) 1
  = Ok (Js.join Retrieve.newline ["./"; "  src/"; "    a.ts"; "  README.md"]).
Proof. vm_compute. reflexivity. Qed.

Example utf8_ex :
  Retrieve.decodeUtf8 [Byte.x61; Byte.xc3; Byte.xa9; Byte.xe2; Byte.x82; Byte.xac;
                       Byte.xf0; Byte.x9f; Byte.x98; Byte.x80; Byte.xff; Byte.xc3; Byte.x61;
                       Byte.xe2; Byte.x82]
  = [0x61; 0xE9; 0x20AC; 0xD83D; 0xDE00; 0xFFFD; 0xFFFD; 0x61; 0xFFFD]%N.
Proof. vm_compute. reflexivity. Qed.

Example extract_ex1 :
  Patch.extractFilesFromDiff
    (Js.join Retrieve.newline
       ["diff --git a/README.md b/README.md"; "index 1..2 100644"; "--- a/README.md";
        "+++ b/README.md"; "diff --git a/lib/my file.ts b/lib/my file.ts";
        " diff --git a/x b/x"; "diff --git a/ b/y"; "diff --git a/z b/"])
  = ["a/README.md"; "a/limy"].
Proof. vm_compute. reflexivity. Qed.

Example trim_ex : Js.trim "  error: patch failed  " = "error: patch failed".
Proof. vm_compute. reflexivity. Qed.

Example showInt_ex : Js.showInt 128 = "128".
Proof. vm_compute. reflexivity. Qed.

Example sessionPath_ex :
  map (Session.getSessionPath "/repo") ["default"; "a/b"; "a_b"; "../../etc/x"; ""]
  = ["/repo/.codex-roles/default.json"; "/repo/.codex-roles/a_b.json";
     "/repo/.codex-roles/a_b.json"; "/repo/.codex-roles/______etc_x.json";
     "/repo/.codex-roles/.json"].
Proof. vm_compute. reflexivity. Qed.

(** * Properties *)

(** ** Strings *)

#[local] Arguments String.append !_ _ / : simpl nomatch.
#[local] Arguments ascii_dec : simpl never.

Section Strings.

Lemma append_assoc (a b c : string) : (a +:+ b) +:+ c = a +:+ (b +:+ c).
Proof. induction a as [|x a IH]; cbn; [reflexivity | now rewrite IH]. Qed.

Lemma startsWith_append (p s : string) : Js.startsWith (p +:+ s) p = true.
Proof.
  induction p as [|c p IH]; cbn; [reflexivity|].
  destruct (ascii_dec c c); [exact IH | congruence].
Qed.


Lemma drop_append (p s : string) : Js.drop (String.length p) (p +:+ s) = s.
Proof. induction p as [|c p IH]; cbn; [reflexivity | exact IH]. Qed.

End Strings.

Section Tokens.

Lemma all_append (p : ascii -> bool) (a b : string) :
  Stated.all p (a +:+ b) = Stated.all p a && Stated.all p b.
Proof.
  induction a as [|c a IH]; cbn; [reflexivity|].
  rewrite IH. apply andb_assoc.
Qed.
















End Tokens.

(** ** Paths *)

Section Paths.

Lemma append_length (a b : string) :
  String.length (a +:+ b) = String.length a + String.length b.
Proof. induction a as [|c a IH]; cbn; [reflexivity | now rewrite IH]. Qed.



Lemma append_empty (a b : string) : a +:+ b = "" -> a = "" /\ b = "".
Proof. destruct a; cbn; [auto | discriminate]. Qed.

Lemma split_not_nil (c : ascii) (s : string) : Js.split c s <> [].
Proof.
  destruct s as [|x s]; cbn; [discriminate|].
  destruct (ascii_dec x c); [discriminate|].
  destruct (Js.split c s); discriminate.
Qed.

Lemma split_append_sep (c : ascii) (a b : string) :
  Js.split c (a +:+ String c b) = Js.split c a ++ Js.split c b.
Proof.
  induction a as [|x a IH]; cbn.
  - destruct (ascii_dec c c); [reflexivity | congruence].
  - destruct (ascii_dec x c); [now rewrite IH|].
    rewrite IH. destruct (Js.split c a) eqn:E; [now apply split_not_nil in E|].
    reflexivity.
Qed.

Lemma split_no_sep (s : string) :
  Stated.all Stated.notSlash s = true -> Js.split NodePath.sep s = [s].
Proof.
  induction s as [|x s IH]; [reflexivity|]. cbn. intros H.
  apply andb_prop in H as [Hx H]. unfold Stated.notSlash in Hx.
  apply negb_true_iff, bool_decide_eq_false in Hx.
  destruct (ascii_dec x NodePath.sep); [contradiction|]. now rewrite (IH H).
Qed.

Lemma normStep_plain (allow : bool) (kept : list string) (x : string) :
  Stated.plainName x -> NodePath.normStep allow kept x = x :: kept.
Proof.
  intros (_ & H0 & H1 & H2). unfold NodePath.normStep.
  now rewrite !bool_decide_eq_false_2 by assumption.
Qed.







End Paths.

(** ** Safety boundary *)

(** C1 (fails on the code): [resolveSafePath] tests containment with
    [startsWith] on the text of the paths, so a sibling of the root whose
    name extends the name of the root is accepted.  With the root [/repo],
    the input [../repo-evil/notes.txt] is returned as [/repo-evil/notes.txt],
    whose ancestor chain does not include [/repo]. *)
Theorem resolveSafePath_accepts_sibling_of_root :
  forall cwd : string,
    Retrieve.resolveSafePath cwd "/repo" "../repo-evil/notes.txt"
      = Ok "/repo-evil/notes.txt"
    /\ Stated.ancestors "/repo-evil/notes.txt" = ["/"; "/repo-evil"; "/repo-evil/notes.txt"]
    /\ Stated.inAncestorChain "/repo" "/repo-evil/notes.txt" = false.
Proof. intros cwd. vm_compute. repeat split. Qed.

(** ** Patch application guard *)

Section PatchGuard.
Variable git : Patch.spawnCall -> Patch.processRun.

Lemma checkFiles_accepts (allowed : option (list string)) (files : list string) :
  forallb (Stated.fileAccepted allowed) files = true ->
  Patch.checkFiles allowed files = Ok tt.
Proof.
  induction files as [|f more IH]; simpl; [reflexivity|].
  unfold Stated.fileAccepted at 1.
  intros H. apply andb_prop in H as [H Hmore].
  apply andb_prop in H as [H Hext]. apply andb_prop in H as [Hs Hi].
  apply negb_true_iff in Hs, Hi. rewrite Hs, Hi.
  destruct allowed as [exts|]; simpl in Hext.
  - rewrite Hext. simpl. auto.
  - auto.
Qed.

Lemma checkFiles_rejects (allowed : option (list string)) (files : list string) :
  forallb (Stated.fileAccepted allowed) files = false ->
  exists m, Patch.checkFiles allowed files = Throw m.
Proof.
  induction files as [|f more IH]; simpl; [discriminate|].
  unfold Stated.fileAccepted at 1.
  destruct (Retrieve.isSensitivePath f); simpl; [eauto|].
  destruct (Retrieve.containsIgnoredSegment f); simpl; [eauto|].
  destruct allowed as [exts|]; simpl.
  - destruct (existsb _ exts); simpl; eauto.
  - auto.
Qed.

Lemma filesPresent_length (diff : string) :
  (length (Patch.extractFilesFromDiff diff) =? 0)%nat = negb (Stated.filesPresent diff).
Proof.
  unfold Stated.filesPresent. rewrite negb_involutive.
  destruct (Patch.extractFilesFromDiff diff) as [|f more].
  - symmetry. apply bool_decide_eq_true_2. reflexivity.
  - symmetry. apply bool_decide_eq_false_2. discriminate.
Qed.

Lemma applyPatch_checks_pass (diff : string) (options : Patch.PatchOptions) :
  Stated.checksPass diff options = true ->
  Patch.applyPatch git diff options = Patch.applyViaStdin git diff (Patch.root options).
Proof.
  unfold Stated.checksPass, Patch.applyPatch. intros H.
  apply andb_prop in H as [H Hdel]. apply andb_prop in H as [Hfiles Hall].
  rewrite filesPresent_length, Hfiles. simpl.
  rewrite (checkFiles_accepts _ _ Hall).
  unfold Stated.deletionPermitted, Stated.allowDeleteOf, Stated.hasDeletionMarker in Hdel.
  destruct (default false (Patch.allowDelete options)); simpl in *; [reflexivity|].
  apply negb_true_iff in Hdel. rewrite Hdel. reflexivity.
Qed.

Lemma applyPatch_checks_fail (diff : string) (options : Patch.PatchOptions) :
  Stated.checksPass diff options = false ->
  snd (Patch.applyPatch git diff options) = []
  /\ exists m, fst (Patch.applyPatch git diff options) = Throw m.
Proof.
  unfold Stated.checksPass, Patch.applyPatch. intros H.
  rewrite filesPresent_length.
  destruct (Stated.filesPresent diff); simpl in *; [|eauto].
  destruct (forallb _ _) eqn:Hall; simpl in H.
  - rewrite (checkFiles_accepts _ _ Hall).
    unfold Stated.deletionPermitted, Stated.allowDeleteOf, Stated.hasDeletionMarker in H.
    destruct (default false (Patch.allowDelete options)); simpl in *; [discriminate|].
    apply negb_false_iff in H. rewrite H. simpl. eauto.
  - destruct (checkFiles_rejects _ _ Hall) as [m Hm]. rewrite Hm. simpl. eauto.
Qed.

End PatchGuard.

(** C2: whatever the diff, the options and the behaviour of the external
    process, [applyPatch] starts a process exactly when every structural
    check passes (files present, each file neither sensitive nor ignored and
    within the extension allowlist, deletion permitted); the process is then
    the single [git apply] fed the diff, and the outcome is the one of that
    process.  When a check fails nothing is spawned and the call throws. *)
Theorem applyPatch_spawns_only_after_checks :
  forall (git : Patch.spawnCall -> Patch.processRun) (diff : string)
         (options : Patch.PatchOptions),
    if Stated.checksPass diff options then
      snd (Patch.applyPatch git diff options) = [Stated.gitApply diff options]
      /\ fst (Patch.applyPatch git diff options)
         = fst (Patch.applyViaStdin git diff (Patch.root options))
    else
      snd (Patch.applyPatch git diff options) = []
      /\ exists m, fst (Patch.applyPatch git diff options) = Throw m.
Proof.
  intros git diff options.
  destruct (Stated.checksPass diff options) eqn:Hc.
  - rewrite (applyPatch_checks_pass git _ _ Hc). split; reflexivity.
  - apply applyPatch_checks_fail; assumption.
Qed.

(** C3: a diff that carries the marker [deleted file mode] is rejected,
    with nothing spawned, whenever [allowDelete] is false or absent; when
    [allowDelete] is true and the diff is otherwise valid (it names files and
    each passes the per-file tests) it is handed to the external process. *)
Theorem applyPatch_deletion_policy :
  forall (git : Patch.spawnCall -> Patch.processRun) (diff : string)
         (options : Patch.PatchOptions),
    Stated.hasDeletionMarker diff = true ->
    (Stated.allowDeleteOf options = false ->
       snd (Patch.applyPatch git diff options) = []
       /\ exists m, fst (Patch.applyPatch git diff options) = Throw m)
    /\ (Stated.allowDeleteOf options = true ->
        Stated.filesPresent diff = true ->
        forallb (Stated.fileAccepted (Patch.allowedExtensions options))
                (Patch.extractFilesFromDiff diff) = true ->
        snd (Patch.applyPatch git diff options) = [Stated.gitApply diff options]
        /\ fst (Patch.applyPatch git diff options)
           = fst (Patch.applyViaStdin git diff (Patch.root options))).
Proof.
  intros git diff options Hmark. split.
  - intros Hno. apply applyPatch_checks_fail.
    unfold Stated.checksPass, Stated.deletionPermitted.
    rewrite Hno, Hmark. simpl. rewrite andb_false_r. reflexivity.
  - intros Hyes Hfiles Hall.
    rewrite applyPatch_checks_pass; [split; reflexivity|].
    unfold Stated.checksPass, Stated.deletionPermitted.
    rewrite Hfiles, Hall, Hyes. reflexivity.
Qed.

Lemma applyPatch_deletion_policy_witness :
  (snd (Patch.applyPatch Sample.gitSucceeds Sample.deletingDiff (Sample.optionsFor None)) = []
   /\ exists m, fst (Patch.applyPatch Sample.gitSucceeds Sample.deletingDiff (Sample.optionsFor None)) = Throw m)
  /\ (snd (Patch.applyPatch Sample.gitSucceeds Sample.deletingDiff (Sample.optionsFor (Some true)))
      = [Stated.gitApply Sample.deletingDiff (Sample.optionsFor (Some true))]
      /\ fst (Patch.applyPatch Sample.gitSucceeds Sample.deletingDiff (Sample.optionsFor (Some true)))
         = fst (Patch.applyViaStdin Sample.gitSucceeds Sample.deletingDiff "/repo")).
Proof.
  split.
  - apply (applyPatch_deletion_policy Sample.gitSucceeds Sample.deletingDiff (Sample.optionsFor None));
      vm_compute; reflexivity.
  - apply (applyPatch_deletion_policy Sample.gitSucceeds Sample.deletingDiff (Sample.optionsFor (Some true)));
      vm_compute; reflexivity.
Defined.









(** ** Repository map *)

Section RepoMap.

Lemma walk_dir (depth : Z) (rel : list string) (d : nat)
      (entries : list (string * Retrieve.node)) :
  Retrieve.walk depth rel d (Retrieve.Dir entries)
  = if (Z.of_nat d >? depth)%Z then []
    else Retrieve.DirLine d rel :: flat_map (Stated.entryLines depth rel d) entries.
Proof.
  cbn [Retrieve.walk]. destruct (Z.of_nat d >? depth)%Z; [reflexivity|]. f_equal.
  induction entries as [|[name child] entries IH]; [reflexivity|].
  cbn [flat_map Stated.entryLines]. rewrite <- IH.
  destruct child; reflexivity.
Qed.

(** The directory lines of a walk: one for each directory within the
    depth that a chain of kept names leads to. *)
Lemma walk_lists_directory (tail : list string) :
  forall (n : Retrieve.node) (depth : Z) (rel0 : list string) (d : nat)
         (es : list (string * Retrieve.node)),
    (Z.of_nat (d + length tail) <= depth)%Z -> Stated.kept tail ->
    Stated.entriesAt n tail es ->
    In (Retrieve.DirLine (d + length tail) (rel0 ++ tail)) (Retrieve.walk depth rel0 d n).
Proof.
  induction tail as [|name tail IH]; intros n depth rel0 d es Hd Hkept Hat.
  - cbn [Stated.entriesAt] in Hat. subst n. rewrite walk_dir.
    cbn [length] in Hd |- *. rewrite Nat.add_0_r in Hd |- *. rewrite app_nil_r.
    destruct (Z.gtb_spec (Z.of_nat d) depth) as [Hgt|_]; [lia | now left].
  - destruct Hat as (es0 & child & -> & Hin & Hat). rewrite walk_dir.
    cbn [length] in Hd |- *.
    destruct (Z.gtb_spec (Z.of_nat d) depth) as [Hgt|_]; [lia|].
    right. apply in_flat_map. exists (name, child). split; [assumption|].
    assert (Hname : Retrieve.shouldIgnore name = false) by exact (Forall_inv Hkept).
    assert (Hchild : exists sub, child = Retrieve.Dir sub).
    { destruct tail; cbn [Stated.entriesAt] in Hat; [eauto|].
      destruct Hat as (sub & _ & -> & _). eauto. }
    destruct Hchild as [sub ->]. cbn [Stated.entryLines]. rewrite Hname.
    replace (d + S (length tail)) with (S d + length tail) by lia.
    replace (rel0 ++ name :: tail) with ((rel0 ++ [name]) ++ tail)
      by now rewrite <- app_assoc.
    apply (IH _ _ _ _ es); [lia | exact (Forall_inv_tail Hkept) | assumption].
Qed.

Lemma walk_directory_listed (n : Retrieve.node) :
  forall (depth : Z) (rel0 : list string) (d level : nat) (rel : list string),
    In (Retrieve.DirLine level rel) (Retrieve.walk depth rel0 d n) ->
    exists tail es,
      rel = rel0 ++ tail /\ level = d + length tail
      /\ (Z.of_nat (d + length tail) <= depth)%Z /\ Stated.kept tail
      /\ Stated.entriesAt n tail es.
Proof.
  induction n as [| |entries IH] using Stated.node_nested_ind;
    intros depth rel0 d level rel Hin.
  - cbn in Hin. destruct (Z.of_nat d >? depth)%Z; contradiction.
  - cbn in Hin. destruct (Z.of_nat d >? depth)%Z; contradiction.
  - rewrite walk_dir in Hin.
    destruct (Z.gtb_spec (Z.of_nat d) depth) as [Hgt|Hle]; [contradiction|].
    destruct Hin as [Hhead|Hin].
    + injection Hhead as <- <-. exists [], entries. cbn [length].
      rewrite app_nil_r, Nat.add_0_r. repeat split; [lia | constructor].
    + apply in_flat_map in Hin as ([name child] & Hentry & Hline).
      rewrite List.Forall_forall in IH. specialize (IH _ Hentry). cbn [snd] in IH.
      destruct child as [|sub|]; cbn [Stated.entryLines] in Hline.
      * destruct Hline as [Hline|[]]. discriminate Hline.
      * destruct (Retrieve.shouldIgnore name) eqn:Hname; [contradiction|].
        destruct (IH _ _ _ _ _ Hline) as (tail & es & -> & -> & Hd & Hkept & Hat).
        exists (name :: tail), es. cbn [length].
        repeat split.
        -- now rewrite <- app_assoc.
        -- lia.
        -- lia.
        -- now constructor.
        -- cbn [Stated.entriesAt]. eauto.
      * contradiction.
Qed.

(** The file lines of a walk: one for each regular file of a listed
    directory. *)
Lemma walk_lists_file (tail : list string) :
  forall (n : Retrieve.node) (depth : Z) (rel0 : list string) (d : nat)
         (es : list (string * Retrieve.node)) (name : string),
    (Z.of_nat (d + length tail) <= depth)%Z -> Stated.kept tail ->
    Stated.entriesAt n tail es -> In (name, Retrieve.File) es ->
    In (Retrieve.FileLine (S (d + length tail)) name) (Retrieve.walk depth rel0 d n).
Proof.
  induction tail as [|dir tail IH]; intros n depth rel0 d es name Hd Hkept Hat Hfile.
  - cbn [Stated.entriesAt] in Hat. subst n. rewrite walk_dir.
    cbn [length] in Hd |- *. rewrite Nat.add_0_r in Hd |- *.
    destruct (Z.gtb_spec (Z.of_nat d) depth) as [Hgt|_]; [lia|].
    right. apply in_flat_map. exists (name, Retrieve.File). split; [assumption | now left].
  - destruct Hat as (es0 & child & -> & Hin & Hat). rewrite walk_dir.
    cbn [length] in Hd |- *.
    destruct (Z.gtb_spec (Z.of_nat d) depth) as [Hgt|_]; [lia|].
    right. apply in_flat_map. exists (dir, child). split; [assumption|].
    assert (Hdir : Retrieve.shouldIgnore dir = false) by exact (Forall_inv Hkept).
    assert (Hchild : exists sub, child = Retrieve.Dir sub).
    { destruct tail; cbn [Stated.entriesAt] in Hat; [eauto|].
      destruct Hat as (sub & _ & -> & _). eauto. }
    destruct Hchild as [sub ->]. cbn [Stated.entryLines]. rewrite Hdir.
    replace (S (d + S (length tail))) with (S (S d + length tail)) by lia.
    apply (IH _ _ _ _ es); [lia | exact (Forall_inv_tail Hkept) | assumption | assumption].
Qed.

Lemma walk_file_listed (n : Retrieve.node) :
  forall (depth : Z) (rel0 : list string) (d level : nat) (name : string),
    In (Retrieve.FileLine level name) (Retrieve.walk depth rel0 d n) ->
    exists tail es,
      level = S (d + length tail)
      /\ (Z.of_nat (d + length tail) <= depth)%Z /\ Stated.kept tail
      /\ Stated.entriesAt n tail es /\ In (name, Retrieve.File) es.
Proof.
  induction n as [| |entries IH] using Stated.node_nested_ind;
    intros depth rel0 d level name Hin.
  - cbn in Hin. destruct (Z.of_nat d >? depth)%Z; contradiction.
  - cbn in Hin. destruct (Z.of_nat d >? depth)%Z; contradiction.
  - rewrite walk_dir in Hin.
    destruct (Z.gtb_spec (Z.of_nat d) depth) as [Hgt|Hle]; [contradiction|].
    destruct Hin as [Hhead|Hin]; [discriminate Hhead|].
    apply in_flat_map in Hin as ([entry child] & Hentry & Hline).
    rewrite List.Forall_forall in IH. specialize (IH _ Hentry). cbn [snd] in IH.
    destruct child as [|sub|]; cbn [Stated.entryLines] in Hline.
    + destruct Hline as [Hline|[]]. injection Hline as <- <-.
      exists [], entries. cbn [length]. rewrite Nat.add_0_r.
      repeat split; [lia | constructor | assumption].
    + destruct (Retrieve.shouldIgnore entry) eqn:Hname; [contradiction|].
      destruct (IH _ _ _ _ _ Hline) as (tail & es & -> & Hd & Hkept & Hat & Hfile).
      exists (entry :: tail), es. cbn [length].
      repeat split.
      * f_equal. lia.
      * lia.
      * now constructor.
      * cbn [Stated.entriesAt]. eauto.
      * assumption.
    + contradiction.
Qed.

Lemma shouldIgnore_matches (name : string) :
  Retrieve.shouldIgnore name = true
  <-> exists ignore, In ignore Retrieve.DEFAULT_IGNORES
                     /\ Js.toLowerCase ignore = Js.toLowerCase name.
Proof.
  unfold Retrieve.shouldIgnore. rewrite existsb_exists.
  split; intros (ignore & Hin & H); exists ignore; (split; [assumption|]).
  - now apply bool_decide_eq_true in H.
  - now apply bool_decide_eq_true.
Qed.

Lemma entryLines_depth0 (entries : list (string * Retrieve.node)) :
  flat_map (Stated.entryLines 0 [] 0) entries
  = map (Retrieve.FileLine 1) (Stated.fileNames entries).
Proof.
  induction entries as [|[name child] entries IH]; [reflexivity|].
  cbn [flat_map Stated.fileNames]. fold (Stated.fileNames entries). rewrite IH.
  destruct child as [|sub|]; cbn [Stated.entryLines]; try reflexivity.
  destruct (Retrieve.shouldIgnore name); [reflexivity|].
  rewrite walk_dir. reflexivity.
Qed.

End RepoMap.

(** C5 (as amended): for every root directory, [buildRepoMap(root, 0)]
    returns the root line followed by one line for each regular file
    directly in the root, and nothing of any subdirectory.  For every
    depth, the text returned is made of the lines of the walk from the
    root, and these are: one line for each directory that a chain of at
    most [depth] entry names leads to, none of the names matching the
    ignore set, and no other directory line; one line for each regular
    file of such a directory, and no other file line.  A name matches the
    ignore set when it is one of its names, letter case apart. *)
Theorem buildRepoMap_depth_bounded :
  (forall entries : list (string * Retrieve.node),
     Retrieve.buildRepoMap (Retrieve.Dir entries) 0 = Ok (Stated.rootListing entries))
  /\ (forall (entries : list (string * Retrieve.node)) (depth : Z),
        Retrieve.buildRepoMap (Retrieve.Dir entries) depth
        = Ok (Js.join Retrieve.newline
                (map Retrieve.render (Retrieve.walk depth [] 0 (Retrieve.Dir entries))))
        /\ (forall (level : nat) (rel : list string),
              In (Retrieve.DirLine level rel) (Retrieve.walk depth [] 0 (Retrieve.Dir entries))
              <-> level = length rel /\ (Z.of_nat (length rel) <= depth)%Z
                  /\ Stated.kept rel
                  /\ exists es, Stated.entriesAt (Retrieve.Dir entries) rel es)
        /\ (forall (level : nat) (name : string),
              In (Retrieve.FileLine level name)
                 (Retrieve.walk depth [] 0 (Retrieve.Dir entries))
              <-> exists rel es,
                    level = S (length rel) /\ (Z.of_nat (length rel) <= depth)%Z
                    /\ Stated.kept rel
                    /\ Stated.entriesAt (Retrieve.Dir entries) rel es
                    /\ In (name, Retrieve.File) es))
  /\ (forall name : string,
        Retrieve.shouldIgnore name = true
        <-> exists ignore, In ignore Retrieve.DEFAULT_IGNORES
                           /\ Js.toLowerCase ignore = Js.toLowerCase name).
Proof.
  split; [|split].
  - intros entries. unfold Retrieve.buildRepoMap, Stated.rootListing.
    rewrite walk_dir. change (Z.of_nat 0 >? 0)%Z with false. cbv iota.
    rewrite entryLines_depth0. cbn [map]. rewrite map_map. reflexivity.
  - intros entries depth. split; [reflexivity|]. split.
    + intros level rel. split.
      * intros H. apply walk_directory_listed in H
          as (tail & es & -> & -> & Hd & Hkept & Hat).
        cbn [app Nat.add] in *. eauto.
      * intros (-> & Hd & Hkept & es & Hat).
        apply (walk_lists_directory rel _ depth [] 0 es); assumption.
    + intros level name. split.
      * intros H. apply walk_file_listed in H as (tail & es & -> & Hd & Hkept & Hat & Hfile).
        exists tail, es. cbn [Nat.add] in *. auto.
      * intros (rel & es & -> & Hd & Hkept & Hat & Hfile).
        apply (walk_lists_file rel _ depth [] 0 es); assumption.
  - apply shouldIgnore_matches.
Qed.

(** C5 (as stated, fails): a root that holds the regular file [README.md]
    is listed at depth 0 with a line for that file after the root line. *)
Lemma buildRepoMap_depth0_lists_root_files :
  Retrieve.buildRepoMap Sample.rootWithReadme 0
  = Ok (Js.join Retrieve.newline ["./"; "  README.md"])
  /\ Retrieve.walk 0 [] 0 Sample.rootWithReadme
     = [Retrieve.DirLine 0 []; Retrieve.FileLine 1 "README.md"].
Proof. vm_compute. split; reflexivity. Qed.

Lemma buildRepoMap_depth_bounded_witness :
  Retrieve.buildRepoMap Sample.rootWithReadme 0 = Ok (Stated.rootListing [("README.md", Retrieve.File)])
  /\ In (Retrieve.DirLine 1 ["src"]) (Retrieve.walk 1 [] 0 Sample.smallTree)
  /\ ~ In (Retrieve.DirLine 2 ["src"; "deep"]) (Retrieve.walk 1 [] 0 Sample.smallTree)
  /\ ~ In (Retrieve.DirLine 1 ["Node_Modules"]) (Retrieve.walk 1 [] 0 Sample.smallTree).
Proof.
  destruct buildRepoMap_depth_bounded as (H0 & H & _). split; [apply H0|].
  destruct (H [("src", Retrieve.Dir [("a.ts", Retrieve.File);
                                     ("deep", Retrieve.Dir [("b.ts", Retrieve.File)])]);
               ("Node_Modules", Retrieve.Dir [("x.js", Retrieve.File)]);
               ("README.md", Retrieve.File)] 1%Z) as (_ & Hdir & _).
  split; [|split].
  - apply Hdir. split; [reflexivity|]. split; [cbn; lia|].
    split; [repeat constructor|]. eexists. cbn. eexists. eexists.
    split; [reflexivity|]. split; [left; reflexivity | reflexivity].
  - intros Hin. apply Hdir in Hin as (_ & Hd & _). cbn in Hd. lia.
  - intros Hin. apply Hdir in Hin as (_ & _ & Hkept & _).
    apply Forall_inv in Hkept. vm_compute in Hkept. discriminate Hkept.
Defined.

(** ** Reading files *)

Section ReadFiles.

Lemma decodeUtf8_ascii (bytes : list Byte.byte) :
  Stated.asciiOnly bytes = true -> Retrieve.decodeUtf8 bytes = map Byte.to_N bytes.
Proof.
  unfold Retrieve.decodeUtf8, Stated.asciiOnly.
  induction bytes as [|b bytes IH]; [reflexivity|]. cbn [forallb]. intros H.
  apply andb_prop in H as [Hb H].
  cbn [Retrieve.utf8Decode]. unfold Retrieve.leadByte. rewrite Hb.
  cbn [flat_map]. rewrite (IH H). unfold Retrieve.codeUnits.
  apply N.leb_le in Hb.
  destruct (N.ltb_spec (Byte.to_N b) 0x10000) as [_|Hge]; [reflexivity | lia].
Qed.

Lemma setProperty_lookup (results : gmap string (list N)) (key other : string)
      (value : list N) :
  other <> "__proto__" ->
  Retrieve.setProperty results key value !! other
  = if bool_decide (key = other) then Some value else results !! other.
Proof.
  intros Hother. unfold Retrieve.setProperty.
  destruct (bool_decide_reflect (key = "__proto__")) as [->|Hk].
  - now rewrite bool_decide_eq_false_2 by congruence.
  - destruct (bool_decide_reflect (key = other)) as [->|Hne].
    + apply lookup_insert_eq.
    + now apply lookup_insert_ne.
Qed.

Lemma setProperty_keys (results : gmap string (list N)) (key other : string)
      (value : list N) :
  is_Some (Retrieve.setProperty results key value !! other) ->
  other = key \/ is_Some (results !! other).
Proof.
  unfold Retrieve.setProperty. destruct (bool_decide (key = "__proto__")); [auto|].
  destruct (decide (key = other)) as [->|Hne]; [auto|].
  rewrite lookup_insert_ne by assumption. auto.
Qed.

Lemma readFilesLoop_lookup (fs : Retrieve.disk) (cwd root : string) (files : list string) :
  forall (acc results : gmap string (list N)) (file : string),
    Retrieve.readFilesLoop fs cwd root files acc = Ok results ->
    file <> "__proto__" ->
    (In file files ->
     exists resolved content,
       Retrieve.resolveSafePath cwd root file = Ok resolved
       /\ Retrieve.readFileCapped fs resolved 60000 = Ok content
       /\ results !! file = Some content)
    /\ (~ In file files -> results !! file = acc !! file).
Proof.
  induction files as [|f more IH]; intros acc results file H Hfile.
  - cbn in H. injection H as <-. split; [intros [] | reflexivity].
  - cbn [Retrieve.readFilesLoop] in H.
    destruct (Retrieve.resolveSafePath cwd root f) as [resolved|] eqn:Hres;
      [|discriminate].
    cbn [bind] in H.
    destruct (Retrieve.readFileCapped fs resolved 60000) as [content|] eqn:Hread;
      [|discriminate].
    cbn [bind] in H.
    destruct (IH _ _ file H Hfile) as [Hin Hout].
    split.
    + intros Hmem. destruct (in_dec string_dec file more) as [Hmore|Hmore]; [auto|].
      destruct Hmem as [->|Hmem]; [|contradiction].
      exists resolved, content. repeat split; try assumption.
      rewrite (Hout Hmore), setProperty_lookup by assumption.
      now rewrite bool_decide_eq_true_2.
    + intros Hnot. rewrite Hout by (intros Hm; apply Hnot; now right).
      rewrite setProperty_lookup by assumption.
      rewrite bool_decide_eq_false_2; [reflexivity|].
      intros ->. apply Hnot. now left.
Qed.

Lemma readFilesLoop_keys (fs : Retrieve.disk) (cwd root : string) (files : list string) :
  forall (acc results : gmap string (list N)) (key : string),
    Retrieve.readFilesLoop fs cwd root files acc = Ok results ->
    is_Some (results !! key) -> In key files \/ is_Some (acc !! key).
Proof.
  induction files as [|f more IH]; intros acc results key H Hkey.
  - cbn in H. injection H as <-. now right.
  - cbn [Retrieve.readFilesLoop] in H.
    destruct (Retrieve.resolveSafePath cwd root f) as [resolved|]; [|discriminate].
    cbn [bind] in H.
    destruct (Retrieve.readFileCapped fs resolved 60000) as [content|]; [|discriminate].
    cbn [bind] in H.
    destruct (IH _ _ key H Hkey) as [Hin|Hacc]; [left; now right|].
    apply setProperty_keys in Hacc as [->|Hacc]; [left; now left | now right].
Qed.

Lemma capped_prefix (data : list N) :
  Stated.units data = 60001%N ->
  exists final : N,
    data = firstn (N.to_nat 60000) data ++ [final]
    /\ Stated.units (firstn (N.to_nat 60000) data) = 60000%N.
Proof.
  unfold Stated.units. intros Hlen.
  pose proof (firstn_skipn (N.to_nat 60000) data) as Hsplit.
  pose proof (length_skipn (N.to_nat 60000) data) as Hskip.
  destruct (skipn (N.to_nat 60000) data) as [|final [|extra rest]] eqn:E;
    cbn [length] in Hskip; try lia.
  exists final. split; [now symmetry|].
  rewrite length_firstn. lia.
Qed.

Lemma readFilesLoop_returns (fs : Retrieve.disk) (cwd root : string) (files : list string) :
  Forall (Stated.readable fs cwd root) files ->
  forall acc : gmap string (list N),
    exists results, Retrieve.readFilesLoop fs cwd root files acc = Ok results.
Proof.
  induction 1 as [|f more (resolved & bytes & Hres & Hfs) _ IH]; intros acc.
  - now exists acc.
  - cbn [Retrieve.readFilesLoop]. rewrite Hres. cbn [bind].
    unfold Retrieve.readFileCapped, Retrieve.readFile. rewrite Hfs. cbn [bind].
    destruct (N.of_nat (length (Retrieve.decodeUtf8 bytes)) <=? 60000)%N; cbn [bind];
      apply IH.
Qed.

(** One requested path that passes the boundary and names a file: the call
    returns, with that path as its only key. *)
Lemma readFilesSafe_single (fs : Retrieve.disk) (cwd root file resolved : string)
      (bytes : list Byte.byte) :
  Retrieve.resolveSafePath cwd root file = Ok resolved ->
  fs resolved = Some bytes ->
  Retrieve.readFilesSafe fs cwd root [file]
  = Ok (Retrieve.setProperty ∅ file
          (if (Stated.units (Retrieve.decodeUtf8 bytes) <=? 60000)%N
           then Retrieve.decodeUtf8 bytes
           else firstn (N.to_nat 60000) (Retrieve.decodeUtf8 bytes))).
Proof.
  intros Hres Hfs. unfold Retrieve.readFilesSafe. cbn [Retrieve.readFilesLoop].
  rewrite Hres. cbn [bind]. unfold Retrieve.readFileCapped, Retrieve.readFile.
  rewrite Hfs. cbn [bind]. unfold Stated.units.
  destruct (N.of_nat (length (Retrieve.decodeUtf8 bytes)) <=? 60000)%N; reflexivity.
Qed.

End ReadFiles.

(** C6 (as amended): when every requested path passes the safety boundary
    and names a file, [readFilesSafe] returns, and every key of its result
    is one of the requested paths as given.  A requested path other than
    [__proto__] whose file has a text of exactly 60001 code units is a key of
    the result, and its value has exactly 60000 code units and is the text
    without its last unit.  A file of bytes below 128 has one code unit for
    each byte. *)
Theorem readFilesSafe_caps_content :
  forall (fs : Retrieve.disk) (cwd root : string) (files : list string)
         (file resolved : string) (bytes : list Byte.byte),
    Forall (Stated.readable fs cwd root) files ->
    In file files -> file <> "__proto__" ->
    Retrieve.resolveSafePath cwd root file = Ok resolved ->
    fs resolved = Some bytes ->
    Stated.units (Retrieve.decodeUtf8 bytes) = 60001%N ->
    exists results : gmap string (list N),
      Retrieve.readFilesSafe fs cwd root files = Ok results
      /\ (exists (content : list N) (final : N),
            results !! file = Some content
            /\ Stated.units content = 60000%N
            /\ Retrieve.decodeUtf8 bytes = content ++ [final])
      /\ (forall key : string, is_Some (results !! key) -> In key files)
      /\ (Stated.asciiOnly bytes = true ->
          Retrieve.decodeUtf8 bytes = map Byte.to_N bytes).
Proof.
  intros fs cwd root files file resolved bytes Hall Hin Hfile Hres Hfs Hlen.
  destruct (readFilesLoop_returns fs cwd root files Hall ∅) as [results Hread].
  exists results. split; [exact Hread|].
  split; [|split].
  - destruct (readFilesLoop_lookup _ _ _ _ _ _ file Hread Hfile) as [Hlookup _].
    destruct (Hlookup Hin) as (resolved' & content & Hres' & Hcap & Hkey).
    rewrite Hres in Hres'. injection Hres' as <-.
    unfold Retrieve.readFileCapped, Retrieve.readFile in Hcap.
    rewrite Hfs in Hcap. cbn [bind] in Hcap.
    fold (Stated.units (Retrieve.decodeUtf8 bytes)) in Hcap. rewrite Hlen in Hcap.
    change (60001 <=? 60000)%N with false in Hcap. injection Hcap as <-.
    destruct (capped_prefix _ Hlen) as (final & Hsplit & Hunits).
    exists (firstn (N.to_nat 60000) (Retrieve.decodeUtf8 bytes)), final.
    repeat split; assumption.
  - intros key Hkey.
    destruct (readFilesLoop_keys _ _ _ _ _ _ key Hread Hkey) as [H|H]; [exact H|].
    rewrite lookup_empty in H. now destruct H.
  - apply decodeUtf8_ascii.
Qed.

(** C6 (as stated, fails): a file of exactly 60001 bytes whose last three
    bytes encode one character is read as 59999 code units, which is within
    the cap: the value returned is the whole text, not a proper prefix, and
    its length is not 60000.  And a file of 60001 letters requested under
    the name [__proto__] is read and leaves no key in the result. *)
Lemma readFilesSafe_returns_whole_text :
  N.of_nat (length Sample.euroBytes) = 60001%N
  /\ Retrieve.resolveSafePath "/" "/repo" "notes.txt" = Ok "/repo/notes.txt"
  /\ Stated.units (Retrieve.decodeUtf8 Sample.euroBytes) = 59999%N
  /\ (exists results : gmap string (list N),
        Retrieve.readFilesSafe (Sample.diskWith "/repo/notes.txt" Sample.euroBytes)
          "/" "/repo" ["notes.txt"] = Ok results
        /\ results !! "notes.txt" = Some (Retrieve.decodeUtf8 Sample.euroBytes))
  /\ Retrieve.resolveSafePath "/" "/repo" "__proto__" = Ok "/repo/__proto__"
  /\ Retrieve.readFilesSafe (Sample.diskWith "/repo/__proto__" Sample.asciiBytes)
       "/" "/repo" ["__proto__"] = Ok ∅.
Proof.
  assert (Hunits : Stated.units (Retrieve.decodeUtf8 Sample.euroBytes) = 59999%N)
    by (vm_compute; reflexivity).
  split; [vm_compute; reflexivity|].
  split; [vm_compute; reflexivity|].
  split; [exact Hunits|].
  split; [|split].
  - eexists. split.
    + apply (readFilesSafe_single _ "/" "/repo" "notes.txt" "/repo/notes.txt"
               Sample.euroBytes); [vm_compute; reflexivity | reflexivity].
    + rewrite Hunits. change (59999 <=? 60000)%N with true. cbv iota.
      rewrite setProperty_lookup by discriminate.
      now rewrite bool_decide_eq_true_2.
  - vm_compute. reflexivity.
  - rewrite (readFilesSafe_single _ "/" "/repo" "__proto__" "/repo/__proto__"
               Sample.asciiBytes); [reflexivity | vm_compute; reflexivity | reflexivity].
Qed.

Lemma readFilesSafe_caps_content_witness :
  exists results : gmap string (list N),
    Retrieve.readFilesSafe (Sample.diskWith "/repo/notes.txt" Sample.asciiBytes)
      "/" "/repo" ["notes.txt"] = Ok results
    /\ exists (content : list N) (final : N),
         results !! "notes.txt" = Some content
         /\ Stated.units content = 60000%N
         /\ Retrieve.decodeUtf8 Sample.asciiBytes = content ++ [final].
Proof.
  assert (Hunits : Stated.units (Retrieve.decodeUtf8 Sample.asciiBytes) = 60001%N)
    by (vm_compute; reflexivity).
  assert (Hres : Retrieve.resolveSafePath "/" "/repo" "notes.txt" = Ok "/repo/notes.txt")
    by (vm_compute; reflexivity).
  destruct (readFilesSafe_caps_content
              (Sample.diskWith "/repo/notes.txt" Sample.asciiBytes) "/" "/repo"
              ["notes.txt"] "notes.txt" "/repo/notes.txt" Sample.asciiBytes)
    as (results & Hread & Hcontent & _).
  - constructor; [|constructor].
    exists "/repo/notes.txt", Sample.asciiBytes. split; [exact Hres | reflexivity].
  - left. reflexivity.
  - discriminate.
  - exact Hres.
  - reflexivity.
  - exact Hunits.
  - exists results. split; assumption.
Defined.

(** ** Command verification loop *)

Section VerifyLoop.
Variable World : Type.
Variable runCommand :
  string -> string -> World -> result Orchestrator.CommandResult * World.
Variable extractFilePaths : string -> list string.
Variable diskOf : World -> Retrieve.disk.
Variable readPrompt : string -> World -> result string.
Variable callCodex : string -> Orchestrator.FixRequest -> World -> result string * World.
Variable spawnGit : World -> Patch.spawnCall -> Patch.processRun.
Variable afterSpawn : World -> Patch.spawnCall -> World.
Variable cwd : string.

#[local] Abbreviation fixFailure :=
  (Orchestrator.fixFailure World extractFilePaths diskOf readPrompt callCodex spawnGit
     afterSpawn cwd).
#[local] Abbreviation run := (Orchestrator.run World runCommand).
#[local] Abbreviation runAll := (Orchestrator.runAll World runCommand).
#[local] Abbreviation attemptCommands :=
  (Orchestrator.attemptCommands World runCommand extractFilePaths diskOf readPrompt
     callCodex spawnGit afterSpawn cwd).
#[local] Abbreviation attempts :=
  (Orchestrator.attempts World runCommand extractFilePaths diskOf readPrompt callCodex
     spawnGit afterSpawn cwd).
#[local] Abbreviation verifyCommands :=
  (Orchestrator.verifyCommands World runCommand extractFilePaths diskOf readPrompt
     callCodex spawnGit afterSpawn cwd).
#[local] Abbreviation countAttempts := Orchestrator.countAttempts.
#[local] Abbreviation countFixes := Orchestrator.countFixes.

Lemma countAttempts_app (a b : list Orchestrator.event) :
  countAttempts (a ++ b) = countAttempts a + countAttempts b.
Proof. unfold Orchestrator.countAttempts. now rewrite List.filter_app, length_app. Qed.

Lemma countFixes_app (a b : list Orchestrator.event) :
  countFixes (a ++ b) = countFixes a + countFixes b.
Proof. unfold Orchestrator.countFixes. now rewrite List.filter_app, length_app. Qed.

Lemma count_spawned (calls : list Patch.spawnCall) :
  countAttempts (map Orchestrator.Spawned calls) = 0
  /\ countFixes (map Orchestrator.Spawned calls) = 0.
Proof. induction calls as [|c calls [IH1 IH2]]; split; auto. Qed.

Lemma added_refl (s : Orchestrator.state World) : Stated.added s s [].
Proof. unfold Stated.added. now rewrite app_nil_r. Qed.

(** A fix step adds no attempt to the trace, and exactly one request to the
    backend when it completes. *)
Lemma fixFailure_trace (root task : string) (plan : Schema.Plan) (diff command : string)
      (r : Orchestrator.CommandResult) (s : Orchestrator.state World) :
  exists extra,
    Stated.added s (snd (fixFailure root task plan diff command r s)) extra
    /\ countAttempts extra = 0
    /\ (isOk (fst (fixFailure root task plan diff command r s)) = true ->
        countFixes extra = 1).
Proof.
  unfold Orchestrator.fixFailure, Orchestrator.bindM.
  set (safeFiles := List.filter _ _).
  set (readContext := if (0 <? length safeFiles)%nat then _ else _).
  assert (Hctx : snd (readContext s) = s).
  { unfold readContext. destruct (0 <? length safeFiles)%nat; reflexivity. }
  destruct (readContext s) as [[context|m] s0]; cbn [snd] in Hctx; subst s0.
  2:{ exists []. cbn. split; [apply added_refl|]. split; [reflexivity | intros H; discriminate H]. }
  unfold Orchestrator.look. cbn beta.
  destruct (readPrompt "fixer.code.txt" (Orchestrator.world s)) as [prompt|m].
  2:{ exists []. cbn. split; [apply added_refl|]. split; [reflexivity | intros H; discriminate H]. }
  unfold Orchestrator.emit, Orchestrator.inWorld. cbn [Orchestrator.world Orchestrator.trace].
  destruct (callCodex prompt _ (Orchestrator.world s)) as [[fixRaw|m] w'].
  2:{ exists [Orchestrator.FixRequested command]. cbn.
      split; [reflexivity|]. split; [reflexivity | intros H; discriminate H]. }
  unfold Orchestrator.applyPatchM. cbn [Orchestrator.world Orchestrator.trace].
  destruct (Patch.applyPatch (spawnGit w') fixRaw _) as [res calls].
  exists (Orchestrator.FixRequested command :: map Orchestrator.Spawned calls).
  destruct (count_spawned calls) as [Ha Hf].
  cbn [fst snd]. split; [|split].
  - unfold Stated.added. cbn [Orchestrator.trace]. now rewrite <- app_assoc.
  - change (countAttempts (Orchestrator.FixRequested command :: map Orchestrator.Spawned calls))
      with (countAttempts (map Orchestrator.Spawned calls)). exact Ha.
  - intros _.
    change (countFixes (Orchestrator.FixRequested command :: map Orchestrator.Spawned calls))
      with (S (countFixes (map Orchestrator.Spawned calls))). now rewrite Hf.
Qed.

Lemma run_step (command root : string) (s : Orchestrator.state World)
      (r : Orchestrator.CommandResult) (w' : World) :
  runCommand command root (Orchestrator.world s) = (Ok r, w') ->
  run command root s
  = (Ok r, {| Orchestrator.world := w';
              Orchestrator.trace := Orchestrator.trace s ++ [Orchestrator.CommandRun command] |}).
Proof.
  intros H. unfold Orchestrator.run, Orchestrator.bindM, Orchestrator.emit,
    Orchestrator.inWorld.
  cbn [Orchestrator.world Orchestrator.trace]. now rewrite H.
Qed.

(** A fix step reads the world and not the trace. *)
Lemma fixFailure_world (root task : string) (plan : Schema.Plan) (diff command : string)
      (r : Orchestrator.CommandResult) (s : Orchestrator.state World) :
  (fst (fixFailure root task plan diff command r s),
   Orchestrator.world (snd (fixFailure root task plan diff command r s)))
  = Stated.fixIn World extractFilePaths diskOf readPrompt callCodex spawnGit afterSpawn cwd
      root task plan diff command r (Orchestrator.world s).
Proof.
  unfold Stated.fixIn, Orchestrator.fixFailure, Orchestrator.bindM.
  set (safeFiles := List.filter _ _).
  destruct (0 <? length safeFiles)%nat.
  - unfold Orchestrator.look. cbn [Orchestrator.world].
    destruct (Retrieve.readFilesSafe (diskOf (Orchestrator.world s)) cwd root safeFiles)
      as [context|m]; [|reflexivity].
    destruct (readPrompt "fixer.code.txt" (Orchestrator.world s)) as [prompt|m];
      [|reflexivity].
    unfold Orchestrator.emit, Orchestrator.inWorld.
    cbn [Orchestrator.world Orchestrator.trace].
    destruct (callCodex prompt _ (Orchestrator.world s)) as [[fixRaw|m] w']; [|reflexivity].
    unfold Orchestrator.applyPatchM. cbn [Orchestrator.world Orchestrator.trace].
    destruct (Patch.applyPatch (spawnGit w') fixRaw _) as [res calls]. reflexivity.
  - unfold Orchestrator.ret, Orchestrator.look. cbn [Orchestrator.world].
    destruct (readPrompt "fixer.code.txt" (Orchestrator.world s)) as [prompt|m];
      [|reflexivity].
    unfold Orchestrator.emit, Orchestrator.inWorld.
    cbn [Orchestrator.world Orchestrator.trace].
    destruct (callCodex prompt _ (Orchestrator.world s)) as [[fixRaw|m] w']; [|reflexivity].
    unfold Orchestrator.applyPatchM. cbn [Orchestrator.world Orchestrator.trace].
    destruct (Patch.applyPatch (spawnGit w') fixRaw _) as [res calls]. reflexivity.
Qed.

Lemma attempt_first_fails (root task : string) (plan : Schema.Plan) (diff c : string)
      (more : list string) (s : Orchestrator.state World) (later : World -> Prop) :
  Stated.alwaysFails World runCommand c root ->
  (forall (r : Orchestrator.CommandResult) (w1 : World),
     runCommand c root (Orchestrator.world s) = (Ok r, w1) ->
     exists w2 : World,
       Stated.fixIn World extractFilePaths diskOf readPrompt callCodex spawnGit afterSpawn
         cwd root task plan diff c r w1 = (Ok tt, w2)
       /\ later w2) ->
  exists s' extra,
    attemptCommands root task plan diff (c :: more) s = (Ok true, s')
    /\ Stated.added s s' extra /\ countAttempts extra = 0 /\ countFixes extra = 1
    /\ later (Orchestrator.world s').
Proof.
  intros Hfail Hfix.
  destruct (Hfail (Orchestrator.world s)) as (r & w' & Hrun & Hexit).
  cbn [Orchestrator.attemptCommands]. unfold Orchestrator.bindM at 1.
  rewrite (run_step _ _ _ _ _ Hrun).
  apply Z.eqb_neq in Hexit. rewrite Hexit. cbn [negb].
  unfold Orchestrator.bindM, Orchestrator.ret.
  set (s1 := {| Orchestrator.world := w'; Orchestrator.trace := _ |}).
  destruct (Hfix r w' Hrun) as (w2 & Hw2 & Hlater).
  pose proof (fixFailure_world root task plan diff c r s1) as Hworld.
  change (Orchestrator.world s1) with w' in Hworld. rewrite Hw2 in Hworld.
  destruct (fixFailure_trace root task plan diff c r s1) as (extra & Hadd & Ha & Hf).
  destruct (fixFailure root task plan diff c r s1) as [res s2].
  cbn [fst snd] in *. injection Hworld as -> <-.
  exists s2, (Orchestrator.CommandRun c :: extra). split; [reflexivity|].
  split; [|split; [|split]].
  - unfold Stated.added in *. rewrite Hadd. subst s1. cbn [Orchestrator.trace].
    now rewrite <- app_assoc.
  - exact Ha.
  - now apply Hf.
  - exact Hlater.
Qed.

Lemma runAll_first_fails (root c : string) (more : list string)
      (s : Orchestrator.state World) :
  Stated.alwaysFails World runCommand c root ->
  exists s' r,
    runAll (c :: more) root s = (Ok false, s')
    /\ Stated.added s s' [Orchestrator.CommandRun c]
    /\ runCommand c root (Orchestrator.world s) = (Ok r, Orchestrator.world s').
Proof.
  intros Hfail.
  destruct (Hfail (Orchestrator.world s)) as (r & w' & Hrun & Hexit).
  cbn [Orchestrator.runAll]. unfold Orchestrator.bindM.
  rewrite (run_step _ _ _ _ _ Hrun).
  apply Z.eqb_neq in Hexit. rewrite Hexit. cbn [negb].
  eexists. exists r. split; [reflexivity|]. split; [reflexivity | exact Hrun].
Qed.

Lemma attempts_exhaust (root task : string) (plan : Schema.Plan) (diff c : string)
      (more : list string) :
  Stated.alwaysFails World runCommand c root ->
  forall (k a : nat) (s : Orchestrator.state World),
    Stated.fixStepsComplete World runCommand extractFilePaths diskOf readPrompt callCodex
      spawnGit afterSpawn cwd k root task plan diff c (Orchestrator.world s) ->
    exists s' extra,
      attempts k a root task plan diff (c :: more) s
      = (Throw "Verification failed after three attempts.", s')
      /\ Stated.added s s' extra /\ countAttempts extra = k /\ countFixes extra = k.
Proof.
  intros Hfail. induction k as [|k IH]; intros a s Hfix.
  - exists s, []. split; [reflexivity|]. split; [apply added_refl | split; reflexivity].
  - cbn [Orchestrator.attempts]. unfold Orchestrator.bindM at 1, Orchestrator.emit at 1.
    set (s1 := {| Orchestrator.world := _; Orchestrator.trace := _ |}).
    unfold Orchestrator.bindM at 1.
    cbn [Stated.fixStepsComplete] in Hfix.
    destruct (attempt_first_fails root task plan diff c more s1
                (fun w => forall r' w3, runCommand c root w = (Ok r', w3) ->
                   Stated.fixStepsComplete World runCommand extractFilePaths diskOf
                     readPrompt callCodex spawnGit afterSpawn cwd k root task plan diff c w3)
                Hfail Hfix)
      as (s2 & e2 & -> & Hadd2 & Ha2 & Hf2 & Hlater).
    cbn [negb]. unfold Orchestrator.bindM at 1.
    destruct (runAll_first_fails root c more s2 Hfail) as (s3 & r3 & -> & Hadd3 & Hrun3).
    destruct (IH (S a) s3 (Hlater _ _ Hrun3)) as (s4 & e4 & -> & Hadd4 & Ha4 & Hf4).
    exists s4, ((Orchestrator.AttemptStarted (S a) :: e2)
                ++ [Orchestrator.CommandRun c] ++ e4).
    split; [reflexivity|]. split; [|split].
    + unfold Stated.added in *. rewrite Hadd4, Hadd3, Hadd2. subst s1.
      cbn [Orchestrator.trace]. now rewrite <- !app_assoc.
    + rewrite !countAttempts_app.
      change (countAttempts (Orchestrator.AttemptStarted (S a) :: e2))
        with (S (countAttempts e2)).
      rewrite Ha2, Ha4. reflexivity.
    + rewrite !countFixes_app.
      change (countFixes (Orchestrator.AttemptStarted (S a) :: e2)) with (countFixes e2).
      rewrite Hf2, Hf4. cbn. reflexivity.
Qed.

Lemma attempt_clean (root task : string) (plan : Schema.Plan) (diff : string)
      (commands : list string) :
  forall s : Orchestrator.state World,
    Stated.runsClean World runCommand commands root (Orchestrator.world s) ->
    exists s' extra,
      attemptCommands root task plan diff commands s = (Ok false, s')
      /\ Stated.added s s' extra /\ countAttempts extra = 0 /\ countFixes extra = 0.
Proof.
  induction commands as [|c more IH]; intros s Hclean.
  - exists s, []. split; [reflexivity|]. split; [apply added_refl | split; reflexivity].
  - destruct Hclean as (r & w' & Hrun & Hexit & Hmore).
    cbn [Orchestrator.attemptCommands]. unfold Orchestrator.bindM at 1.
    rewrite (run_step _ _ _ _ _ Hrun). rewrite Hexit. cbn [Z.eqb negb].
    set (s1 := {| Orchestrator.world := w'; Orchestrator.trace := _ |}).
    destruct (IH s1 Hmore) as (s2 & e2 & -> & Hadd & Ha & Hf).
    exists s2, (Orchestrator.CommandRun c :: e2). split; [reflexivity|].
    split; [|split; assumption].
    unfold Stated.added in *. rewrite Hadd. subst s1. cbn [Orchestrator.trace].
    now rewrite <- app_assoc.
Qed.

Lemma verifyCommands_enters (root task : string) (plan : Schema.Plan) (diff c : string)
      (more : list string) (s : Orchestrator.state World) :
  Schema.commands plan = Some (c :: more) ->
  verifyCommands root task plan diff s = attempts 3 0 root task plan diff (c :: more) s.
Proof. intros H. unfold Orchestrator.verifyCommands. now rewrite H. Qed.

(** C4 (as amended): the loop makes at most three outer attempts.  When the
    first command fails in every world and the three fix steps that the
    run from the given state performs complete without throwing, the run
    makes exactly three attempts, each with one request for a fix, and ends
    with the error [Verification failed after three attempts.].  When the
    commands all succeed on the first run there is exactly one attempt and
    no request for a fix, and the call returns.  When the plan has no
    command the call returns at once, with the state as it was. *)
Theorem verifyCommands_three_attempts :
  forall (root task : string) (plan : Schema.Plan) (diff : string),
    (forall (c : string) (more : list string) (s : Orchestrator.state World),
       Schema.commands plan = Some (c :: more) ->
       Stated.alwaysFails World runCommand c root ->
       Stated.fixStepsComplete World runCommand extractFilePaths diskOf readPrompt
         callCodex spawnGit afterSpawn cwd 3 root task plan diff c (Orchestrator.world s) ->
       exists s' extra,
         verifyCommands root task plan diff s
         = (Throw "Verification failed after three attempts.", s')
         /\ Stated.added s s' extra
         /\ countAttempts extra = 3 /\ countFixes extra = 3)
    /\ (forall (c : string) (more : list string) (s : Orchestrator.state World),
          Schema.commands plan = Some (c :: more) ->
          Stated.runsClean World runCommand (c :: more) root (Orchestrator.world s) ->
          exists s' extra,
            verifyCommands root task plan diff s = (Ok tt, s')
            /\ Stated.added s s' extra
            /\ countAttempts extra = 1 /\ countFixes extra = 0)
    /\ (forall s : Orchestrator.state World,
          default [] (Schema.commands plan) = [] ->
          verifyCommands root task plan diff s = (Ok tt, s)).
Proof.
  intros root task plan diff. split; [|split].
  - intros c more s Hplan Hfail Hfix. rewrite (verifyCommands_enters _ _ _ _ _ _ _ Hplan).
    apply attempts_exhaust; assumption.
  - intros c more s Hplan Hclean. rewrite (verifyCommands_enters _ _ _ _ _ _ _ Hplan).
    cbn [Orchestrator.attempts].
    unfold Orchestrator.bindM at 1, Orchestrator.emit at 1.
    set (s1 := {| Orchestrator.world := _; Orchestrator.trace := _ |}).
    unfold Orchestrator.bindM at 1.
    destruct (attempt_clean root task plan diff (c :: more) s1 Hclean)
      as (s2 & e2 & -> & Hadd & Ha & Hf).
    cbn [negb]. exists s2, (Orchestrator.AttemptStarted 1 :: e2).
    split; [reflexivity|]. split; [|split].
    + unfold Stated.added in *. rewrite Hadd. subst s1. cbn [Orchestrator.trace].
      now rewrite <- app_assoc.
    + change (countAttempts (Orchestrator.AttemptStarted 1 :: e2))
        with (S (countAttempts e2)). now rewrite Ha.
    + exact Hf.
  - intros s Hnone. unfold Orchestrator.verifyCommands. rewrite Hnone. reflexivity.
Qed.

End VerifyLoop.

(** C4 (as stated, fails): in a world where the only command fails on every
    run and the backend answers the fixer with an empty text, the patch guard
    rejects the answer and the error leaves [verifyCommands] during the
    first attempt: one attempt, one request for a fix, and not the error of
    the exhausted loop. *)
Lemma verifyCommands_stops_when_fix_throws :
  Stated.alwaysFails unit (Sample.runExits 1) "npm test" "/repo"
  /\ Schema.commands Sample.testPlan = Some ["npm test"]
  /\ fst (Sample.verifyIn 1 "") = Throw "No files found in diff output."
  /\ Orchestrator.countAttempts (Orchestrator.trace (snd (Sample.verifyIn 1 ""))) = 1
  /\ Orchestrator.countFixes (Orchestrator.trace (snd (Sample.verifyIn 1 ""))) = 1.
Proof.
  split.
  - intros w. eexists. exists w. split; [reflexivity | discriminate].
  - vm_compute. repeat split.
Qed.

Lemma verifyCommands_three_attempts_witness :
  (exists s' extra,
     Sample.verifyIn 1 "diff --git a/x.ts b/x.ts"
     = (Throw "Verification failed after three attempts.", s')
     /\ Orchestrator.trace s' = [] ++ extra
     /\ Orchestrator.countAttempts extra = 3 /\ Orchestrator.countFixes extra = 3)
  /\ (exists s' extra,
        Sample.verifyIn 0 "" = (Ok tt, s')
        /\ Orchestrator.trace s' = [] ++ extra
        /\ Orchestrator.countAttempts extra = 1 /\ Orchestrator.countFixes extra = 0).
Proof.
  split.
  - destruct (verifyCommands_three_attempts unit (Sample.runExits 1)
                Retrieve.extractFilePaths Sample.sourceFiles Sample.promptFound
                (Sample.backendAnswers "diff --git a/x.ts b/x.ts") Sample.gitInWorld
                Sample.sameWorld "/" "/repo" "fix the tests" Sample.testPlan
                "diff --git a/x.ts b/x.ts") as (H & _ & _).
    apply (H "npm test" [] {| Orchestrator.world := tt; Orchestrator.trace := [] |}).
    + reflexivity.
    + intros w. eexists. exists w. split; [reflexivity | discriminate].
    + cbn [Stated.fixStepsComplete Orchestrator.world].
      intros r w1 Hrun. unfold Sample.runExits in Hrun. injection Hrun as <- <-.
      exists tt. split; [vm_compute; reflexivity|].
      intros r w1 Hrun. unfold Sample.runExits in Hrun. injection Hrun as <- <-.
      intros r w1 Hrun. unfold Sample.runExits in Hrun. injection Hrun as <- <-.
      exists tt. split; [vm_compute; reflexivity|].
      intros r w1 Hrun. unfold Sample.runExits in Hrun. injection Hrun as <- <-.
      intros r w1 Hrun. unfold Sample.runExits in Hrun. injection Hrun as <- <-.
      exists tt. split; [vm_compute; reflexivity|]. intros r w1 Hrun. exact I.
  - destruct (verifyCommands_three_attempts unit (Sample.runExits 0)
                Retrieve.extractFilePaths Sample.sourceFiles Sample.promptFound
                (Sample.backendAnswers "") Sample.gitInWorld Sample.sameWorld "/" "/repo"
                "fix the tests" Sample.testPlan "diff --git a/x.ts b/x.ts") as (_ & H & _).
    apply (H "npm test" [] {| Orchestrator.world := tt; Orchestrator.trace := [] |}).
    + reflexivity.
    + eexists. exists tt. repeat split.
Defined.

(** ** Classification payloads *)

Lemma member_In (x : string) (xs : list string) : Js.member x xs = true -> In x xs.
Proof.
  unfold Js.member. intros H. apply existsb_exists in H as (y & Hy & Heq).
  apply bool_decide_eq_true in Heq. now subst.
Qed.

(** C7: [validateClassification] returns a classification only for a value
    whose [taskType] is a string of the closed set, and then that very
    string, with the number and the string found under [confidence] and
    [notes]; for every value whose [taskType] is not in the set, whose
    [confidence] is not a number or whose [notes] is not a string it throws,
    and no default is put in place of the missing part; a value that passes
    the three tests is accepted. *)
Theorem validateClassification_closed_set :
  (forall (value : Schema.json) (c : Schema.Classification),
     Schema.validateClassification value = Ok c ->
     In (Schema.taskType c) Schema.TASK_TYPES
     /\ Schema.getProperty value "taskType" = Some (Schema.JString (Schema.taskType c))
     /\ Schema.getProperty value "confidence" = Some (Schema.JNumber (Schema.confidence c))
     /\ Schema.getProperty value "notes" = Some (Schema.JString (Schema.notes c)))
  /\ (forall value : Schema.json,
        Schema.isTaskType (Schema.getProperty value "taskType") = false
        \/ Stated.isNumber (Schema.getProperty value "confidence") = false
        \/ Stated.isString (Schema.getProperty value "notes") = false ->
        exists m, Schema.validateClassification value = Throw m)
  /\ (forall value : Schema.json,
        Schema.isTaskType (Schema.getProperty value "taskType") = true ->
        Stated.isNumber (Schema.getProperty value "confidence") = true ->
        Stated.isString (Schema.getProperty value "notes") = true ->
        exists c, Schema.validateClassification value = Ok c).
Proof.
  split; [|split].
  - intros value c. unfold Schema.validateClassification.
    destruct (Schema.notAnObject value); [discriminate|].
    destruct (Schema.getProperty value "taskType") as [[| | |t| |]|]; try discriminate.
    destruct (Schema.isTaskType (Some (Schema.JString t))) eqn:Ht; [|discriminate].
    cbn [negb].
    destruct (Schema.getProperty value "confidence") as [[| |n| | |]|]; try discriminate.
    destruct (Schema.getProperty value "notes") as [[| | |s| |]|]; try discriminate.
    intros H. injection H as <-.
    cbn [Schema.taskType Schema.confidence Schema.notes].
    split; [apply member_In, Ht | repeat split].
  - intros value H. unfold Schema.validateClassification.
    destruct (Schema.notAnObject value); [eauto|].
    destruct (Schema.getProperty value "taskType") as [[| | |t| |]|]; eauto.
    destruct (Schema.isTaskType (Some (Schema.JString t))) eqn:Ht; cbn [negb]; [|eauto].
    destruct (Schema.getProperty value "confidence") as [[| |n| | |]|]; eauto.
    destruct (Schema.getProperty value "notes") as [[| | |s| |]|]; eauto.
    cbn in H. destruct H as [H|[H|H]]; discriminate.
  - intros value Ht Hc Hn. unfold Schema.validateClassification.
    destruct value as [| | | | |fields]; try discriminate Ht.
    cbn [Schema.notAnObject].
    destruct (Schema.getProperty (Schema.JObject fields) "taskType") as [[| | |t| |]|];
      try discriminate Ht.
    rewrite Ht. cbn [negb].
    destruct (Schema.getProperty (Schema.JObject fields) "confidence") as [[| |n| | |]|];
      try discriminate Hc.
    destruct (Schema.getProperty (Schema.JObject fields) "notes") as [[| | |s| |]|];
      try discriminate Hn.
    eauto.
Qed.

Lemma validateClassification_closed_set_witness :
  In "docs.write" Schema.TASK_TYPES
  /\ exists m, Schema.validateClassification (Sample.payload "deploy") = Throw m.
Proof.
  destruct validateClassification_closed_set as (Hok & Hbad & _). split.
  - apply (Hok (Sample.payload "docs.write")
               {| Schema.taskType := "docs.write";
                  Schema.confidence := {| Schema.mantissa := 9; Schema.exponent := -1 |};
                  Schema.notes := "touches one file" |}).
    reflexivity.
  - apply Hbad. left. reflexivity.
Defined.

(** ** Session files *)

Section SessionPaths.











End SessionPaths.




(** ** Sessions *)

(** C10: [loadSession] never throws.  When the session file cannot be read
    or its text is rejected by [JSON.parse], the result is a record made on
    the spot: its [id] is the session id as given (not the sanitized one),
    [summary] and [history] are empty and [createdAt] equals [updatedAt].
    When the text parses, the parsed value is the result, whatever its
    shape. *)
Theorem loadSession_total :
  forall (JSON_parse : list N -> result Schema.json) (fs : Retrieve.disk)
         (now root sessionId : string),
    let file := Retrieve.readFile fs (Session.getSessionPath root sessionId) in
    (exists l, Session.loadSession JSON_parse fs now root sessionId = Ok l)
    /\ ((isOk file = false \/ exists raw, file = Ok raw /\ isOk (JSON_parse raw) = false) ->
        exists r,
          Session.loadSession JSON_parse fs now root sessionId = Ok (Session.Fresh r)
          /\ Session.id r = sessionId /\ Session.summary r = ""
          /\ Session.history r = [] /\ Session.createdAt r = Session.updatedAt r
          /\ r = Stated.freshRecord sessionId now)
    /\ (forall raw value, file = Ok raw -> JSON_parse raw = Ok value ->
        Session.loadSession JSON_parse fs now root sessionId = Ok (Session.FromFile value)).
Proof.
  intros JSON_parse fs now root sessionId file.
  unfold Session.loadSession. fold file.
  split; [|split].
  - destruct file as [raw|m]; cbn; [|eauto].
    destruct (JSON_parse raw); cbn; eauto.
  - intros [H|(raw & Hraw & H)].
    + destruct file; [discriminate|]. cbn. eexists. repeat split.
    + rewrite Hraw. cbn. destruct (JSON_parse raw); [discriminate|]. cbn.
      eexists. repeat split.
  - intros raw value -> H. cbn. rewrite H. reflexivity.
Qed.

Lemma loadSession_total_witness :
  Session.loadSession Sample.rejectAll Sample.emptyDisk "2026-01-01T00:00:00.000Z" "/repo" "a/b"
    = Ok (Session.Fresh (Stated.freshRecord "a/b" "2026-01-01T00:00:00.000Z"))
  /\ Session.loadSession Sample.parseSeven Sample.diskWithSession "2026-01-01T00:00:00.000Z"
       "/repo" "a/b"
     = Ok (Session.FromFile (Schema.JNumber {| Schema.mantissa := 7; Schema.exponent := 0 |})).
Proof.
  split.
  - destruct (loadSession_total Sample.rejectAll Sample.emptyDisk
                "2026-01-01T00:00:00.000Z" "/repo" "a/b") as (_ & H & _).
    destruct H as (r & -> & _ & _ & _ & _ & ->); [left; reflexivity | reflexivity].
  - destruct (loadSession_total Sample.parseSeven Sample.diskWithSession
                "2026-01-01T00:00:00.000Z" "/repo" "a/b") as (_ & _ & H).
    apply (H [55%N]); reflexivity.
Defined.

Example verify_fix_rejected :
  Sample.verifyIn 1 ""
  = (Throw "No files found in diff output.",
     {| Orchestrator.world := tt;
        Orchestrator.trace := [Orchestrator.AttemptStarted 1;
                               Orchestrator.CommandRun "npm test";
                               Orchestrator.FixRequested "npm test"] |}).
Proof. vm_compute. reflexivity. Qed.

Example verify_three_attempts :
  fst (Sample.verifyIn 1 "diff --git a/x.ts b/x.ts")
  = Throw "Verification failed after three attempts."
  /\ map Orchestrator.isAttempt (Orchestrator.trace (snd (Sample.verifyIn 1 "diff --git a/x.ts b/x.ts")))
     = [true; false; false; false; false; true; false; false; false; false;
        true; false; false; false; false].
Proof. vm_compute. split; reflexivity. Qed.

Example verify_clean :
  Sample.verifyIn 0 ""
  = (Ok tt, {| Orchestrator.world := tt;
               Orchestrator.trace := [Orchestrator.AttemptStarted 1;
                                      Orchestrator.CommandRun "npm test"] |}).
Proof. vm_compute. reflexivity. Qed.

Example parseArgs_ex :
  Cli.parseArgs "/home/u" ["fix"; "--cwd"; "/repo"; "the"; "--verbose"; "typo"; "--session"; "s1"]
  = {| Cli.task := "fix the typo"; Cli.root := "/repo"; Cli.skipGitRepoCheck := false;
       Cli.verbose := Some true; Cli.sessionId := Some "s1"; Cli.error := None |}.
Proof. vm_compute. reflexivity. Qed.

Example parseArgs_value_like_flag :
  Cli.parseArgs "/home/u" ["--cwd"; "--verbose"; "task"]
  = {| Cli.task := "task"; Cli.root := "--verbose"; Cli.skipGitRepoCheck := false;
       Cli.verbose := Some false; Cli.sessionId := Some "default"; Cli.error := None |}.
Proof. vm_compute. reflexivity. Qed.

Example extractFilePaths_ex :
  Retrieve.extractFilePaths
    ("src/a.ts:12:3 - error TS2304: Cannot find name 'x'." +:+ Retrieve.newline
     +:+ "    at run (lib/b.js:4)" +:+ Retrieve.newline +:+ "src/a.ts:12 again")
  = ["src/a.ts:12"].
Proof. vm_compute. reflexivity. Qed.

Example extractFilePaths_versions :
  Retrieve.extractFilePaths
    ("FAIL test/app.test.ts" +:+ Retrieve.newline +:+ "  see ./README.md and v1.2.3.")
  = ["test/app.test.ts"; "./README.md"; "v1.2.3"]
  /\ Retrieve.extractFilePaths "a.b.c/d x..y z.1:2a" = ["a.b.c"; "x..y"; "z.1:2"]
  /\ Retrieve.extractFilePaths "no file here" = [].
Proof. vm_compute. repeat split. Qed.

(** * Further properties *)

(** ** Sensitive and ignored paths *)

Section Boundary.

Lemma lowerChar_slash (c : ascii) :
  bool_decide (Js.lowerChar c = "/"%char) = bool_decide (c = "/"%char).
Proof. destruct c as [[] [] [] [] [] [] [] []]; vm_compute; reflexivity. Qed.

Lemma toLowerCase_empty (s : string) : Js.toLowerCase s = "" <-> s = "".
Proof. destruct s; cbn; split; intros H; (reflexivity || discriminate H). Qed.

Lemma split_toLowerCase (s : string) :
  Js.split NodePath.sep (Js.toLowerCase s) = map Js.toLowerCase (Js.split NodePath.sep s).
Proof.
  induction s as [|c s IH]; [reflexivity|]. cbn [Js.toLowerCase Js.split].
  pose proof (lowerChar_slash c) as Hc. unfold NodePath.sep in *.
  destruct (ascii_dec (Js.lowerChar c) "/") as [Hl|Hl];
    destruct (ascii_dec c "/") as [Hu|Hu].
  - cbn [map]. now rewrite IH.
  - rewrite bool_decide_eq_true_2, bool_decide_eq_false_2 in Hc by assumption.
    discriminate Hc.
  - rewrite bool_decide_eq_false_2, bool_decide_eq_true_2 in Hc by assumption.
    discriminate Hc.
  - rewrite IH. destruct (Js.split "/" s); reflexivity.
Qed.

Lemma filter_toLowerCase (l : list string) :
  filter (fun s : string => s <> "") (map Js.toLowerCase l)
  = map Js.toLowerCase (filter (fun s : string => s <> "") l).
Proof.
  induction l as [|x l IH]; [reflexivity|]. cbn [map].
  destruct (decide (x = "")) as [->|Hx].
  - cbn [Js.toLowerCase].
    rewrite !(filter_cons_False _ "") by (intros H; now apply H). exact IH.
  - rewrite (filter_cons_True _ (Js.toLowerCase x))
      by (intros H; apply (proj1 (toLowerCase_empty x)) in H; contradiction).
    rewrite (filter_cons_True _ x) by assumption. cbn [map]. now rewrite IH.
Qed.

Lemma last_toLowerCase (l : list string) :
  List.last (map Js.toLowerCase l) "" = Js.toLowerCase (List.last l "").
Proof.
  induction l as [|x [|y l] IH]; [reflexivity | reflexivity |].
  change (List.last (map Js.toLowerCase (x :: y :: l)) "")
    with (List.last (map Js.toLowerCase (y :: l)) "").
  exact IH.
Qed.

Lemma basename_toLowerCase (p : string) :
  NodePath.basename (Js.toLowerCase p) = Js.toLowerCase (NodePath.basename p).
Proof.
  unfold NodePath.basename.
  now rewrite split_toLowerCase, filter_toLowerCase, last_toLowerCase.
Qed.

Lemma basename_child (dir name : string) :
  name <> "" -> Stated.all Stated.notSlash name = true ->
  NodePath.basename (dir +:+ "/" +:+ name) = name.
Proof.
  intros Hne Hns. unfold NodePath.basename.
  change (dir +:+ "/" +:+ name) with (dir +:+ String NodePath.sep name).
  rewrite split_append_sep, (split_no_sep name) by assumption.
  rewrite filter_app, filter_cons_True, filter_nil by assumption.
  apply List.last_last.
Qed.

Lemma basename_name (name : string) :
  name <> "" -> Stated.all Stated.notSlash name = true ->
  NodePath.basename name = name.
Proof.
  intros Hne Hns. unfold NodePath.basename.
  rewrite split_no_sep by assumption.
  now rewrite filter_cons_True, filter_nil by assumption.
Qed.

End Boundary.

(** X1: whether a path is sensitive is decided by its last component alone:
    a file name is sensitive in every directory, at every depth, exactly
    when it is sensitive on its own. *)
Theorem isSensitivePath_any_directory :
  forall dir name : string,
    name <> "" -> Stated.all Stated.notSlash name = true ->
    Retrieve.isSensitivePath (dir +:+ "/" +:+ name) = Retrieve.isSensitivePath name.
Proof.
  intros dir name Hne Hns. unfold Retrieve.isSensitivePath.
  now rewrite basename_child, basename_name.
Qed.

Lemma isSensitivePath_any_directory_witness :
  Retrieve.isSensitivePath ("/repo/config/deep" +:+ "/" +:+ "server.pem")
  = Retrieve.isSensitivePath "server.pem".
Proof. apply isSensitivePath_any_directory; [discriminate | reflexivity]. Defined.

(** X2: letter case does not matter to the two tests of the boundary: two
    paths that are equal once put in lower case are both sensitive or both
    not, and both ignored or both not. *)
Theorem boundary_tests_ignore_case :
  forall p q : string,
    Js.toLowerCase p = Js.toLowerCase q ->
    Retrieve.isSensitivePath p = Retrieve.isSensitivePath q
    /\ Retrieve.containsIgnoredSegment p = Retrieve.containsIgnoredSegment q.
Proof.
  intros p q H. split.
  - unfold Retrieve.isSensitivePath.
    now rewrite <- !basename_toLowerCase, H.
  - unfold Retrieve.containsIgnoredSegment.
    now rewrite <- !split_toLowerCase, H.
Qed.

Lemma boundary_tests_ignore_case_witness :
  Retrieve.isSensitivePath "/repo/Node_Modules/.ENV"
    = Retrieve.isSensitivePath "/repo/node_modules/.env"
  /\ Retrieve.containsIgnoredSegment "/repo/Node_Modules/.ENV"
     = Retrieve.containsIgnoredSegment "/repo/node_modules/.env".
Proof. apply boundary_tests_ignore_case. reflexivity. Defined.

Section SensitiveNames.

Lemma In_member (x : string) (xs : list string) : In x xs -> Js.member x xs = true.
Proof.
  intros H. unfold Js.member. apply existsb_exists. exists x.
  split; [exact H | now apply bool_decide_eq_true_2].
Qed.

Lemma toLowerCase_no_slash (s : string) :
  Stated.all Stated.notSlash s = true ->
  Stated.all Stated.notSlash (Js.toLowerCase s) = true.
Proof.
  induction s as [|c s IH]; [reflexivity|]. cbn [Js.toLowerCase Stated.all].
  intros H. apply andb_prop in H as [Hc H]. rewrite (IH H), andb_true_r.
  unfold Stated.notSlash in *. now rewrite lowerChar_slash.
Qed.

Lemma lastDotSuffix_append (x e : string) :
  NodePath.lastDotSuffix e = None ->
  NodePath.lastDotSuffix (x +:+ String "." e) = Some (String "." e).
Proof.
  intros He. induction x as [|c x IH].
  - cbn. rewrite He. destruct (ascii_dec "." "."); [reflexivity | congruence].
  - change (String c x +:+ String "." e) with (String c (x +:+ String "." e)).
    cbn [NodePath.lastDotSuffix]. now rewrite IH.
Qed.

Lemma extname_of_extension (stem e : string) :
  stem <> "" -> e <> "" -> NodePath.lastDotSuffix e = None ->
  Stated.all Stated.notSlash (stem +:+ String "." e) = true ->
  NodePath.extname (stem +:+ String "." e) = String "." e.
Proof.
  intros Hstem He Hdot Hns. unfold NodePath.extname.
  rewrite basename_name; [|intros H; apply append_empty in H as [H _]; contradiction|exact Hns].
  destruct stem as [|c stem]; [contradiction|].
  change (String c stem +:+ String "." e) with (String c (stem +:+ String "." e)).
  cbv beta iota. rewrite lastDotSuffix_append by assumption.
  rewrite bool_decide_eq_false_2; [reflexivity|].
  intros H. apply (f_equal String.length) in H. cbn in H.
  rewrite append_length in H. destruct e; [contradiction|]. cbn in H. lia.
Qed.

Lemma sensitive_extension_shape (ext : string) :
  In ext Retrieve.SENSITIVE_EXTENSIONS ->
  exists e, ext = String "." e /\ e <> "" /\ NodePath.lastDotSuffix e = None.
Proof.
  intros H. cbn in H.
  repeat (destruct H as [<-|H]; [eexists; repeat split; discriminate|]).
  contradiction.
Qed.

End SensitiveNames.

(** X3: in every directory, a file is sensitive as soon as its name, put in
    lower case, is one of the sensitive file names, ends with one of the
    sensitive extensions behind a stem that is not empty, or contains
    [secret], [certificate] or [private]. *)
Theorem sensitive_names_are_refused :
  forall dir name : string,
    name <> "" -> Stated.all Stated.notSlash name = true ->
    In (Js.toLowerCase name) Retrieve.SENSITIVE_FILENAMES
    \/ (exists stem ext, stem <> "" /\ In ext Retrieve.SENSITIVE_EXTENSIONS
                         /\ Js.toLowerCase name = stem +:+ ext)
    \/ (exists word, In word ["secret"; "certificate"; "private"]
                     /\ Js.includes (Js.toLowerCase name) word = true) ->
    Retrieve.isSensitivePath (dir +:+ "/" +:+ name) = true.
Proof.
  intros dir name Hne Hns H.
  unfold Retrieve.isSensitivePath.
  rewrite basename_child by assumption.
  destruct (Js.member (Js.toLowerCase name) Retrieve.SENSITIVE_FILENAMES) eqn:Hfile;
    [reflexivity|].
  destruct H as [H|[(stem & ext & Hstem & Hext & Heq)|(word & Hword & Hinc)]].
  - apply In_member in H. congruence.
  - destruct (sensitive_extension_shape ext Hext) as (e & -> & He & Hdot).
    rewrite Heq, extname_of_extension; try assumption.
    + now rewrite (In_member _ _ Hext).
    + rewrite <- Heq. now apply toLowerCase_no_slash.
  - destruct (Js.member _ Retrieve.SENSITIVE_EXTENSIONS); [reflexivity|].
    cbn in Hword. destruct Hword as [<-|[<-|[<-|[]]]]; rewrite Hinc;
      rewrite ?orb_true_r; reflexivity.
Qed.

Lemma sensitive_names_are_refused_witness :
  Retrieve.isSensitivePath ("/repo/deploy" +:+ "/" +:+ "Server.PEM") = true
  /\ Retrieve.isSensitivePath ("/repo" +:+ "/" +:+ ".env.local") = true
  /\ Retrieve.isSensitivePath ("src" +:+ "/" +:+ "MySecrets.ts") = true.
Proof.
  split; [|split]; apply sensitive_names_are_refused; try discriminate; try reflexivity.
  - right. left. exists "server", ".pem". repeat split; [discriminate|].
    cbn. tauto.
  - left. cbn. tauto.
  - right. right. exists "secret". split; [cbn; tauto | reflexivity].
Defined.

(** X4: a path is refused as ignored exactly when one of its segments is a
    name that the repository map skips; so every path that goes through a
    directory with such a name is refused, whatever stands before and after
    it. *)
Theorem ignored_segment_is_skipped_name :
  (forall p : string,
     Retrieve.containsIgnoredSegment p
     = existsb Retrieve.shouldIgnore (Js.split NodePath.sep p))
  /\ (forall before name after : string,
        Retrieve.shouldIgnore name = true ->
        Stated.all Stated.notSlash name = true ->
        Retrieve.containsIgnoredSegment (before +:+ "/" +:+ name +:+ "/" +:+ after) = true).
Proof.
  assert (Heq : forall p : string,
             Retrieve.containsIgnoredSegment p
             = existsb Retrieve.shouldIgnore (Js.split NodePath.sep p)).
  { intros p. apply eq_true_iff_eq.
    unfold Retrieve.containsIgnoredSegment, Retrieve.shouldIgnore, Js.member.
    rewrite !existsb_exists. split.
    - intros (ig & Hig & H). apply existsb_exists in H as (y & Hy & Hyig).
      apply in_map_iff in Hy as (seg & <- & Hseg).
      apply bool_decide_eq_true in Hyig.
      exists seg. split; [exact Hseg|]. apply existsb_exists.
      exists ig. split; [exact Hig | now apply bool_decide_eq_true_2].
    - intros (seg & Hseg & H). apply existsb_exists in H as (ig & Hig & Higseg).
      apply bool_decide_eq_true in Higseg.
      exists ig. split; [exact Hig|]. apply existsb_exists.
      exists (Js.toLowerCase seg). split; [now apply in_map | now apply bool_decide_eq_true_2]. }
  split; [exact Heq|].
  intros before name after Hig Hns. rewrite Heq. apply existsb_exists.
  exists name. split; [|exact Hig].
  change (before +:+ "/" +:+ name +:+ "/" +:+ after)
    with (before +:+ String NodePath.sep (name +:+ String NodePath.sep after)).
  rewrite !split_append_sep, (split_no_sep name) by assumption.
  apply in_or_app. right. now left.
Qed.

Lemma ignored_segment_is_skipped_name_witness :
  Retrieve.containsIgnoredSegment ("/repo/packages/app" +:+ "/" +:+ "Node_Modules" +:+ "/" +:+ "x/y.js")
  = true.
Proof.
  destruct ignored_segment_is_skipped_name as [_ H]. apply H; reflexivity.
Defined.

(** ** Paths inside the root *)

Section InsideRoot.

Lemma join_cons_plain (x : string) (l : list string) :
  Stated.plainName x ->
  Js.join "/" (x :: l) <> "" /\ NodePath.isAbsolute (Js.join "/" (x :: l)) = false.
Proof.
  intros (Hns & Hne & _). destruct x as [|c x]; [contradiction|].
  cbn in Hns. apply andb_prop in Hns as [Hc _]. unfold Stated.notSlash in Hc.
  apply negb_true_iff, bool_decide_eq_false in Hc.
  assert (Hhead : exists rest, Js.join "/" (String c x :: l) = String c rest).
  { destruct l; cbn; eauto. }
  destruct Hhead as [rest ->]. split; [discriminate|].
  unfold NodePath.isAbsolute. cbn.
  destruct (ascii_dec "/" c); [congruence | reflexivity].
Qed.

Lemma split_join_plain (l : list string) :
  Forall Stated.plainName l -> l <> [] ->
  Js.split NodePath.sep (Js.join "/" l) = l.
Proof.
  induction 1 as [|x l Hx Hl IH]; intros Hne; [contradiction|].
  destruct l as [|y l].
  - cbn. apply split_no_sep, Hx.
  - change (Js.join "/" (x :: y :: l)) with (x +:+ String NodePath.sep (Js.join "/" (y :: l))).
    rewrite split_append_sep, (split_no_sep x) by apply Hx.
    now rewrite IH.
Qed.

Lemma filter_plain (l : list string) :
  Forall Stated.plainName l -> filter (fun s : string => s <> "") l = l.
Proof.
  induction 1 as [|x l Hx _ IH]; [reflexivity|].
  rewrite filter_cons_True by apply Hx. now rewrite IH.
Qed.

Lemma normalize_kept (allow : bool) (l kept : list string) :
  Forall (fun s => s = "" \/ Stated.plainName s) l ->
  fold_left (NodePath.normStep allow) l kept
  = rev (filter (fun s : string => s <> "") l) ++ kept.
Proof.
  intros H. revert kept. induction H as [|x l [->|Hx] _ IH]; intros kept.
  - reflexivity.
  - rewrite filter_cons_False by (intros H; now apply H). cbn [fold_left].
    unfold NodePath.normStep at 2. rewrite bool_decide_eq_true_2 by reflexivity.
    cbn [orb]. apply IH.
  - rewrite filter_cons_True by apply Hx. cbn [fold_left rev].
    rewrite normStep_plain by assumption. rewrite IH. now rewrite <- app_assoc.
Qed.

(** The pieces of a joined list of plain names. *)
Lemma pieces_of_join (l : list string) :
  Forall Stated.plainName l ->
  Forall (fun s => s = "" \/ Stated.plainName s) (Js.split NodePath.sep (Js.join "/" l))
  /\ filter (fun s : string => s <> "") (Js.split NodePath.sep (Js.join "/" l)) = l.
Proof.
  intros H. destruct l as [|x l].
  - cbn [Js.join Js.split]. split; [constructor; [now left | constructor]|].
    now rewrite filter_cons_False by (intros H'; now apply H').
  - rewrite split_join_plain by (assumption || discriminate). split.
    + eapply Forall_impl; [exact H|]. intros s Hs. now right.
    + now apply filter_plain.
Qed.

Lemma segments_of_root (rs : list string) (tail : string) :
  Forall Stated.plainName rs ->
  Forall (fun s => s = "" \/ Stated.plainName s) (Js.split NodePath.sep tail) ->
  NodePath.normalizeSegments false
    (Js.split NodePath.sep (("/" +:+ Js.join "/" rs) +:+ String NodePath.sep tail))
  = rs ++ filter (fun s : string => s <> "") (Js.split NodePath.sep tail).
Proof.
  intros Hrs Htail.
  destruct (pieces_of_join rs Hrs) as [Hr1 Hr2].
  change ("/" +:+ Js.join "/" rs) with ("" +:+ String NodePath.sep (Js.join "/" rs)).
  rewrite !split_append_sep. unfold NodePath.normalizeSegments.
  rewrite normalize_kept.
  - rewrite app_nil_r, rev_involutive, !filter_app, Hr2.
    cbn [Js.split]. rewrite filter_cons_False by (intros H'; now apply H').
    now rewrite filter_nil.
  - repeat (apply Forall_app; split); try assumption.
    cbn [Js.split]. constructor; [now left | constructor].
Qed.

Lemma startsWith_refl (s : string) : Js.startsWith s s = true.
Proof.
  induction s as [|c s IH]; [reflexivity|]. cbn.
  destruct (ascii_dec c c); [exact IH | congruence].
Qed.

Lemma startsWith_behind (p a b : string) :
  Js.startsWith a b = true -> Js.startsWith (p +:+ a) (p +:+ b) = true.
Proof.
  intros H. induction p as [|c p IH]; [exact H|]. cbn.
  destruct (ascii_dec c c); [exact IH | congruence].
Qed.

Lemma join_app_prefix (rs names : list string) :
  Js.startsWith (Js.join "/" (rs ++ names)) (Js.join "/" rs) = true.
Proof.
  destruct names as [|n names]; [rewrite app_nil_r; apply startsWith_refl|].
  induction rs as [|r rs IH]; [reflexivity|].
  destruct rs as [|r' rs].
  - cbn [app]. change (Js.join "/" (r :: n :: names)) with (r +:+ "/" +:+ Js.join "/" (n :: names)).
    apply startsWith_append.
  - change (Js.join "/" ((r :: r' :: rs) ++ n :: names))
      with (r +:+ "/" +:+ Js.join "/" ((r' :: rs) ++ n :: names)).
    change (Js.join "/" (r :: r' :: rs)) with (r +:+ "/" +:+ Js.join "/" (r' :: rs)).
    apply startsWith_behind, (startsWith_behind "/"), IH.
Qed.

Lemma prefixes_app {A : Type} (l l' : list A) : In l (Stated.prefixes (l ++ l')).
Proof.
  induction l as [|x l IH]; [destruct l'; now left|].
  cbn. right. apply in_map, IH.
Qed.

Lemma resolve_inside (cwd : string) (rs names : list string) :
  Forall Stated.plainName rs -> Forall Stated.plainName names ->
  NodePath.resolve cwd [Stated.ofSegments rs; Js.join "/" names]
  = Stated.ofSegments (rs ++ names).
Proof.
  intros Hrs Hnames. unfold NodePath.resolve, Stated.ofSegments.
  cbn [rev app NodePath.resolveScan].
  assert (Hroot : bool_decide ("/" +:+ Js.join "/" rs = "") = false)
    by (apply bool_decide_eq_false_2; discriminate).
  destruct names as [|n names].
  - cbn [Js.join]. rewrite bool_decide_eq_true_2 by reflexivity. rewrite Hroot.
    change (NodePath.isAbsolute ("/" +:+ Js.join "/" rs)) with true. cbv iota.
    unfold NodePath.normalizeString.
    change (("/" +:+ Js.join "/" rs) +:+ "/" +:+ "")
      with (("/" +:+ Js.join "/" rs) +:+ String NodePath.sep "").
    rewrite segments_of_root; [|assumption|cbn; constructor; [now left | constructor]].
    cbn [Js.split]. rewrite filter_cons_False by (intros H'; now apply H').
    now rewrite filter_nil.
  - pose proof (Forall_inv Hnames) as Hn.
    destruct (join_cons_plain n names Hn) as [Hne Habs].
    destruct (pieces_of_join (n :: names) Hnames) as [Hp1 Hp2].
    rewrite bool_decide_eq_false_2 by assumption. rewrite Habs, Hroot.
    change (NodePath.isAbsolute ("/" +:+ Js.join "/" rs)) with true. cbv iota.
    unfold NodePath.normalizeString.
    change (("/" +:+ Js.join "/" rs) +:+ "/" +:+ Js.join "/" (n :: names) +:+ "/" +:+ "")
      with (("/" +:+ Js.join "/" rs)
              +:+ String NodePath.sep (Js.join "/" (n :: names) +:+ String NodePath.sep "")).
    rewrite segments_of_root; [|assumption|].
    + rewrite split_append_sep, filter_app, Hp2. cbn [Js.split].
      rewrite filter_cons_False by (intros H'; now apply H').
      now rewrite filter_nil, app_nil_r.
    + rewrite split_append_sep. apply Forall_app. split; [assumption|].
      cbn [Js.split]. constructor; [now left | constructor].
Qed.

End InsideRoot.

(** X5: under a root given as an absolute, normalized path, a relative
    path made of plain names resolves to the root extended by those names;
    [resolveSafePath] returns that path unless it is sensitive or goes
    through an ignored name, and the path it returns has the root in its
    ancestor chain. *)
Theorem resolveSafePath_inside_root :
  forall (cwd : string) (rs names : list string),
    Forall Stated.plainName rs -> Forall Stated.plainName names ->
    Retrieve.resolveSafePath cwd (Stated.ofSegments rs) (Js.join "/" names)
    = (if Retrieve.isSensitivePath (Stated.ofSegments (rs ++ names)) then
         Throw ("Refusing to access sensitive path: " +:+ Js.join "/" names)
       else if Retrieve.containsIgnoredSegment (Stated.ofSegments (rs ++ names)) then
         Throw ("Refusing to access ignored path: " +:+ Js.join "/" names)
       else Ok (Stated.ofSegments (rs ++ names)))
    /\ Stated.inAncestorChain (Stated.ofSegments rs) (Stated.ofSegments (rs ++ names)) = true.
Proof.
  intros cwd rs names Hrs Hnames. split.
  - unfold Retrieve.resolveSafePath. rewrite resolve_inside by assumption.
    unfold Stated.ofSegments at 1 2.
    replace (Js.startsWith ("/" +:+ Js.join "/" (rs ++ names)) ("/" +:+ Js.join "/" rs))
      with true; [reflexivity|].
    symmetry. apply (startsWith_behind "/"), join_app_prefix.
  - unfold Stated.inAncestorChain, Stated.ancestors, Js.member.
    apply existsb_exists. exists (Stated.ofSegments rs).
    split; [|now apply bool_decide_eq_true_2].
    apply in_map. unfold Stated.segments, Stated.ofSegments.
    change ("/" +:+ Js.join "/" (rs ++ names))
      with ("" +:+ String NodePath.sep (Js.join "/" (rs ++ names))).
    rewrite split_append_sep, filter_app. cbn [Js.split].
    rewrite filter_cons_False by (intros H; now apply H). rewrite filter_nil.
    destruct (pieces_of_join (rs ++ names)) as [_ ->];
      [apply Forall_app; now split|].
    cbn [app]. apply (prefixes_app rs names).
Qed.

Lemma resolveSafePath_inside_root_witness :
  Retrieve.resolveSafePath "/home/u" "/repo" "src/a.ts" = Ok "/repo/src/a.ts"
  /\ Stated.inAncestorChain "/repo" "/repo/src/a.ts" = true.
Proof.
  apply (resolveSafePath_inside_root "/home/u" ["repo"] ["src"; "a.ts"]);
    repeat constructor; discriminate.
Defined.

(** ** Bounded reads *)

Section Bounded.

Lemma append_nil_r (s : string) : s +:+ "" = s.
Proof. induction s as [|c s IH]; cbn; [reflexivity | now rewrite IH]. Qed.

Lemma take_length (n : nat) (s : string) :
  String.length (Js.take n s) = Nat.min n (String.length s).
Proof.
  revert s; induction n as [|n IH]; intros [|c s]; cbn; try reflexivity.
  now rewrite IH.
Qed.

Lemma take_drop (n : nat) (s : string) : s = Js.take n s +:+ Js.drop n s.
Proof.
  revert s; induction n as [|n IH]; intros [|c s]; cbn; try reflexivity.
  now rewrite <- IH.
Qed.

Lemma take_all (n : nat) (s : string) : String.length s <= n -> Js.take n s = s.
Proof.
  revert s; induction n as [|n IH]; intros [|c s] H; cbn in *; try reflexivity; try lia.
  rewrite IH by lia. reflexivity.
Qed.

Lemma take_take_append (n : nat) (a b : string) :
  Js.take n (Js.take n a +:+ b) = Js.take n (a +:+ b).
Proof.
  revert a; induction n as [|n IH]; intros a.
  - destruct (Js.take 0 a +:+ b), (a +:+ b); reflexivity.
  - destruct a as [|c a]; [reflexivity|]. cbn. now rewrite IH.
Qed.

Lemma collect_from (chunks : list string) (acc : string) :
  fold_left (fun acc chunk =>
               let acc' := acc +:+ chunk in
               if (10000 <? N.of_nat (String.length acc'))%N
               then Js.take (N.to_nat 10000) acc' else acc')
            chunks (Js.take (N.to_nat 10000) acc)
  = Js.take (N.to_nat 10000) (acc +:+ Stated.chunkTexts chunks).
Proof.
  revert acc. induction chunks as [|chunk chunks IH]; intros acc.
  - cbn [fold_left Stated.chunkTexts fold_right]. now rewrite append_nil_r.
  - cbn [fold_left Stated.chunkTexts fold_right].
    fold (Stated.chunkTexts chunks).
    replace (if (10000 <? N.of_nat (String.length (Js.take (N.to_nat 10000) acc +:+ chunk)))%N
             then Js.take (N.to_nat 10000) (Js.take (N.to_nat 10000) acc +:+ chunk)
             else Js.take (N.to_nat 10000) acc +:+ chunk)
      with (Js.take (N.to_nat 10000) (acc +:+ chunk)).
    + rewrite IH. now rewrite append_assoc.
    + rewrite <- take_take_append.
      destruct (N.ltb_spec 10000 (N.of_nat (String.length (Js.take (N.to_nat 10000) acc +:+ chunk))))
        as [Hlt|Hge]; [reflexivity|].
      apply take_all. lia.
Qed.

End Bounded.

(** X6: [readFileCapped] throws exactly when the file is not on the disk;
    otherwise it returns a prefix of the decoded text that has as many code
    units as the text or as the limit, whichever is less, so the whole text
    when that is within the limit. *)
Theorem readFileCapped_bounds :
  forall (fs : Retrieve.disk) (filePath : string) (limit : N),
    match fs filePath with
    | None => exists m, Retrieve.readFileCapped fs filePath limit = Throw m
    | Some bytes =>
        exists content rest : list N,
          Retrieve.readFileCapped fs filePath limit = Ok content
          /\ Retrieve.decodeUtf8 bytes = content ++ rest
          /\ Stated.units content = N.min (Stated.units (Retrieve.decodeUtf8 bytes)) limit
          /\ ((Stated.units (Retrieve.decodeUtf8 bytes) <= limit)%N -> rest = [])
    end.
Proof.
  intros fs filePath limit. unfold Retrieve.readFileCapped, Retrieve.readFile.
  destruct (fs filePath) as [bytes|]; cbn [bind]; [|eauto].
  set (data := Retrieve.decodeUtf8 bytes). unfold Stated.units.
  destruct (N.leb_spec (N.of_nat (length data)) limit) as [Hle|Hgt].
  - exists data, []. rewrite app_nil_r. repeat split. lia.
  - exists (firstn (N.to_nat limit) data), (skipn (N.to_nat limit) data).
    split; [reflexivity|]. split; [now rewrite firstn_skipn|].
    split; [rewrite length_firstn; lia | lia].
Qed.

Section AllOrNothing.

Lemma readFilesLoop_readable (fs : Retrieve.disk) (cwd root : string) (files : list string) :
  forall acc results : gmap string (list N),
    Retrieve.readFilesLoop fs cwd root files acc = Ok results ->
    Forall (Stated.readable fs cwd root) files.
Proof.
  induction files as [|f more IH]; intros acc results H; [constructor|].
  cbn [Retrieve.readFilesLoop] in H.
  destruct (Retrieve.resolveSafePath cwd root f) as [resolved|] eqn:Hres; [|discriminate].
  cbn [bind] in H. unfold Retrieve.readFileCapped, Retrieve.readFile in H.
  destruct (fs resolved) as [bytes|] eqn:Hfs; [|discriminate].
  cbn [bind] in H. constructor.
  - now exists resolved, bytes.
  - destruct (N.of_nat (length (Retrieve.decodeUtf8 bytes)) <=? 60000)%N;
      cbn [bind] in H; eapply IH; exact H.
Qed.

Lemma readFilesLoop_first_failure (fs : Retrieve.disk) (cwd root : string)
      (before : list string) (file : string) (after : list string) (m : string) :
  Forall (Stated.readable fs cwd root) before ->
  Retrieve.resolveSafePath cwd root file = Throw m ->
  forall acc, Retrieve.readFilesLoop fs cwd root (before ++ file :: after) acc = Throw m.
Proof.
  intros Hbefore Hfile.
  induction Hbefore as [|f more (resolved & bytes & Hres & Hfs) _ IH]; intros acc.
  - cbn [app Retrieve.readFilesLoop]. now rewrite Hfile.
  - cbn [app Retrieve.readFilesLoop]. rewrite Hres. cbn [bind].
    unfold Retrieve.readFileCapped, Retrieve.readFile. rewrite Hfs. cbn [bind].
    destruct (N.of_nat (length (Retrieve.decodeUtf8 bytes)) <=? 60000)%N; cbn [bind];
      apply IH.
Qed.

End AllOrNothing.

(** X7: [readFilesSafe] returns a mapping exactly when every requested
    path passes the safety boundary and names a file of the disk; when the
    first path that does not is refused by the boundary, the call throws
    the error of the boundary for that path, whatever follows it in the
    list. *)
Theorem readFilesSafe_all_or_nothing :
  forall (fs : Retrieve.disk) (cwd root : string) (files : list string),
    ((exists results, Retrieve.readFilesSafe fs cwd root files = Ok results)
     <-> Forall (Stated.readable fs cwd root) files)
    /\ (forall (before : list string) (file : string) (after : list string) (m : string),
          files = before ++ file :: after ->
          Forall (Stated.readable fs cwd root) before ->
          Retrieve.resolveSafePath cwd root file = Throw m ->
          Retrieve.readFilesSafe fs cwd root files = Throw m).
Proof.
  intros fs cwd root files. unfold Retrieve.readFilesSafe. split.
  - split.
    + intros [results H]. eapply readFilesLoop_readable, H.
    + intros H. now apply readFilesLoop_returns.
  - intros before file after m -> Hbefore Hfile.
    now apply readFilesLoop_first_failure.
Qed.

Lemma readFilesSafe_all_or_nothing_witness :
  Retrieve.readFilesSafe (Sample.diskWith "/repo/notes.txt" Sample.asciiBytes) "/" "/repo"
    ["notes.txt"; ".env"; "later.txt"]
  = Throw "Refusing to access sensitive path: .env".
Proof.
  destruct (readFilesSafe_all_or_nothing
              (Sample.diskWith "/repo/notes.txt" Sample.asciiBytes) "/" "/repo"
              ["notes.txt"; ".env"; "later.txt"]) as [_ H].
  apply (H ["notes.txt"] ".env" ["later.txt"]).
  - reflexivity.
  - constructor; [|constructor]. exists "/repo/notes.txt", Sample.asciiBytes.
    split; [vm_compute; reflexivity | reflexivity].
  - vm_compute. reflexivity.
Defined.

(** X8: [searchRepo] throws when the search tool is rejected and otherwise
    returns the first 20000 code units of its output: a prefix of the
    output, at most 20000 units long, the whole output when that is no
    longer.  The tool is run in the root, with the token and [.] as its last
    two arguments. *)
Theorem searchRepo_bounded :
  forall (rg : list string -> string -> result string) (root token : string),
    (exists options, Retrieve.searchArgs token = options ++ [token; "."])
    /\ match rg (Retrieve.searchArgs token) root with
       | Throw m => Retrieve.searchRepo rg root token = Throw m
       | Ok stdout =>
           exists out rest : string,
             Retrieve.searchRepo rg root token = Ok out
             /\ stdout = out +:+ rest
             /\ N.of_nat (String.length out)
                = N.min 20000 (N.of_nat (String.length stdout))
       end.
Proof.
  intros rg root token. split.
  - unfold Retrieve.searchArgs. rewrite app_assoc. eauto.
  - unfold Retrieve.searchRepo.
    destruct (rg (Retrieve.searchArgs token) root) as [stdout|m]; cbn [bind]; [|reflexivity].
    exists (Js.take (N.to_nat 20000) stdout), (Js.drop (N.to_nat 20000) stdout).
    split; [reflexivity|]. split; [apply take_drop|].
    rewrite take_length. lia.
Qed.

(** ** The external process *)

Section Chunks.

Lemma chunkTexts_app (a b : list string) :
  Stated.chunkTexts (a ++ b) = Stated.chunkTexts a +:+ Stated.chunkTexts b.
Proof.
  induction a as [|x a IH]; [reflexivity|].
  cbn [app Stated.chunkTexts fold_right]. fold (Stated.chunkTexts (a ++ b)).
  fold (Stated.chunkTexts a). now rewrite IH, append_assoc.
Qed.

Lemma take_front (n : nat) (a b : string) :
  n <= String.length a -> Js.take n (a +:+ b) = Js.take n a.
Proof.
  revert a; induction n as [|n IH]; intros a H.
  - destruct a, b; reflexivity.
  - destruct a as [|c a]; cbn [String.length] in H; [lia|].
    cbn. rewrite IH by lia. reflexivity.
Qed.

Lemma collectStderr_kept (chunks : list string) :
  Patch.collectStderr chunks = Js.take (N.to_nat 10000) (Stated.chunkTexts chunks).
Proof.
  unfold Patch.collectStderr.
  change "" with (Js.take (N.to_nat 10000) "") at 1.
  now rewrite collect_from.
Qed.

End Chunks.

(** X9: the text kept from the standard error of the child is the first
    10000 code units of the texts of the chunks put one after the other,
    each chunk being turned into a text on its own: cutting after each
    chunk gives what one cut at the end gives.  The text kept is never
    longer than 10000 units, and once the chunks received hold 10000 units
    no later chunk changes it. *)
Theorem collectStderr_keeps_first_units :
  forall chunks : list string,
    Patch.collectStderr chunks = Js.take (N.to_nat 10000) (Stated.chunkTexts chunks)
    /\ (N.of_nat (String.length (Patch.collectStderr chunks)) <= 10000)%N
    /\ (forall later : list string,
          (10000 <= N.of_nat (String.length (Stated.chunkTexts chunks)))%N ->
          Patch.collectStderr (chunks ++ later) = Patch.collectStderr chunks).
Proof.
  intros chunks. split; [apply collectStderr_kept|]. split.
  - rewrite collectStderr_kept, take_length. lia.
  - intros later H. rewrite !collectStderr_kept, chunkTexts_app.
    apply take_front. lia.
Qed.

Section Trim.

Lemma trimStart_length (s : string) : String.length (Js.trimStart s) <= String.length s.
Proof.
  induction s as [|c s IH]; [reflexivity|]. cbn.
  destruct (Js.isWhiteSpace c); cbn; lia.
Qed.

Lemma trimEnd_length (s : string) : String.length (Js.trimEnd s) <= String.length s.
Proof.
  induction s as [|c s IH]; [reflexivity|]. cbn.
  destruct (Js.trimEnd s) as [|d t]; [destruct (Js.isWhiteSpace c); cbn; lia|].
  cbn in *. lia.
Qed.

Lemma trim_length (s : string) : String.length (Js.trim s) <= String.length s.
Proof.
  unfold Js.trim. pose proof (trimEnd_length (Js.trimStart s)).
  pose proof (trimStart_length s). lia.
Qed.

End Trim.

(** X10: [applyViaStdin] starts exactly one process, [git apply] on the
    diff in the root.  Its promise is fulfilled exactly when that process
    closes with the code 0.  When the process cannot be started the error
    is that of the process.  When it closes otherwise, the error says
    [Failed to apply patch.] followed by the first 10000 code units of the
    texts of the chunks of its standard error, trimmed, or, when nothing is
    left of them, by the sentence that gives the exit code, [unknown] when
    there is none. *)
Theorem applyViaStdin_outcome :
  forall (git : Patch.spawnCall -> Patch.processRun) (diff root : string),
    let call := {| Patch.command := "git"; Patch.args := ["apply"; "--whitespace=nowarn"; "-"];
                   Patch.cwd := root; Patch.stdin := diff |} in
    let kept :=
      Js.trim (Js.take (N.to_nat 10000) (Stated.chunkTexts (Patch.stderrChunks (git call)))) in
    snd (Patch.applyViaStdin git diff root) = [call]
    /\ (fst (Patch.applyViaStdin git diff root) = Ok tt
        <-> Patch.ended (git call) = Patch.Closed (Some 0%Z))
    /\ (forall m, Patch.ended (git call) = Patch.Errored m ->
        fst (Patch.applyViaStdin git diff root) = Throw m)
    /\ (forall code, Patch.ended (git call) = Patch.Closed code -> code <> Some 0%Z ->
        fst (Patch.applyViaStdin git diff root)
        = Throw ("Failed to apply patch. "
                 +:+ (if bool_decide (kept = "")
                      then "git apply exited with code "
                           +:+ match code with
                               | Some c => Js.showInt c
                               | None => "unknown"
                               end +:+ "."
                      else kept))
        /\ (N.of_nat (String.length kept) <= 10000)%N).
Proof.
  intros git diff root call kept. unfold Patch.applyViaStdin. fold call. cbn [fst snd].
  split; [reflexivity|]. split; [|split].
  - destruct (Patch.ended (git call)) as [m|[[|p|p]|]]; split; intros H;
      try discriminate H; reflexivity.
  - intros m ->. reflexivity.
  - intros code Hend Hcode. rewrite Hend.
    rewrite collectStderr_kept. fold kept. split.
    + destruct code as [[|p|p]|]; try reflexivity. now contradiction Hcode.
    + pose proof (trim_length
                    (Js.take (N.to_nat 10000)
                       (Stated.chunkTexts (Patch.stderrChunks (git call))))) as H.
      fold kept in H. rewrite take_length in H. lia.
Qed.

Lemma applyViaStdin_outcome_witness :
  fst (Patch.applyViaStdin Sample.gitRejects Sample.deletingDiff "/repo")
  = Throw "Failed to apply patch. error: patch failed".
Proof.
  destruct (applyViaStdin_outcome Sample.gitRejects Sample.deletingDiff "/repo")
    as (_ & _ & _ & H).
  destruct (H (Some 1%Z)) as [Hthrow _]; [reflexivity | discriminate|].
  rewrite Hthrow. vm_compute. reflexivity.
Defined.

(** ** More on the patch guard *)

Section Allowlist.

Lemma checkFiles_allowlist (exts : list string) (files : list string) :
  Patch.checkFiles (Some exts) files = Ok tt ->
  Forall (fun file => exists ext, In ext exts /\ Js.endsWith file ext = true) files.
Proof.
  induction files as [|f more IH]; [constructor|]. cbn [Patch.checkFiles].
  destruct (Retrieve.isSensitivePath f); [discriminate|].
  destruct (Retrieve.containsIgnoredSegment f); [discriminate|].
  destruct (existsb (fun ext => Js.endsWith f ext) exts) eqn:Hex; cbn [negb];
    [|discriminate].
  intros H. constructor; [|now apply IH].
  apply existsb_exists in Hex as (ext & Hin & Hend). now exists ext.
Qed.

End Allowlist.

(** X11: when an extension allowlist is given, [applyPatch] starts the
    external process only if every name it extracted from the diff ends
    with one of the allowed extensions; with an empty allowlist nothing is
    ever applied. *)
Theorem applyPatch_respects_allowlist :
  forall (git : Patch.spawnCall -> Patch.processRun) (diff : string)
         (options : Patch.PatchOptions) (exts : list string),
    Patch.allowedExtensions options = Some exts ->
    (snd (Patch.applyPatch git diff options) <> [] ->
     Forall (fun file => exists ext, In ext exts /\ Js.endsWith file ext = true)
            (Patch.extractFilesFromDiff diff))
    /\ (exts = [] -> snd (Patch.applyPatch git diff options) = []
                     /\ exists m, fst (Patch.applyPatch git diff options) = Throw m).
Proof.
  intros git diff options exts Hexts.
  assert (Hmain : snd (Patch.applyPatch git diff options) <> [] ->
                  Patch.extractFilesFromDiff diff <> []
                  /\ Forall (fun file => exists ext, In ext exts /\ Js.endsWith file ext = true)
                            (Patch.extractFilesFromDiff diff)).
  { unfold Patch.applyPatch. rewrite Hexts.
    destruct (Patch.extractFilesFromDiff diff) as [|f files] eqn:Hfiles;
      [intros H; now contradiction H|].
    cbn [length Nat.eqb].
    destruct (Patch.checkFiles (Some exts) (f :: files)) as [[]|m] eqn:Hcheck;
      [|intros H; now contradiction H].
    intros _. split; [discriminate|]. now apply checkFiles_allowlist. }
  split; [intros H; now apply Hmain|].
  intros ->.
  destruct (Stated.checksPass diff options) eqn:Hpass.
  - exfalso. rewrite (applyPatch_checks_pass git _ _ Hpass) in Hmain.
    destruct Hmain as [Hne Hall]; [discriminate|].
    destruct (Patch.extractFilesFromDiff diff) as [|f files]; [now apply Hne|].
    apply Forall_inv in Hall. destruct Hall as (ext & [] & _).
  - now apply applyPatch_checks_fail.
Qed.

Lemma applyPatch_respects_allowlist_witness :
  Forall (fun file => exists ext, In ext [".md"; ".mdx"] /\ Js.endsWith file ext = true)
         (Patch.extractFilesFromDiff "diff --git a/README.md b/README.md").
Proof.
  destruct (applyPatch_respects_allowlist Sample.gitSucceeds
              "diff --git a/README.md b/README.md"
              {| Patch.root := "/repo"; Patch.allowDelete := None;
                 Patch.allowedExtensions := Some [".md"; ".mdx"] |}
              [".md"; ".mdx"] eq_refl) as [H _].
  apply H. vm_compute. discriminate.
Defined.




(** ** Payload validators *)

(** Decides the comparisons of property names left by a lookup. *)
Ltac decide_names :=
  repeat match goal with
         | |- context [bool_decide (?a = ?b)] =>
             let v := eval vm_compute in (bool_decide (a = b)) in
             change (bool_decide (a = b)) with v
         end;
  cbv iota.

Section Validators.

Lemma stringItems_map (l : list string) :
  Schema.stringItems (map Schema.JString l) = Some l.
Proof. induction l as [|s l IH]; cbn; [reflexivity | now rewrite IH]. Qed.

Lemma stringItems_inv (items : list Schema.json) (l : list string) :
  Schema.stringItems items = Some l -> items = map Schema.JString l.
Proof.
  revert l; induction items as [|item items IH]; intros l H; cbn in H.
  - now injection H as <-.
  - destruct item; try discriminate H.
    destruct (Schema.stringItems items) as [rest|]; [|discriminate H].
    injection H as <-. cbn. now rewrite (IH rest).
Qed.

Lemma stringArray_encoded (l : list string) :
  Schema.stringArray (Some (Stated.stringsToJson l)) = Some l.
Proof. apply stringItems_map. Qed.

Lemma requiredStrings_inv (value : option Schema.json) (message : string) (l : list string) :
  Schema.requiredStrings value message = Ok l -> value = Some (Stated.stringsToJson l).
Proof.
  unfold Schema.requiredStrings, Schema.stringArray.
  destruct value as [[| | | |items|]|]; try discriminate.
  destruct (Schema.stringItems items) as [l'|] eqn:E; [|discriminate].
  intros H. injection H as <-. unfold Stated.stringsToJson.
  now rewrite (stringItems_inv _ _ E).
Qed.

Lemma optionalStrings_inv (value : option Schema.json) (message : string)
      (field : option (list string)) :
  Schema.optionalStrings value message = Ok field ->
  value = option_map Stated.stringsToJson field.
Proof.
  unfold Schema.optionalStrings. destruct value as [v|].
  - destruct (Schema.stringArray (Some v)) as [l|] eqn:E; [|discriminate].
    intros H. injection H as <-. cbn.
    apply (requiredStrings_inv (Some v) ""). unfold Schema.requiredStrings. now rewrite E.
  - intros H. now injection H as <-.
Qed.

Lemma optionalString_inv (value : option Schema.json) (message : string)
      (field : option string) :
  Schema.optionalString value message = Ok field ->
  value = option_map Schema.JString field.
Proof.
  unfold Schema.optionalString.
  destruct value as [[| | |s| |]|]; try discriminate; intros H; now injection H as <-.
Qed.

Lemma requiredStrings_encoded (l : list string) (message : string) :
  Schema.requiredStrings (Some (Stated.stringsToJson l)) message = Ok l.
Proof. unfold Schema.requiredStrings. now rewrite stringArray_encoded. Qed.

Lemma optionalStrings_encoded (field : option (list string)) (message : string) :
  Schema.optionalStrings (option_map Stated.stringsToJson field) message = Ok field.
Proof.
  destruct field as [l|]; [|reflexivity]. unfold Schema.optionalStrings. cbn [option_map].
  now rewrite stringArray_encoded.
Qed.

End Validators.

(** X14: [validatePlan] accepts the object made of the fields of any plan
    and gives that plan back.  Whenever it accepts a value, the value has
    the goal of the plan as a string, its steps and acceptance as arrays of
    strings, and each optional field either absent, with the plan holding
    none, or an array of strings, with the plan holding these: a [null] or
    an array with another kind of item is never accepted. *)
Theorem validatePlan_round_trip :
  (forall p : Schema.Plan, Schema.validatePlan (Stated.planToJson p) = Ok p)
  /\ (forall (value : Schema.json) (p : Schema.Plan),
        Schema.validatePlan value = Ok p ->
        Schema.getProperty value "goal" = Some (Schema.JString (Schema.goal p))
        /\ Schema.getProperty value "steps" = Some (Stated.stringsToJson (Schema.steps p))
        /\ Schema.getProperty value "acceptance"
           = Some (Stated.stringsToJson (Schema.acceptance p))
        /\ Stated.optionalArrayIn value "read" (Schema.read p)
        /\ Stated.optionalArrayIn value "search" (Schema.search p)
        /\ Stated.optionalArrayIn value "edit" (Schema.edit p)
        /\ Stated.optionalArrayIn value "commands" (Schema.commands p)).
Proof.
  split.
  - intros [goal steps read search edit commands acceptance].
    unfold Schema.validatePlan, Stated.planToJson.
    cbn [Schema.notAnObject Schema.goal Schema.steps Schema.read Schema.search Schema.edit
           Schema.commands Schema.acceptance].
    destruct read, search, edit, commands;
      cbn [Stated.optionalField app Schema.getProperty Schema.lookupField];
      decide_names;
      cbn [Schema.optionalStrings];
      rewrite ?requiredStrings_encoded, ?stringArray_encoded; reflexivity.
  - intros value p. unfold Schema.validatePlan, Stated.optionalArrayIn.
    destruct (Schema.notAnObject value); [discriminate|].
    destruct (Schema.getProperty value "goal") as [[| | |g| |]|]; try discriminate.
    destruct (Schema.requiredStrings (Schema.getProperty value "steps") _)
      as [steps|] eqn:Hsteps; [|discriminate]. cbn [bind].
    destruct (Schema.requiredStrings (Schema.getProperty value "acceptance") _)
      as [acceptance|] eqn:Hacc; [|discriminate]. cbn [bind].
    destruct (Schema.optionalStrings (Schema.getProperty value "read") _)
      as [read|] eqn:Hread; [|discriminate]. cbn [bind].
    destruct (Schema.optionalStrings (Schema.getProperty value "search") _)
      as [search|] eqn:Hsearch; [|discriminate]. cbn [bind].
    destruct (Schema.optionalStrings (Schema.getProperty value "edit") _)
      as [edit|] eqn:Hedit; [|discriminate]. cbn [bind].
    destruct (Schema.optionalStrings (Schema.getProperty value "commands") _)
      as [commands|] eqn:Hcommands; [|discriminate]. cbn [bind].
    intros H. injection H as <-.
    cbn [Schema.goal Schema.steps Schema.read Schema.search Schema.edit
           Schema.commands Schema.acceptance].
    apply requiredStrings_inv in Hsteps, Hacc.
    apply optionalStrings_inv in Hread, Hsearch, Hedit, Hcommands.
    repeat split; assumption.
Qed.

(** X15: [validateCodeReview] accepts the object made of the fields of any
    code review and gives that review back; whenever it accepts a value,
    the value has the blocking and the non-blocking issues as arrays of
    strings and its notes, when present, are a string. *)
Theorem validateCodeReview_round_trip :
  (forall r : Schema.CodeReview,
     Schema.validateCodeReview (Stated.codeReviewToJson r) = Ok r)
  /\ (forall (value : Schema.json) (r : Schema.CodeReview),
        Schema.validateCodeReview value = Ok r ->
        Schema.getProperty value "blocking" = Some (Stated.stringsToJson (Schema.blocking r))
        /\ Schema.getProperty value "nonBlocking"
           = Some (Stated.stringsToJson (Schema.nonBlocking r))
        /\ Schema.getProperty value "notes" = option_map Schema.JString (Schema.codeNotes r)).
Proof.
  split.
  - intros [blocking nonBlocking notes].
    unfold Schema.validateCodeReview, Stated.codeReviewToJson.
    cbn [Schema.notAnObject Schema.blocking Schema.nonBlocking Schema.codeNotes].
    destruct notes;
      cbn [Stated.optionalField app Schema.getProperty Schema.lookupField];
      decide_names;
      rewrite ?requiredStrings_encoded; reflexivity.
  - intros value r. unfold Schema.validateCodeReview.
    destruct (Schema.notAnObject value); [discriminate|].
    destruct (Schema.requiredStrings (Schema.getProperty value "blocking") _)
      as [blocking|] eqn:Hb; [|discriminate]. cbn [bind].
    destruct (Schema.requiredStrings (Schema.getProperty value "nonBlocking") _)
      as [nonBlocking|] eqn:Hn; [|discriminate]. cbn [bind].
    destruct (Schema.optionalString (Schema.getProperty value "notes") _)
      as [notes|] eqn:Hnotes; [|discriminate]. cbn [bind].
    intros H. injection H as <-.
    cbn [Schema.blocking Schema.nonBlocking Schema.codeNotes].
    apply requiredStrings_inv in Hb, Hn. apply optionalString_inv in Hnotes.
    repeat split; assumption.
Qed.

(** X16: [validateTextReview] accepts the object made of the fields of any
    text review and gives that review back; whenever it accepts a value,
    the value has the issues as an array of strings, and its improvements
    and notes, when present, are an array of strings and a string. *)
Theorem validateTextReview_round_trip :
  (forall r : Schema.TextReview,
     Schema.validateTextReview (Stated.textReviewToJson r) = Ok r)
  /\ (forall (value : Schema.json) (r : Schema.TextReview),
        Schema.validateTextReview value = Ok r ->
        Schema.getProperty value "issues" = Some (Stated.stringsToJson (Schema.issues r))
        /\ Stated.optionalArrayIn value "improvements" (Schema.improvements r)
        /\ Schema.getProperty value "notes" = option_map Schema.JString (Schema.textNotes r)).
Proof.
  split.
  - intros [issues improvements notes].
    unfold Schema.validateTextReview, Stated.textReviewToJson.
    cbn [Schema.notAnObject Schema.issues Schema.improvements Schema.textNotes].
    destruct improvements, notes;
      cbn [Stated.optionalField app Schema.getProperty Schema.lookupField];
      decide_names;
      cbn [Schema.optionalStrings];
      rewrite ?requiredStrings_encoded, ?stringArray_encoded; reflexivity.
  - intros value r. unfold Schema.validateTextReview, Stated.optionalArrayIn.
    destruct (Schema.notAnObject value); [discriminate|].
    destruct (Schema.requiredStrings (Schema.getProperty value "issues") _)
      as [issues|] eqn:Hi; [|discriminate]. cbn [bind].
    destruct (Schema.optionalStrings (Schema.getProperty value "improvements") _)
      as [improvements|] eqn:Himp; [|discriminate]. cbn [bind].
    destruct (Schema.optionalString (Schema.getProperty value "notes") _)
      as [notes|] eqn:Hnotes; [|discriminate]. cbn [bind].
    intros H. injection H as <-.
    cbn [Schema.issues Schema.improvements Schema.textNotes].
    apply requiredStrings_inv in Hi. apply optionalStrings_inv in Himp.
    apply optionalString_inv in Hnotes.
    repeat split; assumption.
Qed.

(** ** Classification of a task *)

Lemma validateClassification_taskType (value : Schema.json) (c : Schema.Classification) :
  Schema.validateClassification value = Ok c -> In (Schema.taskType c) Schema.TASK_TYPES.
Proof.
  unfold Schema.validateClassification.
  destruct (Schema.notAnObject value); [discriminate|].
  destruct (Schema.getProperty value "taskType") as [[| | |t| |]|]; try discriminate.
  destruct (Schema.isTaskType (Some (Schema.JString t))) eqn:Ht; [|discriminate].
  cbn [negb].
  destruct (Schema.getProperty value "confidence") as [[| |n| | |]|]; try discriminate.
  destruct (Schema.getProperty value "notes") as [[| | |s| |]|]; try discriminate.
  intros H. injection H as <-. apply member_In, Ht.
Qed.

(** X17: whatever the prompt, the answer of the backend and the parser,
    a classification returned by [classifyTask] has a task type of the
    closed set and is what [validateClassification] makes of the parsed
    answer; an answer that does not parse makes [classifyTask] throw an
    error that starts with [Classifier output must be valid JSON.]. *)
Theorem classifyTask_closed_set :
  forall (readPrompt : string -> result string)
         (callCodex : string -> string -> result string)
         (JSON_parse : string -> result Schema.json) (task : string),
    (forall c : Schema.Classification,
       Classify.classifyTask readPrompt callCodex JSON_parse task = Ok c ->
       In (Schema.taskType c) Schema.TASK_TYPES
       /\ exists prompt raw value,
            readPrompt "classify.txt" = Ok prompt
            /\ callCodex prompt task = Ok raw
            /\ JSON_parse raw = Ok value
            /\ Schema.validateClassification value = Ok c)
    /\ (forall prompt raw m,
          readPrompt "classify.txt" = Ok prompt -> callCodex prompt task = Ok raw ->
          JSON_parse raw = Throw m ->
          Classify.classifyTask readPrompt callCodex JSON_parse task
          = Throw ("Classifier output must be valid JSON. " +:+ m)).
Proof.
  intros readPrompt callCodex JSON_parse task. unfold Classify.classifyTask. split.
  - intros c.
    destruct (readPrompt "classify.txt") as [prompt|] eqn:Hprompt; [|discriminate].
    cbn [bind].
    destruct (callCodex prompt task) as [raw|] eqn:Hraw; [|discriminate]. cbn [bind].
    unfold Schema.parseJson.
    destruct (JSON_parse raw) as [value|] eqn:Hparse; [|discriminate]. cbn [bind].
    intros H. split; [eapply validateClassification_taskType, H|].
    exists prompt, raw, value. repeat split; assumption.
  - intros prompt raw m Hprompt Hraw Hparse.
    rewrite Hprompt. cbn [bind]. rewrite Hraw. cbn [bind].
    unfold Schema.parseJson. now rewrite Hparse.
Qed.

Lemma classifyTask_closed_set_witness :
  In "docs.write" Schema.TASK_TYPES.
Proof.
  destruct (classifyTask_closed_set (fun _ => Ok "Classify the task.")
              (fun _ _ => Ok "{}") (fun _ => Ok (Sample.payload "docs.write"))
              "fix the typo in README.md") as [H _].
  apply (H {| Schema.taskType := "docs.write";
              Schema.confidence := {| Schema.mantissa := 9; Schema.exponent := -1 |};
              Schema.notes := "touches one file" |}).
  reflexivity.
Defined.

(** ** Bounds of the verification loop *)

Section VerifyBounds.
Variable World : Type.
Variable runCommand :
  string -> string -> World -> result Orchestrator.CommandResult * World.
Variable extractFilePaths : string -> list string.
Variable diskOf : World -> Retrieve.disk.
Variable readPrompt : string -> World -> result string.
Variable callCodex : string -> Orchestrator.FixRequest -> World -> result string * World.
Variable spawnGit : World -> Patch.spawnCall -> Patch.processRun.
Variable afterSpawn : World -> Patch.spawnCall -> World.
Variable cwd : string.

#[local] Abbreviation fixFailure :=
  (Orchestrator.fixFailure World extractFilePaths diskOf readPrompt callCodex spawnGit
     afterSpawn cwd).
#[local] Abbreviation run := (Orchestrator.run World runCommand).
#[local] Abbreviation runAll := (Orchestrator.runAll World runCommand).
#[local] Abbreviation attemptCommands :=
  (Orchestrator.attemptCommands World runCommand extractFilePaths diskOf readPrompt
     callCodex spawnGit afterSpawn cwd).
#[local] Abbreviation attempts :=
  (Orchestrator.attempts World runCommand extractFilePaths diskOf readPrompt callCodex
     spawnGit afterSpawn cwd).
#[local] Abbreviation verifyCommands :=
  (Orchestrator.verifyCommands World runCommand extractFilePaths diskOf readPrompt
     callCodex spawnGit afterSpawn cwd).
#[local] Abbreviation countAttempts := Orchestrator.countAttempts.
#[local] Abbreviation countFixes := Orchestrator.countFixes.
#[local] Abbreviation runsClean := (Stated.runsClean World runCommand).

Lemma added_join (s1 s2 s3 : Orchestrator.state World) (e1 e2 : list Orchestrator.event) :
  Stated.added s1 s2 e1 -> Stated.added s2 s3 e2 -> Stated.added s1 s3 (e1 ++ e2).
Proof. unfold Stated.added. intros H1 H2. now rewrite H2, H1, app_assoc. Qed.

Lemma count_runs (commands : list string) :
  countAttempts (map Orchestrator.CommandRun commands) = 0
  /\ countFixes (map Orchestrator.CommandRun commands) = 0.
Proof. induction commands as [|c commands [IH1 IH2]]; split; auto. Qed.

Lemma fixFailure_bound (root task : string) (plan : Schema.Plan) (diff command : string)
      (r : Orchestrator.CommandResult) (s : Orchestrator.state World) :
  exists extra,
    Stated.added s (snd (fixFailure root task plan diff command r s)) extra
    /\ countAttempts extra = 0 /\ countFixes extra <= 1.
Proof.
  destruct (fixFailure_trace World extractFilePaths diskOf readPrompt callCodex spawnGit
              afterSpawn cwd root task plan diff command r s) as (extra & Hadd & Ha & Hf).
  exists extra. split; [exact Hadd|]. split; [exact Ha|].
  revert Hadd Hf. unfold Orchestrator.fixFailure, Orchestrator.bindM.
  set (safeFiles := List.filter _ _).
  set (readContext := if (0 <? length safeFiles)%nat then _ else _).
  assert (Hctx : snd (readContext s) = s).
  { unfold readContext. destruct (0 <? length safeFiles)%nat; reflexivity. }
  unfold Stated.added.
  destruct (readContext s) as [[context|m] s0]; cbn [snd] in Hctx; subst s0.
  2:{ cbn. intros H _. apply (f_equal (@length _)) in H. rewrite length_app in H.
      destruct extra; [cbn; lia | cbn in H; lia]. }
  unfold Orchestrator.look. cbn beta.
  destruct (readPrompt "fixer.code.txt" (Orchestrator.world s)) as [prompt|m].
  2:{ cbn. intros H _. apply (f_equal (@length _)) in H. rewrite length_app in H.
      destruct extra; [cbn; lia | cbn in H; lia]. }
  unfold Orchestrator.emit, Orchestrator.inWorld. cbn [Orchestrator.world Orchestrator.trace].
  destruct (callCodex prompt _ (Orchestrator.world s)) as [[fixRaw|m] w'].
  2:{ cbn. intros H _. apply app_inv_head in H. subst extra. cbn. lia. }
  unfold Orchestrator.applyPatchM. cbn [Orchestrator.world Orchestrator.trace].
  destruct (Patch.applyPatch (spawnGit w') fixRaw _) as [res calls].
  cbn [fst snd Orchestrator.trace]. intros H _. rewrite <- app_assoc in H.
  apply app_inv_head in H. subst extra.
  destruct (count_spawned calls) as [_ Hc].
  change (countFixes ([Orchestrator.FixRequested command] ++ map Orchestrator.Spawned calls))
    with (S (countFixes (map Orchestrator.Spawned calls))).
  rewrite Hc. lia.
Qed.

Lemma run_inv (command root : string) (s s' : Orchestrator.state World)
      (r : result Orchestrator.CommandResult) :
  run command root s = (r, s') ->
  runCommand command root (Orchestrator.world s) = (r, Orchestrator.world s')
  /\ Stated.added s s' [Orchestrator.CommandRun command].
Proof.
  unfold Orchestrator.run, Orchestrator.bindM, Orchestrator.emit, Orchestrator.inWorld.
  cbn [Orchestrator.world Orchestrator.trace].
  destruct (runCommand command root (Orchestrator.world s)) as [res w].
  intros H. injection H as <- <-. split; reflexivity.
Qed.

Lemma attemptCommands_trace (root task : string) (plan : Schema.Plan) (diff : string)
      (commands : list string) :
  forall (s s' : Orchestrator.state World) (r : result bool),
    attemptCommands root task plan diff commands s = (r, s') ->
    (exists extra,
       Stated.added s s' extra /\ countAttempts extra = 0 /\ countFixes extra <= 1)
    /\ (r = Ok false -> runsClean commands root (Orchestrator.world s)).
Proof.
  induction commands as [|c more IH]; intros s s' r H.
  - cbn in H. injection H as <- <-. split; [|intros _; exact I].
    exists []. split; [apply added_refl | split; [reflexivity | cbn; lia]].
  - cbn [Orchestrator.attemptCommands] in H. unfold Orchestrator.bindM at 1 in H.
    destruct (run c root s) as [[res|m] s1] eqn:Hrun.
    2:{ injection H as <- <-. apply run_inv in Hrun as [_ Hadd].
        split; [|discriminate]. exists [Orchestrator.CommandRun c].
        split; [exact Hadd | split; [reflexivity | cbn; lia]]. }
    apply run_inv in Hrun as [Hcmd Hadd].
    destruct (Orchestrator.exitCode res =? 0)%Z eqn:Hexit; cbn [negb] in H.
    + destruct (IH _ _ _ H) as [(extra & Hadd' & Ha & Hf) Hclean]. split.
      * exists (Orchestrator.CommandRun c :: extra).
        split; [|split; assumption].
        unfold Stated.added in *. rewrite Hadd', Hadd. now rewrite <- app_assoc.
      * intros Hr. cbn [Stated.runsClean]. exists res, (Orchestrator.world s1).
        split; [exact Hcmd|]. split; [now apply Z.eqb_eq | now apply Hclean].
    + unfold Orchestrator.bindM, Orchestrator.ret in H.
      destruct (fixFailure_bound root task plan diff c res s1) as (extra & Hadd' & Ha & Hf).
      destruct (fixFailure root task plan diff c res s1) as [[u|m] s2];
        cbn [snd] in Hadd'; injection H as <- <-;
        (split; [|discriminate]);
        exists (Orchestrator.CommandRun c :: extra);
        (split; [|split; assumption]);
        unfold Stated.added in *; rewrite Hadd', Hadd; now rewrite <- app_assoc.
Qed.

Lemma runAll_trace (root : string) (commands : list string) :
  forall (s s' : Orchestrator.state World) (r : result bool),
    runAll commands root s = (r, s') ->
    exists n,
      Stated.added s s' (map Orchestrator.CommandRun (firstn n commands))
      /\ n <= length commands
      /\ (r = Ok true -> n = length commands)
      /\ (r = Ok true <-> runsClean commands root (Orchestrator.world s)).
Proof.
  induction commands as [|c more IH]; intros s s' r H.
  - cbn in H. injection H as <- <-. exists 0.
    split; [apply added_refl|]. split; [reflexivity|]. split; [reflexivity|].
    split; [intros _; exact I | reflexivity].
  - cbn [Orchestrator.runAll] in H. unfold Orchestrator.bindM at 1 in H.
    destruct (run c root s) as [[res|m] s1] eqn:Hrun.
    2:{ injection H as <- <-. apply run_inv in Hrun as [Hcmd Hadd]. exists 1.
        split; [exact Hadd|]. split; [cbn; lia|]. split; [discriminate|].
        split; [discriminate|].
        intros (res' & w' & Hres' & _). rewrite Hcmd in Hres'. discriminate Hres'. }
    apply run_inv in Hrun as [Hcmd Hadd].
    destruct (Orchestrator.exitCode res =? 0)%Z eqn:Hexit; cbn [negb] in H.
    + destruct (IH _ _ _ H) as (n & Hadd' & Hn & Hall & Hiff). exists (S n).
      split; [|split; [cbn; lia|split]].
      * unfold Stated.added in *. rewrite Hadd', Hadd. cbn [firstn map].
        now rewrite <- app_assoc.
      * intros Hr. cbn. now rewrite Hall.
      * rewrite Hiff. cbn [Stated.runsClean]. split.
        -- intros Hclean. exists res, (Orchestrator.world s1).
           split; [exact Hcmd|]. split; [now apply Z.eqb_eq | exact Hclean].
        -- intros (res' & w' & Hres' & _ & Hclean). rewrite Hcmd in Hres'.
           injection Hres' as <- <-. exact Hclean.
    + injection H as <- <-. exists 1.
      split; [exact Hadd|]. split; [cbn; lia|]. split; [discriminate|].
      split; [discriminate|].
      intros (res' & w' & Hres' & Hzero & _). rewrite Hcmd in Hres'.
      injection Hres' as <- <-. apply Z.eqb_neq in Hexit. contradiction.
Qed.

Lemma attempts_trace (root task : string) (plan : Schema.Plan) (diff : string)
      (commands : list string) (k : nat) :
  forall (a : nat) (s s' : Orchestrator.state World) (r : result unit),
    attempts k a root task plan diff commands s = (r, s') ->
    (exists extra,
       Stated.added s s' extra
       /\ countAttempts extra <= k /\ countFixes extra <= countAttempts extra)
    /\ (r = Ok tt -> exists w, runsClean commands root w).
Proof.
  induction k as [|k IH]; intros a s s' r H.
  - cbn in H. injection H as <- <-. split; [|discriminate].
    exists []. split; [apply added_refl | split; cbn; lia].
  - cbn [Orchestrator.attempts] in H.
    unfold Orchestrator.bindM at 1, Orchestrator.emit at 1 in H.
    set (s1 := {| Orchestrator.world := _; Orchestrator.trace := _ |}) in H.
    assert (Hadd1 : Stated.added s s1 [Orchestrator.AttemptStarted (S a)]) by reflexivity.
    unfold Orchestrator.bindM at 1 in H.
    destruct (attemptCommands root task plan diff commands s1) as [[failed|m] s2] eqn:Hattempt.
    2:{ injection H as <- <-.
        destruct (attemptCommands_trace _ _ _ _ _ _ _ _ Hattempt)
          as [(e2 & Hadd2 & Ha2 & Hf2) _].
        split; [|discriminate]. exists ([Orchestrator.AttemptStarted (S a)] ++ e2).
        split; [eapply added_join; eassumption|].
        rewrite countAttempts_app, countFixes_app, Ha2. cbn. lia. }
    destruct (attemptCommands_trace _ _ _ _ _ _ _ _ Hattempt)
      as [(e2 & Hadd2 & Ha2 & Hf2) Hclean].
    destruct failed; cbn [negb] in H.
    + unfold Orchestrator.bindM at 1 in H.
      destruct (runAll commands root s2) as [[ok|m] s3] eqn:Hrerun.
      2:{ injection H as <- <-.
          destruct (runAll_trace _ _ _ _ _ Hrerun) as (n & Hadd3 & _).
          split; [|discriminate].
          exists (([Orchestrator.AttemptStarted (S a)] ++ e2)
                    ++ map Orchestrator.CommandRun (firstn n commands)).
          split; [eapply added_join; [eapply added_join|]; eassumption|].
          rewrite !countAttempts_app, !countFixes_app, Ha2.
          destruct (count_runs (firstn n commands)) as [-> ->]. cbn. lia. }
      destruct (runAll_trace _ _ _ _ _ Hrerun) as (n & Hadd3 & _ & _ & Hiff).
      assert (Hpre : Stated.added s s3
                       (([Orchestrator.AttemptStarted (S a)] ++ e2)
                          ++ map Orchestrator.CommandRun (firstn n commands)))
        by (eapply added_join; [eapply added_join|]; eassumption).
      destruct ok.
      * injection H as <- <-. split.
        -- eexists. split; [exact Hpre|].
           rewrite !countAttempts_app, !countFixes_app, Ha2.
           destruct (count_runs (firstn n commands)) as [-> ->]. cbn. lia.
        -- intros _. exists (Orchestrator.world s2). now apply Hiff.
      * destruct (IH _ _ _ _ H) as [(e4 & Hadd4 & Ha4 & Hf4) Hok]. split; [|exact Hok].
        eexists. split; [eapply added_join; eassumption|].
        rewrite !countAttempts_app, !countFixes_app, Ha2.
        destruct (count_runs (firstn n commands)) as [-> ->]. cbn. lia.
    + injection H as <- <-. split.
      * exists ([Orchestrator.AttemptStarted (S a)] ++ e2).
        split; [eapply added_join; eassumption|].
        rewrite countAttempts_app, countFixes_app, Ha2. cbn. lia.
      * intros _. exists (Orchestrator.world s1). now apply Hclean.
Qed.

(** X18: in every world and from every state, whatever the commands, the
    backend and the patches do, [verifyCommands] starts at most three
    attempts and asks for at most one fix in each. *)
Theorem verifyCommands_bounded :
  forall (root task : string) (plan : Schema.Plan) (diff : string)
         (s : Orchestrator.state World),
  exists extra,
    Stated.added s (snd (verifyCommands root task plan diff s)) extra
    /\ countAttempts extra <= 3
    /\ countFixes extra <= countAttempts extra.
Proof.
  intros root task plan diff s. unfold Orchestrator.verifyCommands.
  destruct (length (default [] (Schema.commands plan)) =? 0)%nat.
  - exists []. split; [apply added_refl | split; cbn; lia].
  - destruct (attempts (3 - 0) 0 root task plan diff (default [] (Schema.commands plan)) s)
      as [r s'] eqn:H.
    apply attempts_trace in H as [H _]. exact H.
Qed.

(** X19: [verifyCommands] returns only when the plan has no command or
    when, in its last pass over the commands, every command ran to its end
    and exited with 0, one after the other: a state in which some command
    still fails is never accepted. *)
Theorem verifyCommands_success_is_clean :
  forall (root task : string) (plan : Schema.Plan) (diff : string)
         (s : Orchestrator.state World),
    fst (verifyCommands root task plan diff s) = Ok tt ->
    default [] (Schema.commands plan) = []
    \/ exists w, runsClean (default [] (Schema.commands plan)) root w.
Proof.
  intros root task plan diff s. unfold Orchestrator.verifyCommands.
  destruct (default [] (Schema.commands plan)) as [|c more]; [now left|].
  cbn [length Nat.eqb]. intros H. right.
  destruct (attempts (3 - 0) 0 root task plan diff (c :: more) s) as [r s'] eqn:Hrun.
  cbn [fst] in H. apply attempts_trace in Hrun as [_ Hclean]. now apply Hclean.
Qed.

Lemma runAll_after_clean (root : string) (before : list string) :
  forall (s : Orchestrator.state World) (w : World),
    Stated.cleanTo World runCommand before root (Orchestrator.world s) w ->
    forall rest : list string,
      runAll (before ++ rest) root s
      = runAll rest root
          {| Orchestrator.world := w;
             Orchestrator.trace :=
               Orchestrator.trace s ++ map Orchestrator.CommandRun before |}.
Proof.
  induction before as [|c before IH]; intros s w Hclean rest.
  - cbn [Stated.cleanTo] in Hclean. subst w. cbn [app map]. rewrite app_nil_r.
    now destruct s.
  - destruct Hclean as (r & w1 & Hrun & Hexit & Hclean).
    cbn [app Orchestrator.runAll]. unfold Orchestrator.bindM at 1.
    rewrite (run_step World runCommand _ _ _ _ _ Hrun). rewrite Hexit. cbn [Z.eqb negb].
    rewrite (IH {| Orchestrator.world := w1;
                   Orchestrator.trace :=
                     Orchestrator.trace s ++ [Orchestrator.CommandRun c] |} w Hclean).
    cbn [Orchestrator.trace Orchestrator.world map].
    now rewrite <- app_assoc.
Qed.

Lemma run_outcome (command root : string) (s : Orchestrator.state World)
      (r : result Orchestrator.CommandResult) (w' : World) :
  runCommand command root (Orchestrator.world s) = (r, w') ->
  run command root s
  = (r, {| Orchestrator.world := w';
           Orchestrator.trace := Orchestrator.trace s ++ [Orchestrator.CommandRun command] |}).
Proof.
  intros H. unfold Orchestrator.run, Orchestrator.bindM, Orchestrator.emit,
    Orchestrator.inWorld.
  cbn [Orchestrator.world Orchestrator.trace]. rewrite H. now destruct r.
Qed.

(** X20: [runAll] runs the commands in order and stops at the first that
    does not exit with 0.  When the commands before some command all exit
    with 0 and that command exits with another code, [runAll] answers
    [false] in the world that this command leaves, having run these
    commands and none of those after it; when that command cannot be run,
    [runAll] throws its error there.  When all commands exit with 0 it
    answers [true], having run them all, and it answers [true] in that case
    only. *)
Theorem runAll_stops_at_first_failure :
  forall (commands : list string) (root : string) (s : Orchestrator.state World),
    (fst (runAll commands root s) = Ok true
     <-> runsClean commands root (Orchestrator.world s))
    /\ (forall w' : World,
          Stated.cleanTo World runCommand commands root (Orchestrator.world s) w' ->
          runAll commands root s
          = (Ok true,
             {| Orchestrator.world := w';
                Orchestrator.trace :=
                  Orchestrator.trace s ++ map Orchestrator.CommandRun commands |}))
    /\ (forall (before : list string) (c : string) (after : list string)
               (r : Orchestrator.CommandResult) (w w' : World),
          commands = before ++ c :: after ->
          Stated.cleanTo World runCommand before root (Orchestrator.world s) w ->
          runCommand c root w = (Ok r, w') -> Orchestrator.exitCode r <> 0%Z ->
          runAll commands root s
          = (Ok false,
             {| Orchestrator.world := w';
                Orchestrator.trace :=
                  Orchestrator.trace s ++ map Orchestrator.CommandRun (before ++ [c]) |}))
    /\ (forall (before : list string) (c : string) (after : list string)
               (m : string) (w w' : World),
          commands = before ++ c :: after ->
          Stated.cleanTo World runCommand before root (Orchestrator.world s) w ->
          runCommand c root w = (Throw m, w') ->
          runAll commands root s
          = (Throw m,
             {| Orchestrator.world := w';
                Orchestrator.trace :=
                  Orchestrator.trace s ++ map Orchestrator.CommandRun (before ++ [c]) |})).
Proof.
  intros commands root s. split; [|split; [|split]].
  - destruct (runAll commands root s) as [r s'] eqn:H.
    apply runAll_trace in H as (n & _ & _ & _ & H). exact H.
  - intros w' Hclean. rewrite <- (app_nil_r commands) at 1.
    rewrite (runAll_after_clean root commands s w' Hclean). reflexivity.
  - intros before c after r w w' -> Hclean Hrun Hexit.
    rewrite (runAll_after_clean root before s w Hclean).
    cbn [Orchestrator.runAll]. unfold Orchestrator.bindM.
    rewrite (run_outcome c root _ (Ok r) w') by exact Hrun.
    apply Z.eqb_neq in Hexit. rewrite Hexit. cbn [negb Orchestrator.trace].
    unfold Orchestrator.ret. now rewrite map_app, app_assoc.
  - intros before c after m w w' -> Hclean Hrun.
    rewrite (runAll_after_clean root before s w Hclean).
    cbn [Orchestrator.runAll]. unfold Orchestrator.bindM.
    rewrite (run_outcome c root _ (Throw m) w') by exact Hrun.
    cbn [Orchestrator.trace]. now rewrite map_app, app_assoc.
Qed.

End VerifyBounds.

Lemma verifyCommands_success_is_clean_witness :
  ["npm test"] = []
  \/ exists w, Stated.runsClean unit (Sample.runExits 0) ["npm test"] "/repo" w.
Proof.
  apply (verifyCommands_success_is_clean unit (Sample.runExits 0) Retrieve.extractFilePaths
           Sample.sourceFiles Sample.promptFound (Sample.backendAnswers "")
           Sample.gitInWorld Sample.sameWorld "/" "/repo" "fix the tests" Sample.testPlan
           "diff --git a/x.ts b/x.ts"
           {| Orchestrator.world := tt; Orchestrator.trace := [] |}).
  vm_compute. reflexivity.
Defined.

(** ** The command line *)

Section CommandLine.

Lemma parseFrom_word (w : string) (rest : list string) (v : Cli.vars) :
  Stated.isWord w ->
  Cli.parseFrom (w :: rest) v
  = Cli.parseFrom rest {| Cli.rootVar := Cli.rootVar v; Cli.skipVar := Cli.skipVar v;
                          Cli.verboseVar := Cli.verboseVar v;
                          Cli.sessionVar := Cli.sessionVar v;
                          Cli.taskParts := Cli.taskParts v ++ [w] |}.
Proof.
  intros (H1 & H2 & H3 & H4). cbn [Cli.parseFrom].
  now rewrite !bool_decide_eq_false_2 by assumption.
Qed.

Lemma parseFrom_words (words rest : list string) :
  Forall Stated.isWord words ->
  forall v : Cli.vars,
    Cli.parseFrom (words ++ rest) v
    = Cli.parseFrom rest {| Cli.rootVar := Cli.rootVar v; Cli.skipVar := Cli.skipVar v;
                            Cli.verboseVar := Cli.verboseVar v;
                            Cli.sessionVar := Cli.sessionVar v;
                            Cli.taskParts := Cli.taskParts v ++ words |}.
Proof.
  induction 1 as [|w words Hw _ IH]; intros v.
  - cbn [app]. rewrite app_nil_r. now destruct v.
  - cbn [app]. rewrite parseFrom_word by assumption. rewrite IH.
    cbn [Cli.rootVar Cli.skipVar Cli.verboseVar Cli.sessionVar Cli.taskParts].
    now rewrite <- app_assoc.
Qed.

End CommandLine.

(** X21: when no argument is one of the four flags, [parseArgs] reports no
    error, keeps the working directory as the root, the session [default]
    and both switches off, and the task is the arguments joined by single
    spaces and trimmed; the script then prints the usage when that task is
    empty, as it is without arguments, and runs the task otherwise. *)
Theorem parseArgs_words :
  forall (cwd : string) (words : list string),
    Forall Stated.isWord words ->
    Cli.parseArgs cwd words
    = {| Cli.task := Js.trim (Js.join " " words); Cli.root := cwd;
         Cli.skipGitRepoCheck := false; Cli.verbose := Some false;
         Cli.sessionId := Some "default"; Cli.error := None |}
    /\ Cli.start cwd words
       = (if bool_decide (Js.trim (Js.join " " words) = "") then Cli.Usage
          else Cli.Run (Js.trim (Js.join " " words)) cwd false (Some false) (Some "default"))
    /\ Cli.start cwd [] = Cli.Usage.
Proof.
  intros cwd words Hwords.
  assert (H : Cli.parseArgs cwd words
              = {| Cli.task := Js.trim (Js.join " " words); Cli.root := cwd;
                   Cli.skipGitRepoCheck := false; Cli.verbose := Some false;
                   Cli.sessionId := Some "default"; Cli.error := None |}).
  { unfold Cli.parseArgs. rewrite <- (app_nil_r words) at 1.
    rewrite parseFrom_words by assumption. reflexivity. }
  split; [exact H|]. split; [|reflexivity].
  unfold Cli.start. rewrite H. reflexivity.
Qed.

Lemma parseArgs_words_witness :
  Cli.start "/home/u" ["fix"; "the"; "typo"]
  = Cli.Run "fix the typo" "/home/u" false (Some false) (Some "default").
Proof.
  destruct (parseArgs_words "/home/u" ["fix"; "the"; "typo"]) as (_ & H & _).
  - repeat constructor; discriminate.
  - rewrite H. reflexivity.
Defined.

(** X22: the flag [--cwd] takes the argument that follows it as the root,
    whatever that argument looks like, provided it is not empty; standing
    anywhere among the words of the task it has the effect of starting in
    that directory: the words before and after it make the task, and what
    follows is read as it would be without it. *)
Theorem parseArgs_cwd_anywhere :
  forall (cwd value : string) (words rest : list string),
    Forall Stated.isWord words -> value <> "" ->
    Cli.parseArgs cwd (words ++ "--cwd" :: value :: rest)
    = Cli.parseArgs value (words ++ rest).
Proof.
  intros cwd value words rest Hwords Hvalue. unfold Cli.parseArgs.
  rewrite !parseFrom_words by assumption.
  cbn [Cli.parseFrom Cli.rootVar Cli.skipVar Cli.verboseVar Cli.sessionVar Cli.taskParts].
  rewrite (bool_decide_eq_true_2 ("--cwd" = "--cwd")) by reflexivity.
  now rewrite (bool_decide_eq_false_2 (value = "")) by assumption.
Qed.

Lemma parseArgs_cwd_anywhere_witness :
  Cli.parseArgs "/home/u" (["fix"; "the"] ++ "--cwd" :: "--verbose" :: ["typo"])
  = Cli.parseArgs "--verbose" (["fix"; "the"] ++ ["typo"]).
Proof.
  apply parseArgs_cwd_anywhere; [repeat constructor; discriminate | discriminate].
Defined.

(** X23: a [--cwd] or a [--session] that comes after words of the task and
    is the last argument, or is followed by an empty argument, makes
    [parseArgs] report the missing value with an empty task, whatever
    follows, and the script fail with that message. *)
Theorem parseArgs_missing_value :
  forall (cwd : string) (words rest : list string),
    Forall Stated.isWord words ->
    (forall tail, tail = [] \/ tail = "" :: rest ->
       Cli.error (Cli.parseArgs cwd (words ++ "--cwd" :: tail))
         = Some "Missing value for --cwd."
       /\ Cli.task (Cli.parseArgs cwd (words ++ "--cwd" :: tail)) = ""
       /\ Cli.start cwd (words ++ "--cwd" :: tail) = Cli.Exit1 "Missing value for --cwd.")
    /\ (forall tail, tail = [] \/ tail = "" :: rest ->
          Cli.error (Cli.parseArgs cwd (words ++ "--session" :: tail))
            = Some "Missing value for --session."
          /\ Cli.task (Cli.parseArgs cwd (words ++ "--session" :: tail)) = ""
          /\ Cli.start cwd (words ++ "--session" :: tail)
             = Cli.Exit1 "Missing value for --session.").
Proof.
  intros cwd words rest Hwords. split; intros tail [->| ->];
    unfold Cli.start, Cli.parseArgs; rewrite !parseFrom_words by assumption;
    repeat split.
Qed.

Lemma parseArgs_missing_value_witness :
  Cli.start "/home/u" (["fix"; "it"] ++ ["--session"]) = Cli.Exit1 "Missing value for --session.".
Proof.
  destruct (parseArgs_missing_value "/home/u" ["fix"; "it"] []) as [_ H].
  - repeat constructor; discriminate.
  - apply (H []). now left.
Defined.

(** ** File names in the output of a command *)

Section FileNames.

Lemma span_take (f : ascii -> bool) (k : nat) (s : string) :
  k <= Retrieve.span f s ->
  Stated.all f (Js.take k s) = true /\ String.length (Js.take k s) = k.
Proof.
  revert s; induction k as [|k IH]; intros s H; [destruct s; split; reflexivity|].
  destruct s as [|c s]; cbn [Retrieve.span] in H; [lia|].
  destruct (f c) eqn:Hc; [|lia].
  destruct (IH s) as [H1 H2]; [lia|].
  cbn [Js.take Stated.all String.length]. rewrite Hc, H1, H2. split; reflexivity.
Qed.

Lemma span_append (f : ascii -> bool) (a b : string) :
  Stated.all f a = true -> Retrieve.span f (a +:+ b) = String.length a + Retrieve.span f b.
Proof.
  induction a as [|c a IH]; intros H; [reflexivity|].
  cbn [Stated.all] in H. apply andb_prop in H as [Hc Ha].
  cbn [String.append Retrieve.span String.length]. rewrite Hc, IH by assumption. reflexivity.
Qed.

Lemma take_app_length (a b : string) (n : nat) :
  Js.take (String.length a + n) (a +:+ b) = a +:+ Js.take n b.
Proof. induction a as [|c a IH]; [reflexivity|]. cbn. now rewrite IH. Qed.

Lemma take_add (a b : nat) (s : string) :
  Js.take (a + b) s = Js.take a s +:+ Js.take b (Js.drop a s).
Proof.
  revert s; induction a as [|a IH]; intros s; [reflexivity|].
  destruct s as [|c s]; [destruct b; reflexivity|]. cbn. now rewrite IH.
Qed.

Lemma drop_add (a b : nat) (s : string) : Js.drop (a + b) s = Js.drop b (Js.drop a s).
Proof.
  revert s; induction a as [|a IH]; intros s; [reflexivity|].
  destruct s as [|c s]; [destruct b; reflexivity|]. cbn. apply IH.
Qed.

Lemma all_impl (p q : ascii -> bool) (s : string) :
  (forall c, p c = true -> q c = true) -> Stated.all p s = true -> Stated.all q s = true.
Proof.
  intros Hpq. induction s as [|c s IH]; [reflexivity|]. cbn [Stated.all].
  intros H. apply andb_prop in H as [Hc Hs]. now rewrite (Hpq c Hc), IH.
Qed.

Lemma path_unit_kept (c : ascii) :
  Retrieve.isPathChar c = true \/ Retrieve.isDigit c = true \/ c = ":"%char ->
  Stated.notWhite c = true.
Proof.
  destruct c as [[] [] [] [] [] [] [] []]; vm_compute;
    intros [H|[H|H]]; first [reflexivity | discriminate H].
Qed.

Lemma word_unit_is_path_unit (c : ascii) :
  Retrieve.isWordChar c = true -> Retrieve.isPathChar c = true.
Proof. unfold Retrieve.isPathChar. intros ->. reflexivity. Qed.

Lemma trimEnd_kept (s : string) : Stated.all Stated.notWhite s = true -> Js.trimEnd s = s.
Proof.
  induction s as [|c s IH]; [reflexivity|]. cbn [Stated.all]. intros H.
  apply andb_prop in H as [Hc Hs]. cbn [Js.trimEnd]. rewrite IH by assumption.
  unfold Stated.notWhite in Hc. apply negb_true_iff in Hc. rewrite Hc.
  now destruct s.
Qed.

Lemma trimStart_kept (s : string) : Stated.all Stated.notWhite s = true -> Js.trimStart s = s.
Proof.
  destruct s as [|c s]; [reflexivity|]. cbn [Stated.all Js.trimStart]. intros H.
  apply andb_prop in H as [Hc _]. unfold Stated.notWhite in Hc.
  apply negb_true_iff in Hc. now rewrite Hc.
Qed.

Lemma trim_kept (s : string) : Stated.all Stated.notWhite s = true -> Js.trim s = s.
Proof. intros H. unfold Js.trim. now rewrite trimStart_kept, trimEnd_kept. Qed.

Lemma trim_lead (c : ascii) (s : string) :
  Js.isWhiteSpace c = true -> Stated.all Stated.notWhite s = true ->
  Js.trim (String c s) = s.
Proof.
  intros Hc Hs. unfold Js.trim. cbn [Js.trimStart]. rewrite Hc.
  now rewrite trimStart_kept, trimEnd_kept.
Qed.

Lemma lineNumber_kept (suffix : string) :
  Stated.lineNumber suffix -> Stated.all Stated.notWhite suffix = true.
Proof.
  intros [->|(digits & -> & _ & Hd)]; [reflexivity|].
  cbn [String.append Stated.all]. apply andb_true_intro. split; [reflexivity|].
  apply (all_impl Retrieve.isDigit); [|assumption].
  intros c Hc. apply path_unit_kept. auto.
Qed.

Lemma fileReference_kept (f : string) :
  Stated.fileReference f -> Stated.all Stated.notWhite f = true /\ f <> "".
Proof.
  intros (stem & ext & suffix & -> & Hne & Hstem & _ & Hext & Hsuffix). split.
  - assert (H1 : Stated.all Stated.notWhite stem = true).
    { apply (all_impl Retrieve.isPathChar); [|assumption].
      intros c Hc. apply path_unit_kept. auto. }
    assert (H2 : Stated.all Stated.notWhite ext = true).
    { apply (all_impl Retrieve.isWordChar); [|assumption].
      intros c Hc. apply path_unit_kept. left. now apply word_unit_is_path_unit. }
    rewrite !all_append, H1, H2, (lineNumber_kept suffix Hsuffix). reflexivity.
  - intros H. apply append_empty in H as [H _]. contradiction.
Qed.

Lemma lineSuffix_shape (s : string) :
  Stated.lineNumber (Js.take (Retrieve.lineSuffix s) s).
Proof.
  destruct s as [|c s]; [now left|]. unfold Retrieve.lineSuffix.
  destruct (ascii_dec c ":") as [->|]; [|now left].
  destruct (Retrieve.span Retrieve.isDigit s) as [|d] eqn:Hd; [now left|].
  right. exists (Js.take (S d) s).
  destruct (span_take Retrieve.isDigit (S d) s) as [H1 H2]; [lia|].
  split; [reflexivity|]. split; [|assumption].
  intros H. rewrite H in H2. discriminate H2.
Qed.

Lemma afterRun_shape (k e : nat) (rest : string) :
  1 <= k -> k <= Retrieve.span Retrieve.isPathChar rest ->
  Retrieve.afterRun k rest = Some e ->
  Stated.fileReference (Js.take e rest).
Proof.
  intros Hk Hspan. unfold Retrieve.afterRun.
  destruct (span_take Retrieve.isPathChar k rest Hspan) as [Hstem Hlen].
  destruct (Js.drop k rest) as [|c t] eqn:Hdrop; [discriminate|].
  destruct (ascii_dec c ".") as [->|]; [|discriminate].
  destruct (Retrieve.span Retrieve.isWordChar t) as [|m] eqn:Hm; [discriminate|].
  remember (Retrieve.lineSuffix (Js.drop (S m) t)) as suffix eqn:Hsuffix.
  intros H. assert (He : e = k + 1 + S m + suffix) by congruence. clear H. subst e.
  destruct (span_take Retrieve.isWordChar (S m) t) as [Hext Hextlen]; [lia|].
  exists (Js.take k rest), (Js.take (S m) t), (Js.take suffix (Js.drop (S m) t)).
  split.
  - rewrite (take_drop k rest) at 1. rewrite Hdrop.
    replace (k + 1 + S m + suffix)
      with (String.length (Js.take k rest) + S (S m + suffix)) by lia.
    rewrite take_app_length. f_equal.
    change (Js.take (S (S m + suffix)) (String "." t))
      with (String "." (Js.take (S m + suffix) t)).
    now rewrite take_add.
  - repeat split; try assumption.
    + intros H. rewrite H in Hlen. cbn in Hlen. lia.
    + intros H. rewrite H in Hextlen. discriminate Hextlen.
    + rewrite Hsuffix. apply lineSuffix_shape.
Qed.

Lemma backtrack_found (k e : nat) (rest : string) :
  Retrieve.backtrack k rest = Some e ->
  exists k', 1 <= k' /\ k' <= k /\ Retrieve.afterRun k' rest = Some e.
Proof.
  induction k as [|k IH]; [discriminate|]. cbn [Retrieve.backtrack].
  destruct (Retrieve.afterRun (S k) rest) as [e'|] eqn:H.
  - intros H'. injection H' as <-. exists (S k). repeat split; [lia | lia | assumption].
  - intros H'. destruct (IH H') as (k' & H1 & H2 & H3). exists k'. repeat split; [lia | lia | assumption].
Qed.

Lemma body_shape (e : nat) (rest : string) :
  Retrieve.body rest = Some e -> Stated.fileReference (Js.take e rest).
Proof.
  intros H. apply backtrack_found in H as (k & H1 & H2 & H3).
  now apply (afterRun_shape k).
Qed.

Lemma includes_start (s sub : string) :
  Js.startsWith s sub = true -> Js.includes s sub = true.
Proof. intros H. destruct s; cbn [Js.includes]; now rewrite H. Qed.

Lemma includes_behind (c : ascii) (s sub : string) :
  Js.includes s sub = true -> Js.includes (String c s) sub = true.
Proof. intros H. cbn [Js.includes]. rewrite H. now destruct (Js.startsWith (String c s) sub). Qed.

Lemma includes_take (e : nat) (s : string) : Js.includes s (Js.take e s) = true.
Proof. apply includes_start. rewrite (take_drop e s) at 1. apply startsWith_append. Qed.

Lemma matchAt_found (lineStart : bool) (e : nat) (rest : string) :
  Retrieve.matchAt lineStart rest = Some e ->
  Stated.fileReference (Js.trim (Js.take e rest))
  /\ Js.includes rest (Js.trim (Js.take e rest)) = true.
Proof.
  unfold Retrieve.matchAt.
  assert (Hbody : forall e', Retrieve.body rest = Some e' ->
            Stated.fileReference (Js.trim (Js.take e' rest))
            /\ Js.includes rest (Js.trim (Js.take e' rest)) = true).
  { intros e' H. apply body_shape in H.
    rewrite trim_kept by now apply fileReference_kept.
    split; [assumption | apply includes_take]. }
  destruct (if lineStart then Retrieve.body rest else None) as [e'|] eqn:Hfirst.
  - intros H. injection H as <-. destruct lineStart; [now apply Hbody | discriminate].
  - destruct rest as [|c t]; [discriminate|].
    destruct (Js.isWhiteSpace c) eqn:Hc; [|discriminate].
    destruct (Retrieve.body t) as [e'|] eqn:Ht; [|discriminate].
    intros H. injection H as <-. apply body_shape in Ht.
    cbn [Js.take]. rewrite trim_lead by (assumption || now apply fileReference_kept).
    split; [assumption | apply includes_behind, includes_take].
Qed.

Lemma scan_found (s : string) :
  forall (lineStart : bool) (skip : nat),
    Forall (fun m => Stated.fileReference (Js.trim m)
                     /\ Js.includes s (Js.trim m) = true)
           (Retrieve.scan lineStart skip s).
Proof.
  induction s as [|c s IH]; intros lineStart skip; [constructor|].
  assert (Hrest : forall ls k,
            Forall (fun m => Stated.fileReference (Js.trim m)
                             /\ Js.includes (String c s) (Js.trim m) = true)
                   (Retrieve.scan ls k s)).
  { intros ls k. eapply Forall_impl; [apply IH|].
    intros m [H1 H2]. split; [assumption | now apply includes_behind]. }
  cbn [Retrieve.scan]. destruct skip as [|k]; [|apply Hrest].
  destruct (Retrieve.matchAt lineStart (String c s)) as [e|] eqn:H; [|apply Hrest].
  constructor; [now apply (matchAt_found lineStart) | apply Hrest].
Qed.

Lemma member_false (x : string) (xs : list string) :
  Js.member x xs = false -> ~ In x xs.
Proof.
  unfold Js.member. intros H Hin.
  assert (Ht : existsb (fun y => bool_decide (y = x)) xs = true).
  { apply existsb_exists. exists x. split; [assumption | now apply bool_decide_eq_true_2]. }
  congruence.
Qed.

Lemma unique_sound (xs : list string) :
  forall seen,
    List.NoDup (Retrieve.unique xs seen)
    /\ (forall x, In x (Retrieve.unique xs seen) -> In x xs /\ ~ In x seen).
Proof.
  induction xs as [|x xs IH]; intros seen; cbn [Retrieve.unique].
  - split; [constructor | intros x []].
  - destruct (Js.member x seen) eqn:Hx.
    + destruct (IH seen) as [H1 H2]. split; [assumption|].
      intros y Hy. destruct (H2 y Hy). split; [now right | assumption].
    + destruct (IH (x :: seen)) as [H1 H2]. apply member_false in Hx. split.
      * constructor; [|assumption]. intros Hin. destruct (H2 x Hin) as [_ Hn].
        apply Hn. now left.
      * intros y [<-|Hy]; [split; [now left | assumption]|].
        destruct (H2 y Hy) as [Hin Hn]. split; [now right|].
        intros Hs. apply Hn. now right.
Qed.

End FileNames.

(** X24: [extractFilePaths] reports no name twice, and every name it
    reports stands in the output and is a run of letters, digits,
    underscores, dots, slashes and hyphens, then a dot and a run of
    letters, digits and underscores, possibly followed by a colon and
    digits. *)
Theorem extractFilePaths_shape :
  forall output : string,
    List.NoDup (Retrieve.extractFilePaths output)
    /\ Forall (fun f => Stated.fileReference f /\ Js.includes output f = true)
              (Retrieve.extractFilePaths output).
Proof.
  intros output. unfold Retrieve.extractFilePaths.
  destruct (unique_sound
              (List.filter (fun m => negb (bool_decide (m = "")))
                 (map Js.trim (Retrieve.scan true 0 output))) []) as [Hnd Hin].
  split; [assumption|].
  apply List.Forall_forall. intros f Hf. destruct (Hin f Hf) as [Hc _].
  apply List.filter_In in Hc as [Hc _]. apply List.in_map_iff in Hc as (m & <- & Hm).
  pose proof (scan_found output true 0) as Hall.
  rewrite List.Forall_forall in Hall. now apply Hall.
Qed.

Section LineNumbers.

Lemma span_stops (f : ascii -> bool) (a b : string) :
  Stated.all f a = true -> Retrieve.span f b = 0 ->
  Retrieve.span f (a +:+ b) = String.length a.
Proof. intros Ha Hb. rewrite span_append, Hb by assumption. lia. Qed.

Lemma backtrack_passes (j k : nat) (rest : string) :
  (forall i, k < i -> i <= k + j -> Retrieve.afterRun i rest = None) ->
  Retrieve.backtrack (k + j) rest = Retrieve.backtrack k rest.
Proof.
  induction j as [|j IH]; intros H; [now rewrite Nat.add_0_r|].
  replace (k + S j) with (S (k + j)) by lia. cbn [Retrieve.backtrack].
  rewrite H by lia. apply IH. intros i H1 H2. apply H; lia.
Qed.

(** Inside the extension and at its end no dot stands. *)
Lemma no_dot_in_extension (ext behind : string) (i : nat) :
  Stated.all Retrieve.isWordChar ext = true -> i <= String.length ext ->
  exists c t, Js.drop i (ext +:+ ":" +:+ behind) = String c t /\ c <> "."%char.
Proof.
  revert i; induction ext as [|x ext IH]; intros i Hext Hi.
  - cbn in Hi. replace i with 0 by lia. exists ":"%char, behind. split; [reflexivity | discriminate].
  - cbn [Stated.all] in Hext. apply andb_prop in Hext as [Hx Hext].
    destruct i as [|i].
    + exists x, (ext +:+ ":" +:+ behind). split; [reflexivity|].
      intros ->. discriminate Hx.
    + cbn [String.length] in Hi. apply (IH i Hext). lia.
Qed.

Lemma body_of_reference (stem ext digits tail : string) :
  stem <> "" -> Stated.all Retrieve.isPathChar stem = true ->
  ext <> "" -> Stated.all Retrieve.isWordChar ext = true ->
  digits <> "" -> Stated.all Retrieve.isDigit digits = true ->
  Retrieve.span Retrieve.isDigit tail = 0 ->
  Retrieve.body (stem +:+ "." +:+ ext +:+ ":" +:+ digits +:+ tail)
  = Some (String.length (stem +:+ "." +:+ ext +:+ ":" +:+ digits)).
Proof.
  intros Hs1 Hs2 He1 He2 Hd1 Hd2 Ht. unfold Retrieve.body.
  set (behind := digits +:+ tail).
  assert (Hspan : Retrieve.span Retrieve.isPathChar (stem +:+ "." +:+ ext +:+ ":" +:+ behind)
                  = String.length stem + S (String.length ext)).
  { rewrite span_append by assumption. f_equal.
    change ("." +:+ ext +:+ ":" +:+ behind) with (String "." (ext +:+ String ":" behind)).
    cbn [Retrieve.span].
    change (Retrieve.isPathChar ".") with true. cbv iota. f_equal.
    apply span_stops; [|reflexivity].
    apply (all_impl Retrieve.isWordChar); [apply word_unit_is_path_unit | assumption]. }
  rewrite Hspan. rewrite backtrack_passes.
  - destruct (String.length stem) as [|k] eqn:Hk; [destruct stem; [contradiction | discriminate]|].
    cbn [Retrieve.backtrack]. unfold Retrieve.afterRun. rewrite <- Hk, drop_append.
    change ("." +:+ ext +:+ ":" +:+ behind) with (String "." (ext +:+ String ":" behind)).
    destruct (ascii_dec "." ".") as [_|Hn]; [|congruence].
    rewrite (span_stops Retrieve.isWordChar ext (String ":" behind)) by (assumption || reflexivity).
    destruct (String.length ext) as [|m] eqn:Hm; [destruct ext; [contradiction | discriminate]|].
    rewrite <- Hm, drop_append. unfold Retrieve.lineSuffix.
    destruct (ascii_dec ":" ":") as [_|Hn]; [|congruence].
    unfold behind. rewrite (span_stops Retrieve.isDigit digits tail) by assumption.
    destruct (String.length digits) as [|d] eqn:Hd; [destruct digits; [contradiction | discriminate]|].
    f_equal. rewrite !append_length. cbn [String.length]. lia.
  - intros i H1 H2. unfold Retrieve.afterRun.
    replace i with (String.length stem + S (i - String.length stem - 1)) by lia.
    rewrite drop_add, drop_append.
    change (Js.drop (S (i - String.length stem - 1)) ("." +:+ ext +:+ ":" +:+ behind))
      with (Js.drop (i - String.length stem - 1) (ext +:+ ":" +:+ behind)).
    destruct (no_dot_in_extension ext behind (i - String.length stem - 1) He2) as (c & t & -> & Hc);
      [lia|].
    destruct (ascii_dec c "."); [contradiction | reflexivity].
Qed.

Lemma take_prefix (p s : string) : Js.take (String.length p) (p +:+ s) = p.
Proof.
  rewrite <- (Nat.add_0_r (String.length p)), take_app_length.
  destruct s; apply append_nil_r.
Qed.

End LineNumbers.

(** X25: when the output starts with a file name that is followed by a
    colon and a line number, the first name [extractFilePaths] reports is
    the file name with the colon and the digits of the line number
    attached, not the file name alone. *)
Theorem extractFilePaths_keeps_line_number :
  forall stem ext digits tail : string,
    stem <> "" -> Stated.all Retrieve.isPathChar stem = true ->
    ext <> "" -> Stated.all Retrieve.isWordChar ext = true ->
    digits <> "" -> Stated.all Retrieve.isDigit digits = true ->
    Retrieve.span Retrieve.isDigit tail = 0 ->
    hd_error (Retrieve.extractFilePaths
                ((stem +:+ "." +:+ ext +:+ ":" +:+ digits) +:+ tail))
    = Some (stem +:+ "." +:+ ext +:+ ":" +:+ digits).
Proof.
  intros stem ext digits tail Hs1 Hs2 He1 He2 Hd1 Hd2 Ht.
  set (name := stem +:+ "." +:+ ext +:+ ":" +:+ digits).
  assert (Hbody : Retrieve.body (name +:+ tail) = Some (String.length name)).
  { unfold name. rewrite <- (body_of_reference stem ext digits tail) by assumption.
    f_equal. now rewrite !append_assoc. }
  assert (Hname : Stated.fileReference name).
  { exists stem, ext, (":" +:+ digits). repeat split; try assumption.
    right. exists digits. repeat split; assumption. }
  destruct (fileReference_kept name Hname) as [Hkept Hne].
  unfold Retrieve.extractFilePaths.
  destruct (name +:+ tail) as [|c s] eqn:Hout.
  { apply append_empty in Hout as [Hout _]. contradiction. }
  cbn [Retrieve.scan]. unfold Retrieve.matchAt. rewrite Hbody.
  rewrite <- Hout, take_prefix. cbn [map List.filter].
  rewrite trim_kept by assumption.
  rewrite bool_decide_eq_false_2 by assumption. reflexivity.
Qed.

Lemma extractFilePaths_keeps_line_number_witness :
  hd_error (Retrieve.extractFilePaths (("src/a" +:+ "." +:+ "ts" +:+ ":" +:+ "12") +:+ ":3 - error"))
  = Some "src/a.ts:12".
Proof.
  apply (extractFilePaths_keeps_line_number "src/a" "ts" "12" ":3 - error");
    first [discriminate | reflexivity].
Defined.

(** ** Prompts *)

Section Prompts.

Lemma firstReadable_found (fs : Retrieve.disk) (candidates : list string) (data : list N) :
  Retrieve.firstReadable fs candidates = Some data
  <-> exists before p after bytes,
        candidates = before ++ p :: after
        /\ Forall (fun q => fs q = None) before
        /\ fs p = Some bytes /\ data = Retrieve.decodeUtf8 bytes.
Proof.
  induction candidates as [|q candidates IH]; cbn [Retrieve.firstReadable].
  - split; [discriminate|]. intros (before & p & after & bytes & H & _).
    destruct before; discriminate H.
  - unfold Retrieve.readFile. destruct (fs q) as [bytes|] eqn:Hq.
    + split.
      * intros H. injection H as <-. exists [], q, candidates, bytes.
        repeat split; [constructor | assumption].
      * intros (before & p & after & bytes' & H & Hb & Hp & ->).
        destruct before as [|b before]; cbn [app] in H; injection H as <- _.
        -- congruence.
        -- apply Forall_inv in Hb. congruence.
    + rewrite IH. split.
      * intros (before & p & after & bytes & -> & Hb & Hp & ->).
        exists (q :: before), p, after, bytes. repeat split; [constructor|]; assumption.
      * intros (before & p & after & bytes & H & Hb & Hp & ->).
        destruct before as [|b before]; cbn [app] in H; injection H as <- H.
        -- congruence.
        -- exists before, p, after, bytes. repeat split; try assumption.
           now apply Forall_inv_tail in Hb.
Qed.

Lemma firstReadable_none (fs : Retrieve.disk) (candidates : list string) :
  Retrieve.firstReadable fs candidates = None <-> Forall (fun q => fs q = None) candidates.
Proof.
  induction candidates as [|q candidates IH]; cbn [Retrieve.firstReadable].
  - split; [constructor | reflexivity].
  - unfold Retrieve.readFile. destruct (fs q) as [bytes|] eqn:Hq.
    + split; [discriminate|]. intros H. apply Forall_inv in H. congruence.
    + rewrite IH. split; [now constructor | apply Forall_inv_tail].
Qed.

Lemma resolve_absolute_last (cwd name : string) (before : list string) :
  NodePath.isAbsolute name = true ->
  NodePath.resolve cwd (before ++ [name]) = NodePath.resolve cwd [name].
Proof.
  intros H. unfold NodePath.resolve. rewrite rev_app_distr. cbn [rev app NodePath.resolveScan].
  assert (Hne : name <> "") by (intros ->; discriminate H).
  rewrite bool_decide_eq_false_2 by assumption. now rewrite H.
Qed.

(** The names behind an absolute path, taken from the right. *)
Lemma resolveScan_names (names : list string) :
  Forall Stated.plainName names ->
  forall (more : list string) (acc : string),
    NodePath.resolveScan (rev names ++ more) acc
    = NodePath.resolveScan more (fold_right (fun n a => n +:+ "/" +:+ a) acc names).
Proof.
  induction names as [|x names IH] using rev_ind; intros H more acc; [reflexivity|].
  apply Forall_app in H as [Hnames Hx]. apply Forall_inv in Hx.
  rewrite rev_app_distr, fold_right_app. cbn [rev app NodePath.resolveScan fold_right].
  destruct (join_cons_plain x [] Hx) as [Hne Habs]. cbn [Js.join] in Hne, Habs.
  rewrite bool_decide_eq_false_2 by assumption. rewrite Habs. now apply IH.
Qed.

Lemma slashed_names (names : list string) :
  names <> [] ->
  fold_right (fun n a => n +:+ "/" +:+ a) "" names = Js.join "/" names +:+ "/" +:+ "".
Proof.
  induction names as [|x names IH]; intros H; [contradiction|].
  destruct names as [|y names]; [reflexivity|].
  change (fold_right (fun n a => n +:+ "/" +:+ a) "" (x :: y :: names))
    with (x +:+ "/" +:+ fold_right (fun n a => n +:+ "/" +:+ a) "" (y :: names)).
  rewrite IH by discriminate.
  change (Js.join "/" (x :: y :: names)) with (x +:+ "/" +:+ Js.join "/" (y :: names)).
  now rewrite !append_assoc.
Qed.

Lemma resolve_args (cwd : string) (rs names : list string) :
  Forall Stated.plainName rs -> Forall Stated.plainName names ->
  NodePath.resolve cwd (Stated.ofSegments rs :: names) = Stated.ofSegments (rs ++ names).
Proof.
  intros Hrs Hnames. rewrite <- (resolve_inside cwd rs names) by assumption.
  unfold NodePath.resolve. cbn [rev]. rewrite <- !app_assoc.
  rewrite resolveScan_names by assumption.
  destruct names as [|n names].
  - cbn [fold_right Js.join app NodePath.resolveScan].
    now rewrite (bool_decide_eq_true_2 ("" = "")) by reflexivity.
  - rewrite slashed_names by discriminate.
    cbn [app NodePath.resolveScan].
    destruct (join_cons_plain n names (Forall_inv Hnames)) as [Hne Habs].
    rewrite (bool_decide_eq_false_2 (Js.join "/" (n :: names) = "")) by assumption.
    now rewrite Habs.
Qed.

End Prompts.

(** X26: [readPrompt] returns the text of the first of its four candidate
    paths that can be read, whatever stands at the later ones, and throws
    [Prompt not found:] with the name exactly when none of the four can be
    read.  For a name that is an absolute path, the four candidates are
    that very path: the directories of the prompts play no part. *)
Theorem readPrompt_first_readable :
  forall (fs : Retrieve.disk) (moduleDir cwd name : string),
    (forall data,
       Retrieve.readPrompt fs moduleDir cwd name = Ok data
       <-> exists before p after bytes,
             Retrieve.candidatePaths moduleDir cwd name = before ++ p :: after
             /\ Forall (fun q => fs q = None) before
             /\ fs p = Some bytes /\ data = Retrieve.decodeUtf8 bytes)
    /\ (Retrieve.readPrompt fs moduleDir cwd name = Throw ("Prompt not found: " +:+ name)
        <-> Forall (fun q => fs q = None) (Retrieve.candidatePaths moduleDir cwd name))
    /\ (NodePath.isAbsolute name = true ->
        Forall (fun q => q = NodePath.resolve cwd [name])
               (Retrieve.candidatePaths moduleDir cwd name)).
Proof.
  intros fs moduleDir cwd name. unfold Retrieve.readPrompt. repeat split.
  - destruct (Retrieve.firstReadable fs _) as [d|] eqn:H; [|discriminate].
    intros H'. injection H' as <-. now apply firstReadable_found.
  - intros H. apply firstReadable_found in H. now rewrite H.
  - destruct (Retrieve.firstReadable fs _) as [d|] eqn:H; [discriminate|].
    intros _. now apply firstReadable_none.
  - intros H. apply firstReadable_none in H. now rewrite H.
  - intros H. unfold Retrieve.candidatePaths.
    repeat (constructor;
            [first [ exact (resolve_absolute_last cwd name [_; _] H)
                   | exact (resolve_absolute_last cwd name [_; _; _] H)
                   | exact (resolve_absolute_last cwd name [_; _; _; _; _] H) ]|]).
    constructor.
Qed.

(** X27: for a module directory and a working directory that are absolute
    paths of plain names and a prompt name that is a plain name, the
    places [readPrompt] tries are, in this order, the file of that name in
    [prompts] beside the module and in [src/prompts], [dist/prompts] and
    [tools/codex-roles-cli/src/prompts] under the working directory; the
    prompt beside the module, when it can be read, is the one returned. *)
Theorem readPrompt_lookup_order :
  forall (fs : Retrieve.disk) (ms cs : list string) (name : string),
    Forall Stated.plainName ms -> Forall Stated.plainName cs -> Stated.plainName name ->
    Retrieve.candidatePaths (Stated.ofSegments ms) (Stated.ofSegments cs) name
    = [Stated.ofSegments (ms ++ ["prompts"; name]);
       Stated.ofSegments (cs ++ ["src"; "prompts"; name]);
       Stated.ofSegments (cs ++ ["dist"; "prompts"; name]);
       Stated.ofSegments (cs ++ ["tools"; "codex-roles-cli"; "src"; "prompts"; name])]
    /\ (forall bytes,
          fs (Stated.ofSegments (ms ++ ["prompts"; name])) = Some bytes ->
          Retrieve.readPrompt fs (Stated.ofSegments ms) (Stated.ofSegments cs) name
          = Ok (Retrieve.decodeUtf8 bytes)).
Proof.
  intros fs ms cs name Hms Hcs Hname.
  assert (Hplain : forall l, Forall Stated.plainName l -> Forall Stated.plainName (l ++ [name])).
  { intros l Hl. apply Forall_app. split; [assumption | now constructor]. }
  assert (Hlit : forall s, In s ["prompts"; "src"; "dist"; "tools"; "codex-roles-cli"] ->
                           Stated.plainName s).
  { intros s Hs. cbn [In] in Hs.
    repeat (destruct Hs as [<-|Hs]; [repeat split; (reflexivity || discriminate)|]).
    contradiction. }
  assert (Hcand : Retrieve.candidatePaths (Stated.ofSegments ms) (Stated.ofSegments cs) name
    = [Stated.ofSegments (ms ++ ["prompts"; name]);
       Stated.ofSegments (cs ++ ["src"; "prompts"; name]);
       Stated.ofSegments (cs ++ ["dist"; "prompts"; name]);
       Stated.ofSegments (cs ++ ["tools"; "codex-roles-cli"; "src"; "prompts"; name])]).
  { unfold Retrieve.candidatePaths.
    rewrite !resolve_args;
      first [ reflexivity | assumption
            | repeat (constructor; [first [exact Hname | apply Hlit; cbn [In]; tauto]|]);
              constructor ]. }
  split; [exact Hcand|].
  intros bytes Hfs. unfold Retrieve.readPrompt. rewrite Hcand.
  cbn [Retrieve.firstReadable]. unfold Retrieve.readFile. now rewrite Hfs.
Qed.

Lemma readPrompt_lookup_order_witness :
  Retrieve.readPrompt
    (fun p => if bool_decide (p = "/app/dist/prompts/classify.txt") then Some Sample.asciiBytes
              else None)
    "/app/dist" "/work/repo" "classify.txt"
  = Ok (Retrieve.decodeUtf8 Sample.asciiBytes).
Proof.
  apply (readPrompt_lookup_order _ ["app"; "dist"] ["work"; "repo"] "classify.txt").
  - repeat constructor; discriminate.
  - repeat constructor; discriminate.
  - repeat constructor; discriminate.
  - reflexivity.
Defined.

(** ** Retrieval *)

Section Retrieval.

Variable rg : list string -> string -> result string.
Variable fs : Retrieve.disk.
Variable cwd : string.

Lemma searchLoop_entries (root : string) (tokens : list string) :
  forall acc searchResults : gmap string string,
    Orchestrator.searchLoop rg root tokens acc = Ok searchResults ->
    forall token found,
      searchResults !! token = Some found ->
      acc !! token = Some found
      \/ (In token tokens
          /\ exists stdout, rg (Retrieve.searchArgs token) root = Ok stdout
                            /\ found = Js.take (N.to_nat 20000) stdout).
Proof.
  induction tokens as [|t tokens IH]; intros acc searchResults; cbn [Orchestrator.searchLoop].
  - intros H. injection H as <-. auto.
  - unfold Retrieve.searchRepo.
    destruct (rg (Retrieve.searchArgs t) root) as [stdout|m] eqn:Hrg; [|discriminate].
    cbn [bind]. intros H token found Hfound.
    destruct (IH _ _ H token found Hfound) as [Hacc|(Hin & Hstd)].
    + unfold Orchestrator.setResult in Hacc.
      destruct (bool_decide (t = "__proto__")); [now left|].
      destruct (decide (t = token)) as [->|Hne].
      * rewrite lookup_insert_eq in Hacc. apply (inj Some) in Hacc.
        right. split; [now left|]. exists stdout. split; [assumption | now symmetry].
      * rewrite lookup_insert_ne in Hacc by assumption. now left.
    + right. split; [now right | assumption].
Qed.

Lemma searchLoop_throws (root : string) (tokens : list string) (token m : string) :
  In token tokens -> rg (Retrieve.searchArgs token) root = Throw m ->
  forall acc, exists m', Orchestrator.searchLoop rg root tokens acc = Throw m'.
Proof.
  intros Hin Hrg. induction tokens as [|t tokens IH]; intros acc; [contradiction|].
  cbn [Orchestrator.searchLoop]. unfold Retrieve.searchRepo.
  destruct (rg (Retrieve.searchArgs t) root) as [stdout|m'] eqn:Ht; cbn [bind].
  - destruct Hin as [->|Hin]; [congruence|]. now apply IH.
  - eauto.
Qed.

Lemma readRequested_files (root : string) (plan : Schema.Plan)
      (files : gmap string (list N)) :
  Orchestrator.readRequested fs cwd root plan ∅ = Ok files ->
  match Schema.read plan with
  | Some (file :: more) => Retrieve.readFilesSafe fs cwd root (file :: more) = Ok files
  | _ => files = ∅
  end.
Proof.
  unfold Orchestrator.readRequested. destruct (Schema.read plan) as [[|file more]|].
  - intros H. now injection H.
  - destruct (Retrieve.readFilesSafe fs cwd root (file :: more)) as [source|m];
      [|discriminate].
    cbn [bind]. unfold Orchestrator.assign. rewrite (right_id_L ∅ (∪)).
    intros H. now injection H as <-.
  - intros H. now injection H.
Qed.

End Retrieval.

(** X28: whenever [retrieveContext] returns, every search result it
    holds belongs to a token of [plan.search] and is the first 20000 code
    units of what the search tool printed for that token, and the files
    are those [readFilesSafe] returned for [plan.read], or none when
    [plan.read] is absent or empty.  For a task type that does not start
    with [code] the search tool plays no part and no search result is
    returned, whatever [plan.search] holds; for one that does, a search
    that fails for one token makes the retrieval throw. *)
Theorem retrieveContext_outcome :
  forall (rg : list string -> string -> result string) (fs : Retrieve.disk)
         (cwd root : string) (plan : Schema.Plan) (taskType : string),
    (forall searchResults files,
       Orchestrator.retrieveContext rg fs cwd root plan taskType = Ok (searchResults, files) ->
       (forall token found,
          searchResults !! token = Some found ->
          Js.startsWith taskType "code" = true
          /\ In token (default [] (Schema.search plan))
          /\ exists stdout, rg (Retrieve.searchArgs token) root = Ok stdout
                            /\ found = Js.take (N.to_nat 20000) stdout)
       /\ match Schema.read plan with
          | Some (file :: more) => Retrieve.readFilesSafe fs cwd root (file :: more) = Ok files
          | _ => files = ∅
          end)
    /\ (Js.startsWith taskType "code" = false ->
        forall rg',
          Orchestrator.retrieveContext rg' fs cwd root plan taskType
          = Orchestrator.retrieveContext rg fs cwd root plan taskType)
    /\ (Js.startsWith taskType "code" = true ->
        forall token m,
          In token (default [] (Schema.search plan)) ->
          rg (Retrieve.searchArgs token) root = Throw m ->
          exists m', Orchestrator.retrieveContext rg fs cwd root plan taskType = Throw m').
Proof.
  intros rg fs cwd root plan taskType. unfold Orchestrator.retrieveContext.
  destruct (Js.startsWith taskType "code") eqn:Hcode; repeat split; try discriminate.
  - destruct (Orchestrator.searchLoop rg root _ ∅) as [sr|m] eqn:Hsr; [|discriminate].
    cbn [bind] in H.
    destruct (Orchestrator.readRequested fs cwd root plan ∅) as [fl|m]; [|discriminate].
    injection H as <- <-.
    destruct (searchLoop_entries rg root _ _ _ Hsr token found H0) as [Hacc|[Hin _]];
      [now rewrite lookup_empty in Hacc | assumption].
  - destruct (Orchestrator.searchLoop rg root _ ∅) as [sr|m] eqn:Hsr; [|discriminate].
    cbn [bind] in H.
    destruct (Orchestrator.readRequested fs cwd root plan ∅) as [fl|m]; [|discriminate].
    injection H as <- <-.
    destruct (searchLoop_entries rg root _ _ _ Hsr token found H0) as [Hacc|[_ Hstd]];
      [now rewrite lookup_empty in Hacc | assumption].
  - destruct (Orchestrator.searchLoop rg root _ ∅) as [sr|m] eqn:Hsr; [|discriminate].
    cbn [bind] in H.
    destruct (Orchestrator.readRequested fs cwd root plan ∅) as [fl|m] eqn:Hfl; [|discriminate].
    injection H as <- <-. now apply (readRequested_files fs cwd root).
  - intros _ token m Hin Hrg.
    destruct (searchLoop_throws rg root _ token m Hin Hrg ∅) as [m' ->]. eauto.
  - destruct (Orchestrator.readRequested fs cwd root plan ∅) as [fl|m]; [|discriminate].
    injection H as <- <-. now rewrite lookup_empty in H0.
  - destruct (Orchestrator.readRequested fs cwd root plan ∅) as [fl|m]; [|discriminate].
    injection H as <- <-. now rewrite lookup_empty in H0.
  - destruct (Orchestrator.readRequested fs cwd root plan ∅) as [fl|m]; [|discriminate].
    injection H as <- <-. now rewrite lookup_empty in H0.
  - destruct (Orchestrator.readRequested fs cwd root plan ∅) as [fl|m] eqn:Hfl; [|discriminate].
    injection H as <- <-. now apply (readRequested_files fs cwd root).
Qed.

(** ** The options of the backend thread *)

Section Configured.

Lemma parseFrom_values (args : list string) :
  forall v : Cli.vars,
    Cli.rootVar v <> "" -> Cli.sessionVar v <> "" ->
    Cli.root (Cli.parseFrom args v) <> ""
    /\ (Cli.error (Cli.parseFrom args v) = None ->
        (exists b, Cli.verbose (Cli.parseFrom args v) = Some b)
        /\ exists id, Cli.sessionId (Cli.parseFrom args v) = Some id /\ id <> "").
Proof.
  induction args as [args IH] using (induction_ltof1 _ (@length string));
    unfold ltof in IH; intros v Hroot Hsession.
  destruct args as [|arg rest].
  { cbn. split; [assumption|]. intros _. split; eauto. }
  assert (Hnext : forall rest' v',
            length rest' <= length rest ->
            Cli.rootVar v' <> "" -> Cli.sessionVar v' <> "" ->
            Cli.root (Cli.parseFrom rest' v') <> ""
            /\ (Cli.error (Cli.parseFrom rest' v') = None ->
                (exists b, Cli.verbose (Cli.parseFrom rest' v') = Some b)
                /\ exists id, Cli.sessionId (Cli.parseFrom rest' v') = Some id /\ id <> "")).
  { intros rest' v' Hlen. apply IH. cbn [length]. lia. }
  clear IH. cbn [Cli.parseFrom].
  destruct (bool_decide (arg = "--cwd")).
  { destruct rest as [|value rest']; [cbn; split; [assumption | discriminate]|].
    destruct (bool_decide (value = "")) eqn:Hvalue; [cbn; split; [assumption | discriminate]|].
    apply bool_decide_eq_false in Hvalue.
    apply Hnext; [cbn [length]; lia | exact Hvalue | exact Hsession]. }
  destruct (bool_decide (arg = "--skip-git-repo-check")).
  { apply Hnext; [lia | exact Hroot | exact Hsession]. }
  destruct (bool_decide (arg = "--session")).
  { destruct rest as [|value rest']; [cbn; split; [assumption | discriminate]|].
    destruct (bool_decide (value = "")) eqn:Hvalue; [cbn; split; [assumption | discriminate]|].
    apply bool_decide_eq_false in Hvalue.
    apply Hnext; [cbn [length]; lia | exact Hroot | exact Hvalue]. }
  destruct (bool_decide (arg = "--verbose"));
    apply Hnext; first [lia | exact Hroot | exact Hsession].
Qed.

End Configured.

(** X29: started in a working directory whose path is not empty, the
    script runs a task only with a task and a root that are not empty, a
    session id that is not empty and a verbosity that is set; the options
    it has configured by then make the backend thread start in that root,
    with the repository check skipped exactly when the flag was given. *)
Theorem start_runs_in_root :
  forall (cwd : string) (args : list string) (task root : string) (skip : bool)
         (verbose : option bool) (sessionId : option string),
    cwd <> "" ->
    Cli.start cwd args = Cli.Run task root skip verbose sessionId ->
    task <> "" /\ root <> ""
    /\ (exists b, verbose = Some b)
    /\ (exists id, sessionId = Some id /\ id <> "")
    /\ Codex.getThreadOptions (Cli.configured root skip)
       = Some {| Codex.workingDirectory := Some (Some root);
                 Codex.skipGitRepoCheck := Some (Some skip) |}.
Proof.
  intros cwd args task root skip verbose sessionId Hcwd. unfold Cli.start.
  destruct (parseFrom_values args
              {| Cli.rootVar := cwd; Cli.skipVar := false; Cli.verboseVar := false;
                 Cli.sessionVar := "default"; Cli.taskParts := [] |} Hcwd)
    as [Hroot Hrest]; [discriminate|].
  fold (Cli.parseArgs cwd args) in Hroot, Hrest.
  destruct (Cli.error (Cli.parseArgs cwd args)) as [message|]; [discriminate|].
  destruct (bool_decide (Cli.task (Cli.parseArgs cwd args) = "")) eqn:Htask; [discriminate|].
  apply bool_decide_eq_false in Htask.
  intros H. injection H as <- <- <- <- <-.
  destruct (Hrest eq_refl) as [Hverbose Hsession].
  repeat split; try assumption.
  unfold Codex.getThreadOptions, Cli.configured, Codex.configureCodex. cbn.
  now rewrite bool_decide_eq_false_2 by assumption.
Qed.

Lemma start_runs_in_root_witness :
  Codex.getThreadOptions (Cli.configured "/repo" true)
  = Some {| Codex.workingDirectory := Some (Some "/repo");
            Codex.skipGitRepoCheck := Some (Some true) |}.
Proof.
  apply (start_runs_in_root "/home/u" ["fix"; "--cwd"; "/repo"; "--skip-git-repo-check"; "it"]
           "fix it" "/repo" true (Some false) (Some "default")).
  - discriminate.
  - reflexivity.
Defined.
